(** * slate-sync: the deploy coalescer and the theme-id resolver

    A shallow embedding of [packages/slate-sync/index.js].

    The module keeps two module-level variables, [deploying] and
    [filesToDeploy], and runs on the single-threaded JavaScript event loop.
    An [async] function runs synchronously up to its first [await]; the
    embedding therefore splits [deploy] at its two [await]s and keeps every
    suspended activation in a table, to be resumed when the promise of
    [themekit.command] settles.  One transition of the model is an exported
    function called by a client, which runs uninterrupted, or the
    continuation of a suspended [deploy].  The continuation is taken in one
    piece although it spans two microtasks (the wrapper returns, then
    [deploy] goes on): the first of them touches neither [deploying] nor
    [filesToDeploy], so a call falling between the two behaves as one made
    just before.

    What lies outside the file (the [@shopify/slate-env] accessors, the
    [SlateConfig] lookup, [JSON.parse] and [JSON.stringify]) is a variable of
    the section that uses it.  Console output is kept only for
    [console.error], the one channel through which a failed transfer can be
    observed. *)

From Stdlib Require Import ZArith String Ascii List Bool Lia PrimFloat.
From stdpp Require Import base option list gmap strings.
Import ListNotations.

Local Open Scope string_scope.
Local Set Warnings "-register-all".

(** ** JavaScript values of the deploy side *)

(** [new Error(message)] *)
Record js_error := Error { message : string }.

(** What a promise of this module is fulfilled with: nothing, or the function
    object [maybeDeploy] ([deploy] ends in [return maybeDeploy;], without a
    call). *)
Inductive js_value :=
| VUndefined
| VMaybeDeploy.

Inductive settlement :=
| Fulfilled (v : js_value)
| Rejected (e : js_error).

(** The promise a call hands back: already settled, or the promise of the
    suspended [deploy] activation [id]. *)
Inductive promise :=
| Settled (r : settlement)
| PendingOn (id : nat).

(** How the promise returned by [themekit.command] settles. *)
Inductive outcome :=
| Succeeded
| Failed (e : js_error).

(** A function object: its source text, which is what a template literal
    interpolates, and its behaviour when called in a process environment. *)
Record js_fun (E A : Type) := JsFun { fn_text : string; fn_call : E -> A }.
Arguments JsFun {E A} _ _.
Arguments fn_text {E A} _.
Arguments fn_call {E A} _ _.

(** The result of [slateEnv.validate()]. *)
Record validation := Validation { isValid : bool; errors : list string }.

(** The part of [@shopify/slate-env] the file uses. *)
Record SlateEnv (E : Type) := {
  validate : E -> validation;
  getEnvNameValue : js_fun E string;
  getStoreValue : js_fun E string;
  getPasswordValue : js_fun E string;
  getThemeIdValue : js_fun E string;
  getTimeoutValue : js_fun E string;
  getIgnoreFilesValue : js_fun E string
}.
Arguments validate {E} _ _.
Arguments getEnvNameValue {E} _.
Arguments getStoreValue {E} _.
Arguments getPasswordValue {E} _.
Arguments getThemeIdValue {E} _.
Arguments getTimeoutValue {E} _.
Arguments getIgnoreFilesValue {E} _.

(** A synchronous computation that may end the process ([process.exit]). *)
Inductive proc (A : Type) :=
| Ret (a : A)
| Exit (code : Z).
Arguments Ret {A} _.
Arguments Exit {A} _.

#[global] Instance proc_ret : MRet proc := fun A a => Ret a.

#[global] Instance proc_bind : MBind proc := fun A B k m =>
  match m with
  | Ret a => k a
  | Exit c => Exit c
  end.

(** Values of the options object handed to [themekit.command]. *)
Inductive flag :=
| FStr (s : string)
| FBool (b : bool)
| FList (l : list string).

Record invocation := Invocation {
  command : string;
  flags : gmap string flag;
  cwd : string
}.

(** ** Helpers on strings and arrays *)

(** Truthiness of a string. *)
Definition truthy_string (s : string) : bool :=
  match s with
  | EmptyString => false
  | String _ _ => true
  end.

(** [s.split(':')] *)
Fixpoint split_colon (acc : string) (s : string) : list string :=
  match s with
  | EmptyString => [acc]
  | String c rest =>
      if Ascii.eqb c ":"%char then acc :: split_colon EmptyString rest
      else split_colon (acc ++ String c EmptyString) rest
  end.

Definition mem_string (x : string) (l : list string) : bool :=
  existsb (String.eqb x) l.

(** [[...new Set(l)]]: a [Set] keeps the first occurrence of each element, in
    insertion order. *)
Definition set_add (acc : list string) (x : string) : list string :=
  if mem_string x acc then acc else acc ++ [x].

Definition array_from_set (l : list string) : list string :=
  fold_left set_add l [].

(** ** The deploy coalescer *)

Definition dquote : string := String (Ascii.ascii_of_nat 34) EmptyString.

(** The message of the error [deploy] throws on an unknown command. *)
Definition bad_command_message : string :=
  "shopify-deploy.deploy() first argument must be either "
  ++ dquote ++ "upload" ++ dquote ++ ", " ++ dquote ++ "replace" ++ dquote.

Inductive phase :=
| AwaitConfigure   (* suspended at [await promiseThemekitConfig()] *)
| AwaitTransfer.   (* suspended at [await promiseThemekitDeploy(cmd, files)] *)

(** A suspended activation of [deploy(cmd, files)]. *)
Record activation := Activation {
  act_cmd : string;
  act_files : list string;
  act_phase : phase
}.

Record state := State {
  deploying : bool;
  filesToDeploy : list string;
  activations : gmap nat activation;
  invocations : list invocation;
  settled : gmap nat settlement;
  stderr : list js_error;
  next_id : nat;
  exit_code : option Z
}.

Definition init : state :=
  State false [] ∅ [] ∅ [] 0 None.

Definition set_deploying (b : bool) (s : state) : state :=
  State b (filesToDeploy s) (activations s) (invocations s) (settled s)
        (stderr s) (next_id s) (exit_code s).

Definition set_filesToDeploy (l : list string) (s : state) : state :=
  State (deploying s) l (activations s) (invocations s) (settled s)
        (stderr s) (next_id s) (exit_code s).

Definition set_activations (m : gmap nat activation) (s : state) : state :=
  State (deploying s) (filesToDeploy s) m (invocations s) (settled s)
        (stderr s) (next_id s) (exit_code s).

Definition push_invocation (i : invocation) (s : state) : state :=
  State (deploying s) (filesToDeploy s) (activations s) (invocations s ++ [i])
        (settled s) (stderr s) (next_id s) (exit_code s).

Definition set_settled (m : gmap nat settlement) (s : state) : state :=
  State (deploying s) (filesToDeploy s) (activations s) (invocations s) m
        (stderr s) (next_id s) (exit_code s).

Definition console_error (e : js_error) (s : state) : state :=
  State (deploying s) (filesToDeploy s) (activations s) (invocations s)
        (settled s) (stderr s ++ [e]) (next_id s) (exit_code s).

Definition set_next_id (n : nat) (s : state) : state :=
  State (deploying s) (filesToDeploy s) (activations s) (invocations s)
        (settled s) (stderr s) n (exit_code s).

Definition process_exit (c : Z) (s : state) : state :=
  State (deploying s) (filesToDeploy s) (activations s) (invocations s)
        (settled s) (stderr s) (next_id s) (Some c).

(** What a client sees of one transition. *)
Inductive response :=
| Returned (p : promise)   (* an exported function returned this promise *)
| Resumed                  (* a suspended activation ran on *)
| Terminated (code : Z).   (* the process exited *)

Inductive event :=
| Sync (files : list string)       (* [sync(files)] *)
| Replace                          (* [replace()] *)
| Upload                           (* [upload()] *)
| MaybeDeploy                      (* a call of the function a deploy resolved to *)
| Settle (id : nat) (o : outcome). (* the command awaited by [id] settles *)

Section Deploy.

Context {E : Type}.
Variable slateEnv : SlateEnv E.
(** The process environment the accessors read. *)
Variable penv : E.
(** [config.get('paths.theme.dist')] *)
Variable theme_dist : string.

Definition _validateEnvValues : proc unit :=
  if isValid (validate slateEnv penv) then Ret tt else Exit 1.

Definition _generateConfigFlags : proc (gmap string flag) :=
  _ ← _validateEnvValues;
  let flags : gmap string flag :=
    <["env" := FStr (fn_call (getEnvNameValue slateEnv) penv)]>
    (<["store" := FStr (fn_call (getStoreValue slateEnv) penv)]>
    (<["themeid" := FStr (fn_call (getThemeIdValue slateEnv) penv)]>
    (<["password" := FStr (fn_call (getPasswordValue slateEnv) penv)]> ∅))) in
  let flags :=
    if truthy_string (fn_call (getTimeoutValue slateEnv) penv)
    then <["timeout" := FStr (fn_call (getTimeoutValue slateEnv) penv)]> flags
    else flags in
  let flags :=
    if truthy_string (fn_call (getIgnoreFilesValue slateEnv) penv)
    then <["ignoredFiles" :=
             FList (split_colon EmptyString (fn_call (getIgnoreFilesValue slateEnv) penv))]> flags
    else flags in
  Ret flags.

(** [promiseThemekitConfig] up to its [await]: the command it issues. *)
Definition promiseThemekitConfig : proc invocation :=
  configFlags ← _generateConfigFlags;
  Ret (Invocation "configure" configFlags theme_dist).

(** [promiseThemekitDeploy] up to its [await].  [files] is an array, hence
    truthy, so the ["files"] option is always set. *)
Definition promiseThemekitDeploy (cmd : string) (files : list string)
  : proc invocation :=
  configFlags ← _generateConfigFlags;
  let configFlags := <["files" := FList files]> configFlags in
  let configFlags :=
    if String.eqb cmd "upload" then <["noDelete" := FBool true]> configFlags
    else configFlags in
  let configFlags := <["allow-live" := FBool true]> configFlags in
  Ret (Invocation "deploy" configFlags theme_dist).

(** The [catch] clause both wrappers put around their [await]:
    [console.error('My Error', error)], after which the wrapper returns
    normally. *)
Definition catch_and_log (o : outcome) (s : state) : state :=
  match o with
  | Succeeded => s
  | Failed e => console_error e s
  end.

(** [deploy(cmd, files)] up to its first [await]. *)
Definition deploy (cmd : string) (files : list string) (s : state)
  : state * response :=
  if negb (mem_string cmd ["upload"; "replace"]) then
    (s, Returned (Settled (Rejected (Error bad_command_message))))
  else
    let s := set_deploying true s in
    match promiseThemekitConfig with
    | Exit c => (process_exit c s, Terminated c)
    | Ret i =>
        let id := next_id s in
        let s := push_invocation i s in
        let s := set_activations
                   (<[id := Activation cmd files AwaitConfigure]> (activations s)) s in
        (set_next_id (S id) s, Returned (PendingOn id))
    end.

(** The rest of [deploy], run when the awaited command settles. *)
Definition resume (id : nat) (o : outcome) (s : state)
  : option (state * response) :=
  match activations s !! id with
  | None => None
  | Some a =>
      match act_phase a with
      | AwaitConfigure =>
          let s := catch_and_log o s in
          match promiseThemekitDeploy (act_cmd a) (act_files a) with
          | Exit c => Some (process_exit c s, Terminated c)
          | Ret i =>
              let s := push_invocation i s in
              Some (set_activations
                      (<[id := Activation (act_cmd a) (act_files a) AwaitTransfer]>
                         (activations s)) s,
                    Resumed)
          end
      | AwaitTransfer =>
          let s := catch_and_log o s in
          let s := set_deploying false s in
          let s := set_activations (delete id (activations s)) s in
          Some (set_settled (<[id := Fulfilled VMaybeDeploy]> (settled s)) s,
                Resumed)
      end
  end.

Definition maybeDeploy (s : state) : state * response :=
  if deploying s then
    (s, Returned (Settled (Rejected (Error "Deploy already in progress."))))
  else if negb (Nat.eqb (length (filesToDeploy s)) 0) then
    let files := filesToDeploy s in
    deploy "upload" files (set_filesToDeploy [] s)
  else
    (s, Returned (Settled (Fulfilled VUndefined))).

Definition sync (files : list string) (s : state) : state * response :=
  if Nat.eqb (length files) 0 then
    (s, Returned (Settled (Rejected (Error "No files to deploy."))))
  else
    maybeDeploy
      (set_filesToDeploy (array_from_set (filesToDeploy s ++ files)) s).

Definition replace (s : state) : state * response := deploy "replace" [] s.

Definition upload (s : state) : state * response := deploy "upload" [] s.

(** One transition.  Nothing runs once the process has exited, and a
    command can only settle for an activation that awaits it. *)
Definition step (s : state) (e : event) : option (state * response) :=
  match exit_code s with
  | Some _ => None
  | None =>
      match e with
      | Sync files => Some (sync files s)
      | Replace => Some (replace s)
      | Upload => Some (upload s)
      | MaybeDeploy => Some (maybeDeploy s)
      | Settle id o => resume id o s
      end
  end.

Fixpoint run (s : state) (es : list event) : option state :=
  match es with
  | [] => Some s
  | e :: es' =>
      match step s e with
      | Some (s', _) => run s' es'
      | None => None
      end
  end.

(** What the transitions of [es] answered, in order. *)
Fixpoint replies (s : state) (es : list event) : list response :=
  match es with
  | [] => []
  | e :: es' =>
      match step s e with
      | Some (s', r) => r :: replies s' es'
      | None => []
      end
  end.

(** The events [es] take [s] to [s'] and are answered by [rs]. *)
Definition exec (s : state) (es : list event) (s' : state)
  (rs : list response) : Prop :=
  run s es = Some s' /\ replies s es = rs.

End Deploy.

(** ** The theme-id resolver *)

(** A value produced by [JSON.parse]. *)
Inductive json :=
| JNull
| JBool (b : bool)
| JNumber (x : float)
| JString (s : string)
| JArray (items : list json)
| JObject (fields : list (string * json)).

(** A JavaScript value on this side: a parsed value or [undefined]. *)
Definition jsval := option json.

(** The four properties the callback reads.  None of them is a member of a
    built-in prototype, so reading one from a number, a string, a boolean or
    an array gives [undefined]. *)
Inductive prop := p_errors | p_themes | p_role | p_id.

Definition prop_name (p : prop) : string :=
  match p with
  | p_errors => "errors"
  | p_themes => "themes"
  | p_role => "role"
  | p_id => "id"
  end.

Inductive js_exception :=
| SyntaxError   (* thrown by [JSON.parse] *)
| TypeError.    (* a property read from [null] or [undefined] *)

Inductive js_result (A : Type) :=
| Ok (a : A)
| Throw (e : js_exception).
Arguments Ok {A} _.
Arguments Throw {A} _.

#[global] Instance js_result_ret : MRet js_result := fun A a => Ok a.

#[global] Instance js_result_bind : MBind js_result := fun A B k m =>
  match m with
  | Ok a => k a
  | Throw e => Throw e
  end.

(** The own property [k] of an object built by [JSON.parse]; such an object
    holds each key once. *)
Fixpoint own_property (k : string) (fields : list (string * json)) : jsval :=
  match fields with
  | [] => None
  | (k', v) :: rest => if String.eqb k k' then Some v else own_property k rest
  end.

(** [v.p] *)
Definition get (v : jsval) (p : prop) : js_result jsval :=
  match v with
  | None => Throw TypeError
  | Some JNull => Throw TypeError
  | Some (JObject fields) => Ok (own_property (prop_name p) fields)
  | Some _ => Ok None
  end.

(** Truthiness: [undefined], [null], [false], zeros, [NaN] and the empty
    string are falsy; arrays and objects are truthy. *)
Definition truthy (v : jsval) : bool :=
  match v with
  | None => false
  | Some JNull => false
  | Some (JBool b) => b
  | Some (JNumber x) => negb (PrimFloat.eqb x 0%float || negb (PrimFloat.eqb x x))
  | Some (JString s) => truthy_string s
  | Some (JArray _) => true
  | Some (JObject _) => true
  end.

(** [v === 'main'] *)
Definition is_main (v : jsval) : bool :=
  match v with
  | Some (JString s) => String.eqb s "main"
  | _ => false
  end.

(** [themes.find((t) => t.role === 'main')] *)
Fixpoint find_main (themes : list json) : js_result jsval :=
  match themes with
  | [] => Ok None
  | t :: rest =>
      role ← get (Some t) p_role;
      if is_main role then Ok (Some t) else find_main rest
  end.

(** What the callback does to the promise. *)
Inductive verdict :=
| Resolve (v : jsval)
| Reject (e : js_error).

Inductive fetch_promise :=
| StillPending
| ResolvedWith (v : jsval)
| RejectedWith (e : js_error).

Record request := Request {
  hostname : string;
  path : string;
  auth : string;
  agent : bool;
  headers : gmap string string
}.

(** One call of [fetchMainThemeId] followed by one response that is
    delivered to its end, so that the [end] listener runs: the request
    sent, the final state of the returned promise, and the exception that
    left the [end] callback uncaught, if any. *)
Record fetch_run := FetchRun {
  sent : request;
  result : fetch_promise;
  uncaught : option js_exception
}.

Definition newline : string := String (Ascii.ascii_of_nat 10) EmptyString.

Section Fetch.

Context {E : Type}.
Variable slateEnv : SlateEnv E.
Variable penv : E.
(** [JSON.parse]; [None] stands for the [SyntaxError] it throws. *)
Variable JSON_parse : string -> option json.
(** [JSON.stringify(v, null, '\t')] *)
Variable JSON_stringify : json -> string.

Definition parse (body : string) : js_result json :=
  match JSON_parse body with
  | Some v => Ok v
  | None => Throw SyntaxError
  end.

(** [JSON.stringify] of a value that may be [undefined] inside a template
    literal. *)
Definition stringify (v : jsval) : string :=
  match v with
  | Some j => JSON_stringify j
  | None => "undefined"
  end.

(** The options object passed to [https.get].  The [auth] field
    interpolates the accessor [slateEnv.getPasswordValue] itself, the
    header calls it. *)
Definition lookup_request : request :=
  Request (fn_call (getStoreValue slateEnv) penv)
          "/admin/themes.json"
          (":" ++ fn_text (getPasswordValue slateEnv))
          false
          (<["X-Shopify-Access-Token" :=
               fn_call (getPasswordValue slateEnv) penv]> ∅).

(** The [data] listener, [body += datum], over the chunks of a response.
    A chunk stands for the string that [+=] appends for it, which is the
    text that chunk converts to on its own. *)
Definition buffer (chunks : list string) : string :=
  fold_left (fun body datum => body ++ datum) chunks EmptyString.

(** The [end] listener after [const parsed = JSON.parse(body)]. *)
Definition respond (parsed : json) : js_result verdict :=
  errors ← get (Some parsed) p_errors;
  if truthy errors then
    Ok (Reject (Error ("API request to fetch main theme ID failed: "
                       ++ newline ++ stringify errors)))
  else
    themes ← get (Some parsed) p_themes;
    match themes with
    | Some (JArray items) =>
        mainTheme ← find_main items;
        if negb (truthy mainTheme) then
          Ok (Reject (Error ("No main theme in response. " ++ stringify themes)))
        else
          id ← get mainTheme p_id;
          Ok (Resolve id)
    | _ =>
        Ok (Reject (Error
              ("Shopify response for /admin/themes.json is not an array. "
               ++ stringify (Some parsed))))
    end.

(** The [end] listener.  Nothing around it catches what it throws. *)
Definition on_end (body : string) : js_result verdict :=
  parsed ← parse body;
  respond parsed.

Definition settle_fetch (r : js_result verdict) : fetch_promise * option js_exception :=
  match r with
  | Ok (Resolve v) => (ResolvedWith v, None)
  | Ok (Reject e) => (RejectedWith e, None)
  | Throw e => (StillPending, Some e)
  end.

Definition fetchMainThemeId (chunks : list string) : proc fetch_run :=
  _ ← _validateEnvValues slateEnv penv;
  let '(p, u) := settle_fetch (on_end (buffer chunks)) in
  Ret (FetchRun lookup_request p u).

End Fetch.

(** ** A sample environment

    An instance of the external parts, for the examples below: the process
    environment is a table of variables, the accessors read one variable
    each and give the empty string when it is unset. *)

Definition read_var (name : string) (text : string)
  : js_fun (gmap string string) string :=
  JsFun text (fun env => default EmptyString (env !! name)).

Definition sample_validate (env : gmap string string) : validation :=
  let missing :=
    filter (fun name => env !! name = None)
           ["SLATE_STORE"; "SLATE_PASSWORD"; "SLATE_THEME_ID"] in
  Validation (bool_decide (missing = [])) (map (fun n => n ++ " must not be empty") missing).

Definition sample_slateEnv : SlateEnv (gmap string string) := {|
  validate := sample_validate;
  getEnvNameValue := read_var "SLATE_ENV" "function getEnvNameValue() { ... }";
  getStoreValue := read_var "SLATE_STORE" "function getStoreValue() { ... }";
  getPasswordValue := read_var "SLATE_PASSWORD" "function getPasswordValue() { ... }";
  getThemeIdValue := read_var "SLATE_THEME_ID" "function getThemeIdValue() { ... }";
  getTimeoutValue := read_var "SLATE_TIMEOUT" "function getTimeoutValue() { ... }";
  getIgnoreFilesValue := read_var "SLATE_IGNORE_FILES" "function getIgnoreFilesValue() { ... }"
|}.

Definition sample_penv : gmap string string :=
  <["SLATE_STORE" := "shop.myshopify.com"]>
  (<["SLATE_PASSWORD" := "0123456789abcdef"]>
  (<["SLATE_THEME_ID" := "42"]>
  (<["SLATE_ENV" := "development"]>
  (<["SLATE_IGNORE_FILES" := "config/settings_data.json:locales/*"]> ∅)))).

Definition sample_dist : string := "dist".

(** [starts_with p s]: the string [s] begins with [p]. *)
Fixpoint starts_with (p s : string) : bool :=
  match p, s with
  | EmptyString, _ => true
  | String a p', String b s' => Ascii.eqb a b && starts_with p' s'
  | String _ _, EmptyString => false
  end.

(** [occurs_in needle hay]: the characters of [needle] occur in [hay], in a
    row. *)
Fixpoint occurs_in (needle hay : string) : bool :=
  starts_with needle hay
  || match hay with
     | EmptyString => false
     | String _ rest => occurs_in needle rest
     end.

(** The sample environment with a password that is a word of the source
    text of the accessor, whose declaration begins with [function]. *)
Definition keyword_penv : gmap string string :=
  <["SLATE_PASSWORD" := "function"]> sample_penv.

(** [JSON.parse] known on finitely many bodies, a [SyntaxError] elsewhere. *)
Definition parse_table (table : list (string * json)) (body : string)
  : option json :=
  own_property body table.

Definition sample_step := step sample_slateEnv sample_penv sample_dist.
Definition sample_run := run sample_slateEnv sample_penv sample_dist.

(** The state the sample system is in after the events [es]. *)
Definition sample_after (es : list event) : state :=
  default init (sample_run init es).

(** The transfer commands issued so far, by the file list each carries. *)
Definition transfers (s : state) : list (option flag) :=
  map (fun i => flags i !! "files")
      (List.filter (fun i => String.eqb (command i) "deploy") (invocations s)).

Definition sample_exec := exec sample_slateEnv sample_penv sample_dist.

(** Exactly one transfer command was issued, and its file list is [files]
    as a set, without duplicates. *)
Definition one_transfer_carrying (files : list string) (s : state) : Prop :=
  exists l,
    transfers s = [Some (FList l)] /\ NoDup l /\ (forall f, In f l <-> In f files).

(** The state [deploy] leaves behind when it reaches its first [await]. *)
Definition started (cmd : string) (files : list string) (i : invocation)
  (s : state) : state :=
  State true (filesToDeploy s)
        (<[next_id s := Activation cmd files AwaitConfigure]> (activations s))
        (invocations s ++ [i]) (settled s) (stderr s) (S (next_id s))
        (exit_code s).

(** The activation [id] does not resume during [e]. *)
Definition leaves_alone (id : nat) (e : event) : bool :=
  match e with
  | Settle id' _ => negb (Nat.eqb id id')
  | _ => true
  end.

(** Events of the queue: [sync], a call of [maybeDeploy], and the commands
    settling; [replace] and [upload] are left out. *)
Definition queue_event (e : event) : bool :=
  match e with
  | Replace | Upload => false
  | _ => true
  end.

(** Events that are not a request to flush the queue. *)
Definition no_flush_request (e : event) : bool :=
  match e with
  | Sync _ | MaybeDeploy => false
  | _ => true
  end.

Definition in_progress : response :=
  Returned (Settled (Rejected (Error "Deploy already in progress."))).


(** A request to deploy the whole theme: [replace] or [upload]. *)
Definition forced_request (e : event) : bool :=
  match e with
  | Replace | Upload => true
  | _ => false
  end.


(** ** Vocabulary of the claims about the resolver *)

(** The field [p] of a parsed value: [undefined] when the value is not an
    object or has no such field. *)
Definition field (v : json) (p : prop) : jsval :=
  match v with
  | JObject fields => own_property (prop_name p) fields
  | _ => None
  end.

(** The element is an object whose [role] is the string "main". *)
Definition has_main_role (t : json) : bool := is_main (field t p_role).

Definition is_null (t : json) : bool :=
  match t with
  | JNull => true
  | _ => false
  end.

Definition is_array (v : jsval) : bool :=
  match v with
  | Some (JArray _) => true
  | _ => false
  end.

(** The three errors of the resolver, by the message the code gives them. *)
Definition ApiError (payload : string) : js_error :=
  Error ("API request to fetch main theme ID failed: " ++ newline ++ payload).

Definition MalformedResponseError (response : string) : js_error :=
  Error ("Shopify response for /admin/themes.json is not an array. " ++ response).

Definition NoMainThemeError (themes : string) : js_error :=
  Error ("No main theme in response. " ++ themes).

(** ** Sample responses *)

Definition quoted (s : string) : string := dquote ++ s ++ dquote.

(** [{"themes":[{"id":1,"role":"unpublished"},{"id":2,"role":"main"}]}] *)
Definition two_themes_body : string :=
  "{" ++ quoted "themes" ++ ":[{" ++ quoted "id" ++ ":1," ++ quoted "role" ++ ":"
  ++ quoted "unpublished" ++ "},{" ++ quoted "id" ++ ":2," ++ quoted "role" ++ ":"
  ++ quoted "main" ++ "}]}".

Definition two_themes : json :=
  JObject [("themes",
            JArray [JObject [("id", JNumber 1%float); ("role", JString "unpublished")];
                    JObject [("id", JNumber 2%float); ("role", JString "main")]])].

(** [{"errors":"invalid token","themes":[{"id":2,"role":"main"}]}] *)
Definition errors_and_main : json :=
  JObject [("errors", JString "invalid token");
           ("themes", JArray [JObject [("id", JNumber 2%float);
                                       ("role", JString "main")]])].

(** [{"themes":[null,{"id":2,"role":"main"}]}] *)
Definition null_before_main : json :=
  JObject [("themes", JArray [JNull;
                              JObject [("id", JNumber 2%float);
                                       ("role", JString "main")]])].

(** [{"errors":null,"themes":[{"id":2,"role":"main"}]}] *)
Definition null_errors : json :=
  JObject [("errors", JNull);
           ("themes", JArray [JObject [("id", JNumber 2%float);
                                       ("role", JString "main")]])].

(** [{"themes":[null]}] *)
Definition only_null_theme : json :=
  JObject [("themes", JArray [JNull])].

(** [{"themes":"not-an-array"}] *)
Definition themes_not_array : json :=
  JObject [("themes", JString "not-an-array")].

(** A stand-in for [JSON.stringify] in the examples; no example depends on
    the text it gives to arrays, objects and numbers. *)
Definition sample_stringify (v : json) : string :=
  match v with
  | JNull => "null"
  | JBool true => "true"
  | JBool false => "false"
  | JNumber _ => "0"
  | JString s => quoted s
  | JArray _ => "[...]"
  | JObject _ => "{...}"
  end.

Definition main_theme_text : string :=
  "{" ++ quoted "id" ++ ":2," ++ quoted "role" ++ ":" ++ quoted "main" ++ "}".

Definition errors_and_main_body : string :=
  "{" ++ quoted "errors" ++ ":" ++ quoted "invalid token" ++ ","
  ++ quoted "themes" ++ ":[" ++ main_theme_text ++ "]}".

Definition null_before_main_body : string :=
  "{" ++ quoted "themes" ++ ":[null," ++ main_theme_text ++ "]}".

Definition null_errors_body : string :=
  "{" ++ quoted "errors" ++ ":null," ++ quoted "themes" ++ ":["
  ++ main_theme_text ++ "]}".

Definition only_null_theme_body : string :=
  "{" ++ quoted "themes" ++ ":[null]}".

Definition themes_not_array_body : string :=
  "{" ++ quoted "themes" ++ ":" ++ quoted "not-an-array" ++ "}".

(** [{"errors":"invalid token"}] *)
Definition invalid_token : json := JObject [("errors", JString "invalid token")].

Definition invalid_token_body : string :=
  "{" ++ quoted "errors" ++ ":" ++ quoted "invalid token" ++ "}".

(** [{"themes":[{"id":1,"role":"unpublished"}]}] *)
Definition one_unpublished : json :=
  JObject [("themes",
            JArray [JObject [("id", JNumber 1%float);
                             ("role", JString "unpublished")]])].

Definition one_unpublished_body : string :=
  "{" ++ quoted "themes" ++ ":[{" ++ quoted "id" ++ ":1," ++ quoted "role" ++ ":"
  ++ quoted "unpublished" ++ "}]}".

(** [JSON.parse] on the bodies of the examples. *)
Definition sample_parse : string -> option json :=
  parse_table [(two_themes_body, two_themes);
               (errors_and_main_body, errors_and_main);
               (null_before_main_body, null_before_main);
               (null_errors_body, null_errors);
               (only_null_theme_body, only_null_theme);
               (themes_not_array_body, themes_not_array);
               (invalid_token_body, invalid_token);
               (one_unpublished_body, one_unpublished);
               ("null", JNull)].

Definition sample_fetch (chunks : list string) : proc fetch_run :=
  fetchMainThemeId sample_slateEnv sample_penv sample_parse sample_stringify chunks.

(** ** Vocabulary of the further properties *)

(** The string has a colon in it. *)
Fixpoint has_colon (s : string) : bool :=
  match s with
  | EmptyString => false
  | String c rest => Ascii.eqb c ":"%char || has_colon rest
  end.

(** [pieces.join(':')] *)
Fixpoint join_colon (pieces : list string) : string :=
  match pieces with
  | [] => EmptyString
  | [p] => p
  | p :: rest => p ++ ":" ++ join_colon rest
  end.

(** The elements of [l] that [acc] does not hold yet, each once, in the
    order of their first occurrence. *)
Fixpoint fresh_in (acc l : list string) : list string :=
  match l with
  | [] => []
  | x :: rest =>
      if mem_string x acc then fresh_in acc rest
      else x :: fresh_in (acc ++ [x]) rest
  end.

(** ** The transitions, case by case *)

Section Transitions.

Context {E : Type}.
Variable slateEnv : SlateEnv E.
Variable penv : E.
Variable theme_dist : string.

(** [deploy(cmd, files)] with a known command: the configure command is
    issued and the activation suspends, or the validation of the
    environment ends the process. *)
Inductive launched (cmd : string) (files : list string) (s : state)
  : state -> response -> Prop :=
| launched_started i :
    promiseThemekitConfig slateEnv penv theme_dist = Ret i ->
    launched cmd files s (started cmd files i s)
             (Returned (PendingOn (next_id s)))
| launched_exit c :
    promiseThemekitConfig slateEnv penv theme_dist = Exit c ->
    launched cmd files s (process_exit c (set_deploying true s)) (Terminated c).

Inductive transition (s : state) : event -> state -> response -> Prop :=
| sync_nothing :
    transition s (Sync []) s
      (Returned (Settled (Rejected (Error "No files to deploy."))))
| sync_busy files :
    files <> [] -> deploying s = true ->
    transition s (Sync files)
      (set_filesToDeploy (array_from_set (filesToDeploy s ++ files)) s)
      in_progress
| sync_idle files s' r :
    files <> [] -> deploying s = false ->
    launched "upload" (array_from_set (filesToDeploy s ++ files))
      (set_filesToDeploy []
         (set_filesToDeploy (array_from_set (filesToDeploy s ++ files)) s))
      s' r ->
    transition s (Sync files) s' r
| maybe_busy :
    deploying s = true -> transition s MaybeDeploy s in_progress
| maybe_nothing :
    deploying s = false -> filesToDeploy s = [] ->
    transition s MaybeDeploy s (Returned (Settled (Fulfilled VUndefined)))
| maybe_idle s' r :
    deploying s = false -> filesToDeploy s <> [] ->
    launched "upload" (filesToDeploy s) (set_filesToDeploy [] s) s' r ->
    transition s MaybeDeploy s' r
| forced_replace s' r :
    launched "replace" [] s s' r -> transition s Replace s' r
| forced_upload s' r :
    launched "upload" [] s s' r -> transition s Upload s' r
| configure_settled id a o i :
    activations s !! id = Some a -> act_phase a = AwaitConfigure ->
    promiseThemekitDeploy slateEnv penv theme_dist (act_cmd a) (act_files a)
    = Ret i ->
    transition s (Settle id o)
      (set_activations
         (<[id := Activation (act_cmd a) (act_files a) AwaitTransfer]>
            (activations s))
         (push_invocation i (catch_and_log o s)))
      Resumed
| configure_settled_exit id a o c :
    activations s !! id = Some a -> act_phase a = AwaitConfigure ->
    promiseThemekitDeploy slateEnv penv theme_dist (act_cmd a) (act_files a)
    = Exit c ->
    transition s (Settle id o) (process_exit c (catch_and_log o s))
      (Terminated c)
| transfer_settled id a o :
    activations s !! id = Some a -> act_phase a = AwaitTransfer ->
    transition s (Settle id o)
      (set_settled (<[id := Fulfilled VMaybeDeploy]> (settled s))
         (set_activations (delete id (activations s))
            (set_deploying false (catch_and_log o s))))
      Resumed.

End Transitions.

(** The errors of the commands that failed, in the order of the events. *)
Fixpoint failures (es : list event) : list js_error :=
  match es with
  | [] => []
  | Settle _ (Failed e) :: es' => e :: failures es'
  | _ :: es' => failures es'
  end.

(** The files handed to [sync] by the events. *)
Fixpoint submitted (es : list event) : list string :=
  match es with
  | [] => []
  | Sync files :: es' => files ++ submitted es'
  | _ :: es' => submitted es'
  end.

Definition any_event (e : event) : bool := true.

Definition no_replace (e : event) : bool :=
  match e with
  | Replace => false
  | _ => true
  end.

(** ** An invalid sample environment *)

(** The sample environment without its password. *)
Definition broken_penv : gmap string string :=
  delete "SLATE_PASSWORD" sample_penv.

(** ** Invariants of the deploy coalescer *)

(** The configure commands issued so far. *)
Definition configures (s : state) : list invocation :=
  List.filter (fun i => String.eqb (command i) "configure") (invocations s).

(** The identifiers below [next_id] are those of the deploys started so
    far.  Each is in flight or completed, not both; a completed one was
    fulfilled with [maybeDeploy]; each was started with one configure
    command. *)
Definition bookkeeping (s : state) : Prop :=
  (forall id, is_Some (activations s !! id) -> id < next_id s)
  /\ (forall id, is_Some (settled s !! id) ->
                 id < next_id s /\ activations s !! id = None)
  /\ (forall id r, settled s !! id = Some r -> r = Fulfilled VMaybeDeploy)
  /\ next_id s = size (activations s) + size (settled s)
  /\ next_id s = length (configures s).

(** No array of files holds a file twice: not the queue, not the files of
    a deploy in flight, not the file list of a transfer command. *)
Definition duplicate_free (s : state) : Prop :=
  NoDup (filesToDeploy s)
  /\ (forall id a, activations s !! id = Some a -> NoDup (act_files a))
  /\ (forall l, Some (FList l) ∈ transfers s -> NoDup l).

(** The file is pending, or among the files of a deploy in flight, or in
    the file list of a transfer command that was issued. *)
Definition carried (s : state) (f : string) : Prop :=
  f ∈ filesToDeploy s
  \/ (exists id a, activations s !! id = Some a /\ f ∈ act_files a)
  \/ (exists l, Some (FList l) ∈ transfers s /\ f ∈ l).

(** The transfer command of every deploy that awaits it has been issued
    with the files of that deploy. *)
Definition recorded (s : state) : Prop :=
  forall id a,
    activations s !! id = Some a -> act_phase a = AwaitTransfer ->
    Some (FList (act_files a)) ∈ transfers s.

(** [deploying] tells whether a deploy is in flight, and there is at most
    one. *)
Definition flag_exact (s : state) : Prop :=
  (deploying s = true -> exists id a, activations s = {[id := a]})
  /\ (deploying s = false -> activations s = ∅).

#[global] Instance phase_eq_dec : EqDecision phase.
Proof. solve_decision. Defined.

(** The deploys in flight whose configure command has not settled. *)
Definition awaiting_configure (s : state) : gmap nat activation :=
  filter (fun ka => act_phase ka.2 = AwaitConfigure) (activations s).

(** A response that is an array: [[1,2]]. *)
Definition array_body : string := "[1,2]".

Definition array_response : json := JArray [JNumber 1%float; JNumber 2%float].

Definition array_parse : string -> option json :=
  parse_table [(array_body, array_response)].

(** A run of the sample system that uses everything: a deploy from the
    queue, files arriving while it is in flight, an [upload] on top of it,
    a command that fails, and a [sync] after the first deploy has
    completed. *)
Definition sample_trace : list event :=
  [Sync ["a.liquid"]; Sync ["b.liquid"; "a.liquid"]; Upload;
   Settle 0 Succeeded; Settle 1 (Failed (Error "configure failed"));
   Settle 0 Succeeded; Sync ["c.liquid"]].

(** A run of the sample system through the queue alone. *)
Definition queue_trace : list event :=
  [Sync ["a.liquid"]; Sync ["b.liquid"]; Settle 0 Succeeded].

(** * Properties of the deploy coalescer *)

Section DeployFacts.

Context {E : Type}.
Variable slateEnv : SlateEnv E.
Variable penv : E.
Variable theme_dist : string.

Local Abbreviation step' := (step slateEnv penv theme_dist).
Local Abbreviation run' := (run slateEnv penv theme_dist).
Local Abbreviation deploy' := (deploy slateEnv penv theme_dist).
Local Abbreviation maybeDeploy' := (maybeDeploy slateEnv penv theme_dist).
Local Abbreviation resume' := (resume slateEnv penv theme_dist).

Lemma deploy_cases cmd files s s' r :
  deploy' cmd files s = (s', r) ->
  (s' = s /\ r = Returned (Settled (Rejected (Error bad_command_message))))
  \/ (exists c, s' = process_exit c (set_deploying true s) /\ r = Terminated c
                /\ promiseThemekitConfig slateEnv penv theme_dist = Exit c)
  \/ (exists i, s' = started cmd files i s /\ r = Returned (PendingOn (next_id s))
                /\ promiseThemekitConfig slateEnv penv theme_dist = Ret i).
Proof.
  unfold deploy. destruct (negb (mem_string cmd _)).
  - intros [= <- <-]. left. split; reflexivity.
  - destruct (promiseThemekitConfig slateEnv penv theme_dist) as [i | c] eqn:Hc.
    + intros [= <- <-]. right. right. exists i. repeat split.
    + intros [= <- <-]. right. left. exists c. repeat split.
Qed.

Lemma maybeDeploy_cases s s' r :
  maybeDeploy' s = (s', r) ->
  (deploying s = true /\ s' = s /\ r = in_progress)
  \/ (deploying s = false /\ filesToDeploy s = [] /\ s' = s
      /\ r = Returned (Settled (Fulfilled VUndefined)))
  \/ (deploying s = false /\ filesToDeploy s <> []
      /\ deploy' "upload" (filesToDeploy s) (set_filesToDeploy [] s) = (s', r)).
Proof.
  unfold maybeDeploy. destruct (deploying s) eqn:Hd.
  - intros [= <- <-]. left. repeat split.
  - destruct (filesToDeploy s) as [| f fs] eqn:Hf; simpl.
    + intros [= <- <-]. right. left. repeat split.
    + intros H. right. right. repeat split; [discriminate | exact H].
Qed.

(** Every call that returns a pending promise has just suspended a fresh
    activation at its first [await]. *)
Lemma pending_is_fresh_activation s e s0 id :
  step' s e = Some (s0, Returned (PendingOn id)) ->
  exists cmd files,
    activations s0 !! id = Some (Activation cmd files AwaitConfigure)
    /\ id < next_id s0 /\ exit_code s0 = None.
Proof.
  unfold step. destruct (exit_code s) eqn:Hx; [discriminate |].
  assert (Hdep : forall cmd files s1,
             exit_code s1 = None ->
             deploy' cmd files s1 = (s0, Returned (PendingOn id)) ->
             exists cmd files,
               activations s0 !! id = Some (Activation cmd files AwaitConfigure)
               /\ id < next_id s0 /\ exit_code s0 = None).
  { intros cmd files s1 Hx1 H.
    apply deploy_cases in H as [[_ H] | [(c & _ & H & _) | (i & -> & H & _)]];
      try discriminate.
    injection H as H. subst id. exists cmd, files. simpl.
    rewrite lookup_insert_eq. repeat split; [lia | exact Hx1]. }
  assert (Hmay : forall s1,
             exit_code s1 = None ->
             maybeDeploy' s1 = (s0, Returned (PendingOn id)) ->
             exists cmd files,
               activations s0 !! id = Some (Activation cmd files AwaitConfigure)
               /\ id < next_id s0 /\ exit_code s0 = None).
  { intros s1 Hx1 H.
    apply maybeDeploy_cases in H
      as [(_ & _ & H) | [(_ & _ & _ & H) | (_ & _ & H)]]; try discriminate.
    eapply Hdep; [| exact H]. exact Hx1. }
  destruct e as [files | | | | id' o]; intros H.
  - injection H as H. unfold sync in H.
    destruct (Nat.eqb (length files) 0); [discriminate |].
    eapply Hmay; [| exact H]. exact Hx.
  - injection H as H. eapply Hdep; [| exact H]. exact Hx.
  - injection H as H. eapply Hdep; [| exact H]. exact Hx.
  - injection H as H. eapply Hmay; [| exact H]. exact Hx.
  - unfold resume in H. destruct (activations s !! id'); [| discriminate].
    destruct (act_phase a).
    + destruct (promiseThemekitDeploy _ _ _ _ _); discriminate.
    + discriminate.
Qed.

(** A transition that does not resume [id] leaves its activation as it
    is, and allocates identifiers above it. *)
Lemma step_leaves_alone s e s' r id a :
  step' s e = Some (s', r) ->
  leaves_alone id e = true ->
  activations s !! id = Some a -> id < next_id s ->
  activations s' !! id = Some a /\ id < next_id s'.
Proof.
  unfold step. destruct (exit_code s); [discriminate |].
  intros H Hq Ha Hlt.
  assert (Hdep : forall cmd files s1 s2 r2,
             activations s1 !! id = Some a -> id < next_id s1 ->
             deploy' cmd files s1 = (s2, r2) ->
             activations s2 !! id = Some a /\ id < next_id s2).
  { intros cmd files s1 s2 r2 Ha1 Hlt1 Hd.
    apply deploy_cases in Hd as [[-> _] | [(c & -> & _) | (i & -> & _)]];
      simpl; auto.
    rewrite lookup_insert_ne by lia. split; [exact Ha1 | lia]. }
  assert (Hmay : forall s1 s2 r2,
             activations s1 !! id = Some a -> id < next_id s1 ->
             maybeDeploy' s1 = (s2, r2) ->
             activations s2 !! id = Some a /\ id < next_id s2).
  { intros s1 s2 r2 Ha1 Hlt1 Hm.
    apply maybeDeploy_cases in Hm
      as [(_ & -> & _) | [(_ & _ & -> & _) | (_ & _ & Hm)]]; auto.
    eapply Hdep; [| | exact Hm]; simpl; assumption. }
  destruct e as [files | | | | id' o].
  - injection H as H. unfold sync in H.
    destruct (Nat.eqb (length files) 0).
    + injection H as <- <-. auto.
    + eapply Hmay; [| | exact H]; simpl; assumption.
  - injection H as H. eapply Hdep; [| | exact H]; assumption.
  - injection H as H. eapply Hdep; [| | exact H]; assumption.
  - injection H as H. eapply Hmay; [| | exact H]; assumption.
  - simpl in Hq. apply negb_true_iff, Nat.eqb_neq in Hq.
    unfold resume in H. destruct (activations s !! id') as [a' |]; [| discriminate].
    destruct (act_phase a').
    + destruct (promiseThemekitDeploy _ _ _ _ _) as [i | c];
        injection H as <- <-; destruct o; simpl; auto.
      all: rewrite lookup_insert_ne by congruence; auto.
    + injection H as <- <-. destruct o; simpl.
      all: rewrite lookup_delete_ne by congruence; auto.
Qed.

Lemma run_leaves_alone es : forall s s' id a,
  run' s es = Some s' ->
  forallb (leaves_alone id) es = true ->
  activations s !! id = Some a -> id < next_id s ->
  activations s' !! id = Some a /\ id < next_id s'.
Proof.
  induction es as [| e es IH]; intros s s' id a Hrun Hq Ha Hlt.
  - injection Hrun as <-. auto.
  - simpl in Hrun, Hq. apply andb_true_iff in Hq as [Hq1 Hq2].
    destruct (step' s e) as [[s1 r] |] eqn:Hs; [| discriminate].
    destruct (step_leaves_alone _ _ _ _ _ _ Hs Hq1 Ha Hlt) as [Ha1 Hlt1].
    eapply IH; eauto.
Qed.

End DeployFacts.

Section DeployValid.

Context {E : Type}.
Variable slateEnv : SlateEnv E.
Variable penv : E.
Variable theme_dist : string.
Hypothesis env_valid : isValid (validate slateEnv penv) = true.

Local Abbreviation step' := (step slateEnv penv theme_dist).
Local Abbreviation run' := (run slateEnv penv theme_dist).

Lemma valid_flags : exists f, _generateConfigFlags slateEnv penv = Ret f.
Proof.
  unfold _generateConfigFlags, _validateEnvValues. rewrite env_valid.
  eexists. reflexivity.
Qed.

Lemma valid_configure :
  exists i, promiseThemekitConfig slateEnv penv theme_dist = Ret i
            /\ command i = "configure".
Proof.
  destruct valid_flags as [f Hf]. unfold promiseThemekitConfig. rewrite Hf.
  eexists. split; reflexivity.
Qed.

Lemma valid_transfer cmd files :
  exists i, promiseThemekitDeploy slateEnv penv theme_dist cmd files = Ret i
            /\ command i = "deploy"
            /\ flags i !! "files" = Some (FList files)
            /\ flags i !! "allow-live" = Some (FBool true).
Proof.
  destruct valid_flags as [f Hf]. unfold promiseThemekitDeploy. rewrite Hf.
  eexists. split; [reflexivity |]. split; [reflexivity |]. simpl. split.
  - rewrite lookup_insert_ne by discriminate.
    destruct (String.eqb cmd "upload").
    + rewrite lookup_insert_ne by discriminate. apply lookup_insert_eq.
    + apply lookup_insert_eq.
  - apply lookup_insert_eq.
Qed.

(** With a valid environment no transition ends the process. *)
Lemma step_keeps_running s e s' r :
  step' s e = Some (s', r) -> exit_code s' = None.
Proof.
  unfold step. destruct (exit_code s) eqn:Hx; [discriminate |].
  destruct valid_configure as (ic & Hic & _).
  assert (Hdep : forall cmd files s1 s2 r2,
             exit_code s1 = None ->
             deploy slateEnv penv theme_dist cmd files s1 = (s2, r2) ->
             exit_code s2 = None).
  { intros cmd files s1 s2 r2 Hx1 Hd.
    apply deploy_cases in Hd as [[-> _] | [(c & _ & _ & Hc) | (i & -> & _)]];
      [exact Hx1 | congruence | exact Hx1]. }
  assert (Hmay : forall s1 s2 r2,
             exit_code s1 = None ->
             maybeDeploy slateEnv penv theme_dist s1 = (s2, r2) ->
             exit_code s2 = None).
  { intros s1 s2 r2 Hx1 Hm.
    apply maybeDeploy_cases in Hm
      as [(_ & -> & _) | [(_ & _ & -> & _) | (_ & _ & Hm)]]; auto.
    eapply Hdep; [| exact Hm]. exact Hx1. }
  destruct e as [files | | | | id o]; intros H.
  - injection H as H. unfold sync in H.
    destruct (Nat.eqb (length files) 0).
    + injection H as <- <-. exact Hx.
    + eapply Hmay; [| exact H]. exact Hx.
  - injection H as H. eapply Hdep; [| exact H]. exact Hx.
  - injection H as H. eapply Hdep; [| exact H]. exact Hx.
  - injection H as H. eapply Hmay; [| exact H]. exact Hx.
  - unfold resume in H. destruct (activations s !! id) as [a |]; [| discriminate].
    destruct (act_phase a).
    + destruct (valid_transfer (act_cmd a) (act_files a)) as (i & Hi & _).
      rewrite Hi in H. injection H as <- <-. destruct o; exact Hx.
    + injection H as <- <-. destruct o; exact Hx.
Qed.

Lemma run_keeps_running es : forall s s',
  exit_code s = None -> run' s es = Some s' -> exit_code s' = None.
Proof.
  induction es as [| e es IH]; intros s s' Hx Hrun.
  - injection Hrun as <-. exact Hx.
  - simpl in Hrun. destruct (step' s e) as [[s1 r] |] eqn:Hs; [| discriminate].
    eapply IH; [| exact Hrun]. eapply step_keeps_running. exact Hs.
Qed.

(** The configure command settles, either way: the activation issues the
    transfer command and suspends on it. *)
Lemma resume_configure s id a o :
  exit_code s = None ->
  activations s !! id = Some a -> act_phase a = AwaitConfigure ->
  exists i,
    step' s (Settle id o)
    = Some (set_activations
              (<[id := Activation (act_cmd a) (act_files a) AwaitTransfer]>
                 (activations s))
              (push_invocation i (catch_and_log o s)), Resumed)
    /\ command i = "deploy"
    /\ flags i !! "files" = Some (FList (act_files a)).
Proof.
  intros Hx Ha Hp. unfold step, resume. rewrite Hx, Ha, Hp.
  destruct (valid_transfer (act_cmd a) (act_files a)) as (i & Hi & Hc & Hf & _).
  rewrite Hi. exists i. split; [| split; assumption].
  destruct o; reflexivity.
Qed.

End DeployValid.

(** The transfer command settles, either way: the activation clears the
    flag and fulfils its promise with [maybeDeploy]. *)
Lemma resume_transfer {E} (slateEnv : SlateEnv E) penv theme_dist s id a o :
  exit_code s = None ->
  activations s !! id = Some a -> act_phase a = AwaitTransfer ->
  step slateEnv penv theme_dist s (Settle id o)
  = Some (set_settled (<[id := Fulfilled VMaybeDeploy]> (settled s))
            (set_activations (delete id (activations s))
               (set_deploying false (catch_and_log o s))), Resumed).
Proof.
  intros Hx Ha Hp. unfold step, resume. rewrite Hx, Ha, Hp.
  destruct o; reflexivity.
Qed.

(** ** Claims about a single deploy operation *)

(** C3.  A deploy operation is any call that hands back a pending promise.
    Whatever else happens in between, and whether the configure command and
    the transfer command succeed or fail, both continuations run, the
    promise of the deploy is fulfilled (with the function [maybeDeploy]),
    never rejected, and [deploying] is false once the transfer has settled.
    The environment is assumed to validate, as it did when the deploy
    started. *)
Theorem deploy_swallows_executor_errors
  {E} (slateEnv : SlateEnv E) (penv : E) (theme_dist : string)
  (s : state) (e : event) (s0 : state) (id : nat)
  (es1 : list event) (s1 : state) (o1 o2 : outcome) :
  isValid (validate slateEnv penv) = true ->
  step slateEnv penv theme_dist s e = Some (s0, Returned (PendingOn id)) ->
  forallb (leaves_alone id) es1 = true ->
  run slateEnv penv theme_dist s0 es1 = Some s1 ->
  exists s2,
    step slateEnv penv theme_dist s1 (Settle id o1) = Some (s2, Resumed)
    /\ forall es2 s3,
         forallb (leaves_alone id) es2 = true ->
         run slateEnv penv theme_dist s2 es2 = Some s3 ->
         exists s4,
           step slateEnv penv theme_dist s3 (Settle id o2) = Some (s4, Resumed)
           /\ settled s4 !! id = Some (Fulfilled VMaybeDeploy)
           /\ deploying s4 = false.
Proof.
  intros Hv Hstart Hq1 Hrun1.
  destruct (pending_is_fresh_activation _ _ _ _ _ _ _ Hstart)
    as (cmd & files & Ha0 & Hlt0 & Hx0).
  destruct (run_leaves_alone _ _ _ _ _ _ _ _ Hrun1 Hq1 Ha0 Hlt0) as [Ha1 Hlt1].
  pose proof (run_keeps_running _ _ _ Hv _ _ _ Hx0 Hrun1) as Hx1.
  destruct (resume_configure _ _ theme_dist Hv s1 id _ o1 Hx1 Ha1 eq_refl)
    as (i & Hs2 & _).
  eexists. split; [exact Hs2 |].
  intros es2 s3 Hq2 Hrun2.
  pose proof (step_keeps_running _ _ _ Hv _ _ _ _ Hs2) as Hx2.
  simpl in Hrun2.
  match type of Hs2 with _ = Some (?s2, _) =>
    assert (Ha2 : activations s2 !! id = Some (Activation cmd files AwaitTransfer))
      by (simpl; destruct o1; simpl; apply lookup_insert_eq);
    assert (Hlt2 : id < next_id s2) by (destruct o1; simpl; exact Hlt1)
  end.
  destruct (run_leaves_alone _ _ _ _ _ _ _ _ Hrun2 Hq2 Ha2 Hlt2) as [Ha3 Hlt3].
  pose proof (run_keeps_running _ _ _ Hv _ _ _ Hx2 Hrun2) as Hx3.
  eexists. split.
  - apply (resume_transfer _ _ _ s3 id _ o2 Hx3 Ha3 eq_refl).
  - simpl. split; [apply lookup_insert_eq | reflexivity].
Qed.

(** C10.  When the configure command of a deploy operation settles, with
    success or with an error, the operation issues the transfer command,
    carrying the file list the deploy was started with, and waits for
    it. *)
Theorem configure_failure_does_not_prevent_transfer
  {E} (slateEnv : SlateEnv E) (penv : E) (theme_dist : string)
  (s : state) (e : event) (s0 : state) (id : nat)
  (es1 : list event) (s1 : state) (o : outcome) :
  isValid (validate slateEnv penv) = true ->
  step slateEnv penv theme_dist s e = Some (s0, Returned (PendingOn id)) ->
  forallb (leaves_alone id) es1 = true ->
  run slateEnv penv theme_dist s0 es1 = Some s1 ->
  exists s2 i cmd files,
    step slateEnv penv theme_dist s1 (Settle id o) = Some (s2, Resumed)
    /\ activations s0 !! id = Some (Activation cmd files AwaitConfigure)
    /\ invocations s2 = (invocations s1 ++ [i])%list
    /\ command i = "deploy"
    /\ flags i !! "files" = Some (FList files)
    /\ activations s2 !! id = Some (Activation cmd files AwaitTransfer).
Proof.
  intros Hv Hstart Hq1 Hrun1.
  destruct (pending_is_fresh_activation _ _ _ _ _ _ _ Hstart)
    as (cmd & files & Ha0 & Hlt0 & Hx0).
  destruct (run_leaves_alone _ _ _ _ _ _ _ _ Hrun1 Hq1 Ha0 Hlt0) as [Ha1 Hlt1].
  pose proof (run_keeps_running _ _ _ Hv _ _ _ Hx0 Hrun1) as Hx1.
  destruct (resume_configure _ _ theme_dist Hv s1 id _ o Hx1 Ha1 eq_refl)
    as (i & Hs2 & Hc & Hf).
  eexists. exists i, cmd, files. split; [exact Hs2 |].
  split; [exact Ha0 |]. split; [destruct o; reflexivity |].
  split; [exact Hc |]. split; [exact Hf |].
  destruct o; simpl; apply lookup_insert_eq.
Qed.

(** C6.  Called while [deploying] is set, [maybeDeploy] returns a promise
    rejected with "Deploy already in progress." and changes nothing: the
    state after the call is the state before it, [filesToDeploy]
    included. *)
Theorem attemptDeploy_while_busy_is_rejected
  {E} (slateEnv : SlateEnv E) (penv : E) (theme_dist : string) (s : state) :
  deploying s = true ->
  maybeDeploy slateEnv penv theme_dist s
  = (s, Returned (Settled (Rejected (Error "Deploy already in progress."))))
  /\ filesToDeploy (fst (maybeDeploy slateEnv penv theme_dist s))
     = filesToDeploy s.
Proof.
  intros Hd. unfold maybeDeploy. rewrite Hd. split; reflexivity.
Qed.

Lemma step_keeps_pending_files {E} (slateEnv : SlateEnv E) penv theme_dist
  s e s' r :
  step slateEnv penv theme_dist s e = Some (s', r) ->
  no_flush_request e = true ->
  filesToDeploy s' = filesToDeploy s.
Proof.
  unfold step. destruct (exit_code s); [discriminate |].
  assert (Hdep : forall cmd files,
             deploy slateEnv penv theme_dist cmd files s = (s', r) ->
             filesToDeploy s' = filesToDeploy s).
  { intros cmd files Hd.
    apply deploy_cases in Hd as [[-> _] | [(c & -> & _) | (i & -> & _)]];
      reflexivity. }
  destruct e as [files | | | | id o]; intros H Hn; try discriminate.
  - injection H as H. eapply Hdep, H.
  - injection H as H. eapply Hdep, H.
  - unfold resume in H. destruct (activations s !! id) as [a |]; [| discriminate].
    destruct (act_phase a).
    + destruct (promiseThemekitDeploy _ _ _ _ _); injection H as <- <-;
        destruct o; reflexivity.
    + injection H as <- <-. destruct o; reflexivity.
Qed.

Lemma run_keeps_pending_files {E} (slateEnv : SlateEnv E) penv theme_dist es :
  forall s s',
    run slateEnv penv theme_dist s es = Some s' ->
    forallb no_flush_request es = true ->
    filesToDeploy s' = filesToDeploy s.
Proof.
  induction es as [| e es IH]; intros s s' Hrun Hn.
  - injection Hrun as <-. reflexivity.
  - simpl in Hrun, Hn. apply andb_true_iff in Hn as [Hn1 Hn2].
    destruct (step slateEnv penv theme_dist s e) as [[s1 r] |] eqn:Hs;
      [| discriminate].
    rewrite (IH _ _ Hrun Hn2). eapply step_keeps_pending_files; eassumption.
Qed.

Lemma maybeDeploy_flushes {E} (slateEnv : SlateEnv E) penv theme_dist s :
  isValid (validate slateEnv penv) = true ->
  exit_code s = None -> deploying s = false -> filesToDeploy s <> [] ->
  exists s',
    step slateEnv penv theme_dist s MaybeDeploy
    = Some (s', Returned (PendingOn (next_id s)))
    /\ activations s' !! next_id s
       = Some (Activation "upload" (filesToDeploy s) AwaitConfigure)
    /\ filesToDeploy s' = [].
Proof.
  intros Hv Hx Hd Hf. unfold step. rewrite Hx. unfold maybeDeploy. rewrite Hd.
  destruct (filesToDeploy s) as [| f fs] eqn:Hfs; [congruence |]. simpl.
  destruct (valid_configure slateEnv penv theme_dist Hv) as (i & Hi & _).
  unfold deploy. simpl. rewrite Hi. eexists. split; [reflexivity |].
  simpl. split; [apply lookup_insert_eq | reflexivity].
Qed.

(** C8.  When the transfer command of a deploy settles, the deploy completes
    and nothing else happens: no command is issued, no activation is
    created, [filesToDeploy] keeps what was accumulated.  From then on
    [filesToDeploy] stays as it is through every transition that is not a
    call of [sync] or of [maybeDeploy]; a call of [maybeDeploy] made then
    deploys the accumulated files, when there are some and the environment
    validates. *)
Theorem completion_does_not_start_a_deploy
  {E} (slateEnv : SlateEnv E) (penv : E) (theme_dist : string)
  (s : state) (id : nat) (a : activation) (o : outcome) :
  exit_code s = None ->
  activations s !! id = Some a ->
  act_phase a = AwaitTransfer ->
  exists s',
    step slateEnv penv theme_dist s (Settle id o) = Some (s', Resumed)
    /\ settled s' !! id = Some (Fulfilled VMaybeDeploy)
    /\ invocations s' = invocations s
    /\ activations s' = delete id (activations s)
    /\ filesToDeploy s' = filesToDeploy s
    /\ (forall es s'',
          forallb no_flush_request es = true ->
          run slateEnv penv theme_dist s' es = Some s'' ->
          filesToDeploy s'' = filesToDeploy s)
    /\ (isValid (validate slateEnv penv) = true ->
        filesToDeploy s <> [] ->
        exists s'',
          step slateEnv penv theme_dist s' MaybeDeploy
          = Some (s'', Returned (PendingOn (next_id s)))
          /\ activations s'' !! next_id s
             = Some (Activation "upload" (filesToDeploy s) AwaitConfigure)
          /\ filesToDeploy s'' = []).
Proof.
  intros Hx Ha Hp. eexists. split.
  - apply (resume_transfer _ _ _ s id a o Hx Ha Hp).
  - split; [simpl; apply lookup_insert_eq |].
    split; [destruct o; reflexivity |].
    split; [destruct o; reflexivity |].
    split; [destruct o; reflexivity |].
    split.
    + intros es s'' Hn Hrun.
      rewrite (run_keeps_pending_files _ _ _ _ _ _ Hrun Hn).
      destruct o; reflexivity.
    + intros Hv Hf.
      match goal with |- context [step _ _ _ ?s1 MaybeDeploy] =>
        destruct (maybeDeploy_flushes slateEnv penv theme_dist s1 Hv)
          as (s'' & Hs & Hact & Hfiles);
        [destruct o; exact Hx | destruct o; reflexivity
        | destruct o; exact Hf |];
        assert (Hn : next_id s1 = next_id s) by (destruct o; reflexivity);
        assert (Hfs : filesToDeploy s1 = filesToDeploy s)
          by (destruct o; reflexivity);
        rewrite Hn, Hfs in *
      end.
      exists s''. repeat split; assumption.
Qed.

(** ** Claims about the exclusion of concurrent deploys *)






(** ** Two calls of [sync] in a row *)

Lemma exec_nil {E} (slateEnv : SlateEnv E) penv theme_dist s :
  exec slateEnv penv theme_dist s [] s [].
Proof. split; reflexivity. Qed.

Lemma exec_cons {E} (slateEnv : SlateEnv E) penv theme_dist s e s1 r es s' rs :
  step slateEnv penv theme_dist s e = Some (s1, r) ->
  exec slateEnv penv theme_dist s1 es s' rs ->
  exec slateEnv penv theme_dist s (e :: es) s' (r :: rs).
Proof.
  intros Hs [Hrun Hrep]. unfold exec. simpl. rewrite Hs.
  split; [exact Hrun | rewrite Hrep; reflexivity].
Qed.

Section TwoEnqueues.

Context {E : Type}.
Variable slateEnv : SlateEnv E.
Variable penv : E.
Variable theme_dist : string.
Hypothesis env_valid : isValid (validate slateEnv penv) = true.

Local Arguments promiseThemekitConfig : simpl never.
Local Arguments promiseThemekitDeploy : simpl never.

Ltac known_sets :=
  change (array_from_set ["a.liquid"]) with ["a.liquid"];
  change (array_from_set ["a.liquid"; "b.liquid"])
    with ["a.liquid"; "b.liquid"].

(** Evaluates one transition from a state built by the previous ones. *)
Ltac one_step Hic Hi1 Hi2 :=
  unfold step; try unfold resume;
  try unfold sync; try unfold maybeDeploy; try unfold deploy; simpl;
  known_sets; rewrite ?lookup_insert_eq; simpl;
  rewrite ?Hic, ?Hi1, ?Hi2; simpl; reflexivity.

Ltac evaluate_run Hic Hi1 Hi2 :=
  repeat (eapply exec_cons; [one_step Hic Hi1 Hi2 |]); apply exec_nil.

(** The second call arrives before the configure command has settled. *)
Lemma second_sync_before_configure (o1 o2 : outcome) :
  exists s,
    exec slateEnv penv theme_dist init
      [Sync ["a.liquid"]; Sync ["a.liquid"; "b.liquid"];
       Settle 0 o1; Settle 0 o2] s
      [Returned (PendingOn 0); in_progress; Resumed; Resumed]
    /\ transfers s = [Some (FList ["a.liquid"])]
    /\ filesToDeploy s = ["a.liquid"; "b.liquid"]
    /\ deploying s = false.
Proof.
  destruct (valid_configure slateEnv penv theme_dist env_valid)
    as (ic & Hic & Hcc).
  destruct (valid_transfer slateEnv penv theme_dist env_valid
              "upload" ["a.liquid"]) as (i1 & Hi1 & Hc1 & Hf1 & _).
  destruct o1 as [| e1], o2 as [| e2].
  all: eexists; split; [evaluate_run Hic Hi1 Hi1 |].
  all: unfold transfers; simpl; rewrite Hcc, Hc1; simpl; rewrite Hf1.
  all: repeat split.
Qed.

(** The second call arrives while the transfer command is running. *)
Lemma second_sync_before_transfer (o1 o2 : outcome) :
  exists s,
    exec slateEnv penv theme_dist init
      [Sync ["a.liquid"]; Settle 0 o1;
       Sync ["a.liquid"; "b.liquid"]; Settle 0 o2] s
      [Returned (PendingOn 0); Resumed; in_progress; Resumed]
    /\ transfers s = [Some (FList ["a.liquid"])]
    /\ filesToDeploy s = ["a.liquid"; "b.liquid"]
    /\ deploying s = false.
Proof.
  destruct (valid_configure slateEnv penv theme_dist env_valid)
    as (ic & Hic & Hcc).
  destruct (valid_transfer slateEnv penv theme_dist env_valid
              "upload" ["a.liquid"]) as (i1 & Hi1 & Hc1 & Hf1 & _).
  destruct o1 as [| e1], o2 as [| e2].
  all: eexists; split; [evaluate_run Hic Hi1 Hi1 |].
  all: unfold transfers; simpl; rewrite Hcc, Hc1; simpl; rewrite Hf1.
  all: repeat split.
Qed.

(** The second call arrives after the first deploy has completed. *)
Lemma second_sync_after_completion (o1 o2 o3 o4 : outcome) :
  exists s,
    exec slateEnv penv theme_dist init
      [Sync ["a.liquid"]; Settle 0 o1; Settle 0 o2;
       Sync ["a.liquid"; "b.liquid"]; Settle 1 o3; Settle 1 o4] s
      [Returned (PendingOn 0); Resumed; Resumed;
       Returned (PendingOn 1); Resumed; Resumed]
    /\ transfers s
       = [Some (FList ["a.liquid"]); Some (FList ["a.liquid"; "b.liquid"])]
    /\ filesToDeploy s = []
    /\ deploying s = false.
Proof.
  destruct (valid_configure slateEnv penv theme_dist env_valid)
    as (ic & Hic & Hcc).
  destruct (valid_transfer slateEnv penv theme_dist env_valid
              "upload" ["a.liquid"]) as (i1 & Hi1 & Hc1 & Hf1 & _).
  destruct (valid_transfer slateEnv penv theme_dist env_valid
              "upload" ["a.liquid"; "b.liquid"]) as (i2 & Hi2 & Hc2 & Hf2 & _).
  destruct o1 as [| e1], o2 as [| e2], o3 as [| e3], o4 as [| e4].
  all: eexists; split; [evaluate_run Hic Hi1 Hi2 |].
  all: unfold transfers; simpl; rewrite Hcc, Hc1, Hc2; simpl; rewrite Hf1, Hf2.
  all: repeat split.
Qed.

End TwoEnqueues.

(** C2, as the code has it.  From the initial state, [sync(["a.liquid"])]
    starts a deploy at once, and its transfer command carries [a.liquid]
    alone.  A following [sync(["a.liquid","b.liquid"])] made while that
    deploy is in flight, before or after the configure command settled, is
    rejected with "Deploy already in progress.", issues nothing and leaves
    [filesToDeploy] = [a.liquid, b.liquid]; made after the first deploy
    completed, it starts a second deploy whose transfer command carries the
    deduplicated [a.liquid, b.liquid].  This holds whatever the outcomes of
    the commands. *)
Theorem two_enqueues_from_idle
  {E} (slateEnv : SlateEnv E) (penv : E) (theme_dist : string)
  (o1 o2 o3 o4 : outcome) :
  isValid (validate slateEnv penv) = true ->
  (exists s,
      exec slateEnv penv theme_dist init
        [Sync ["a.liquid"]; Sync ["a.liquid"; "b.liquid"];
         Settle 0 o1; Settle 0 o2] s
        [Returned (PendingOn 0); in_progress; Resumed; Resumed]
      /\ transfers s = [Some (FList ["a.liquid"])]
      /\ filesToDeploy s = ["a.liquid"; "b.liquid"]
      /\ deploying s = false)
  /\ (exists s,
      exec slateEnv penv theme_dist init
        [Sync ["a.liquid"]; Settle 0 o1;
         Sync ["a.liquid"; "b.liquid"]; Settle 0 o2] s
        [Returned (PendingOn 0); Resumed; in_progress; Resumed]
      /\ transfers s = [Some (FList ["a.liquid"])]
      /\ filesToDeploy s = ["a.liquid"; "b.liquid"]
      /\ deploying s = false)
  /\ (exists s,
      exec slateEnv penv theme_dist init
        [Sync ["a.liquid"]; Settle 0 o1; Settle 0 o2;
         Sync ["a.liquid"; "b.liquid"]; Settle 1 o3; Settle 1 o4] s
        [Returned (PendingOn 0); Resumed; Resumed;
         Returned (PendingOn 1); Resumed; Resumed]
      /\ transfers s
         = [Some (FList ["a.liquid"]); Some (FList ["a.liquid"; "b.liquid"])]
      /\ filesToDeploy s = []
      /\ deploying s = false).
Proof.
  intros Hv. split; [| split].
  - apply second_sync_before_configure. exact Hv.
  - apply second_sync_before_transfer. exact Hv.
  - apply second_sync_after_completion. exact Hv.
Qed.

(** ** The claims on the sample system *)



(** C2, counterexample.  With both calls made back to back and both
    commands of the deploy succeeding, the one transfer command carries
    [a.liquid] only, and [b.liquid] is still in [filesToDeploy] at the end;
    with the second call made after the first deploy completed there are
    two transfer commands.  Neither run has exactly one transfer command
    carrying the set of both files. *)
Lemma two_enqueues_do_not_coalesce :
  sample_exec init
    [Sync ["a.liquid"]; Sync ["a.liquid"; "b.liquid"];
     Settle 0 Succeeded; Settle 0 Succeeded]
    (sample_after [Sync ["a.liquid"]; Sync ["a.liquid"; "b.liquid"];
                   Settle 0 Succeeded; Settle 0 Succeeded])
    [Returned (PendingOn 0); in_progress; Resumed; Resumed]
  /\ transfers (sample_after [Sync ["a.liquid"]; Sync ["a.liquid"; "b.liquid"];
                              Settle 0 Succeeded; Settle 0 Succeeded])
     = [Some (FList ["a.liquid"])]
  /\ ~ one_transfer_carrying ["a.liquid"; "b.liquid"]
         (sample_after [Sync ["a.liquid"]; Sync ["a.liquid"; "b.liquid"];
                        Settle 0 Succeeded; Settle 0 Succeeded])
  /\ sample_run init
       [Sync ["a.liquid"]; Settle 0 Succeeded; Settle 0 Succeeded;
        Sync ["a.liquid"; "b.liquid"]; Settle 1 Succeeded; Settle 1 Succeeded]
     = Some (sample_after
               [Sync ["a.liquid"]; Settle 0 Succeeded; Settle 0 Succeeded;
                Sync ["a.liquid"; "b.liquid"]; Settle 1 Succeeded;
                Settle 1 Succeeded])
  /\ ~ one_transfer_carrying ["a.liquid"; "b.liquid"]
         (sample_after
            [Sync ["a.liquid"]; Settle 0 Succeeded; Settle 0 Succeeded;
             Sync ["a.liquid"; "b.liquid"]; Settle 1 Succeeded;
             Settle 1 Succeeded]).
Proof.
  split; [split; vm_compute; reflexivity |].
  split; [vm_compute; reflexivity |].
  split.
  - intros (l & Hl & _ & Hin). vm_compute in Hl. injection Hl as <-.
    destruct (proj2 (Hin "b.liquid")) as [H | []]; [right; left; reflexivity |].
    discriminate H.
  - split; [vm_compute; reflexivity |].
    intros (l & Hl & _). vm_compute in Hl. discriminate Hl.
Qed.

(** C2 on the sample system, with a transfer that fails. *)
Lemma two_enqueues_from_idle_witness :
  isValid (validate sample_slateEnv sample_penv) = true
  /\ exists s,
       sample_exec init
         [Sync ["a.liquid"]; Sync ["a.liquid"; "b.liquid"];
          Settle 0 Succeeded; Settle 0 (Failed (Error "transfer failed"))] s
         [Returned (PendingOn 0); in_progress; Resumed; Resumed]
       /\ transfers s = [Some (FList ["a.liquid"])]
       /\ filesToDeploy s = ["a.liquid"; "b.liquid"]
       /\ deploying s = false.
Proof.
  assert (Hv : isValid (validate sample_slateEnv sample_penv) = true)
    by (vm_compute; reflexivity).
  split; [exact Hv |].
  exact (proj1 (two_enqueues_from_idle sample_slateEnv sample_penv sample_dist
                  Succeeded (Failed (Error "transfer failed"))
                  Succeeded Succeeded Hv)).
Defined.

(** C3 on the sample system: [upload()], a [sync] in between, and both
    commands failing. *)
Lemma deploy_swallows_executor_errors_witness :
  isValid (validate sample_slateEnv sample_penv) = true
  /\ sample_step init Upload
     = Some (sample_after [Upload], Returned (PendingOn 0))
  /\ forallb (leaves_alone 0) [Sync ["a.liquid"]] = true
  /\ sample_run (sample_after [Upload]) [Sync ["a.liquid"]]
     = Some (sample_after [Upload; Sync ["a.liquid"]])
  /\ exists s2,
       sample_step (sample_after [Upload; Sync ["a.liquid"]])
         (Settle 0 (Failed (Error "configure failed")))
       = Some (s2, Resumed)
       /\ forall es2 s3,
            forallb (leaves_alone 0) es2 = true ->
            sample_run s2 es2 = Some s3 ->
            exists s4,
              sample_step s3 (Settle 0 (Failed (Error "transfer failed")))
              = Some (s4, Resumed)
              /\ settled s4 !! 0 = Some (Fulfilled VMaybeDeploy)
              /\ deploying s4 = false.
Proof.
  assert (Hv : isValid (validate sample_slateEnv sample_penv) = true)
    by (vm_compute; reflexivity).
  assert (H0 : sample_step init Upload
               = Some (sample_after [Upload], Returned (PendingOn 0)))
    by (vm_compute; reflexivity).
  assert (Hq : forallb (leaves_alone 0) [Sync ["a.liquid"]] = true)
    by reflexivity.
  assert (H1 : sample_run (sample_after [Upload]) [Sync ["a.liquid"]]
               = Some (sample_after [Upload; Sync ["a.liquid"]]))
    by (vm_compute; reflexivity).
  split; [exact Hv |]. split; [exact H0 |]. split; [exact Hq |].
  split; [exact H1 |].
  exact (deploy_swallows_executor_errors sample_slateEnv sample_penv sample_dist
           init Upload _ 0 _ _ (Failed (Error "configure failed"))
           (Failed (Error "transfer failed")) Hv H0 Hq H1).
Defined.

(** C10 on the sample system: a deploy started by [sync] whose configure
    command fails. *)
Lemma configure_failure_does_not_prevent_transfer_witness :
  isValid (validate sample_slateEnv sample_penv) = true
  /\ sample_step init (Sync ["a.liquid"; "b.liquid"])
     = Some (sample_after [Sync ["a.liquid"; "b.liquid"]], Returned (PendingOn 0))
  /\ forallb (leaves_alone 0) [Sync ["c.liquid"]] = true
  /\ sample_run (sample_after [Sync ["a.liquid"; "b.liquid"]]) [Sync ["c.liquid"]]
     = Some (sample_after [Sync ["a.liquid"; "b.liquid"]; Sync ["c.liquid"]])
  /\ exists s2 i cmd files,
       sample_step (sample_after [Sync ["a.liquid"; "b.liquid"]; Sync ["c.liquid"]])
         (Settle 0 (Failed (Error "configure failed")))
       = Some (s2, Resumed)
       /\ activations (sample_after [Sync ["a.liquid"; "b.liquid"]]) !! 0
          = Some (Activation cmd files AwaitConfigure)
       /\ invocations s2
          = (invocations
               (sample_after [Sync ["a.liquid"; "b.liquid"]; Sync ["c.liquid"]])
             ++ [i])%list
       /\ command i = "deploy"
       /\ flags i !! "files" = Some (FList files)
       /\ activations s2 !! 0 = Some (Activation cmd files AwaitTransfer).
Proof.
  assert (Hv : isValid (validate sample_slateEnv sample_penv) = true)
    by (vm_compute; reflexivity).
  assert (H0 : sample_step init (Sync ["a.liquid"; "b.liquid"])
               = Some (sample_after [Sync ["a.liquid"; "b.liquid"]],
                       Returned (PendingOn 0)))
    by (vm_compute; reflexivity).
  assert (Hq : forallb (leaves_alone 0) [Sync ["c.liquid"]] = true)
    by reflexivity.
  assert (H1 : sample_run (sample_after [Sync ["a.liquid"; "b.liquid"]])
                 [Sync ["c.liquid"]]
               = Some (sample_after
                         [Sync ["a.liquid"; "b.liquid"]; Sync ["c.liquid"]]))
    by (vm_compute; reflexivity).
  split; [exact Hv |]. split; [exact H0 |]. split; [exact Hq |].
  split; [exact H1 |].
  exact (configure_failure_does_not_prevent_transfer sample_slateEnv sample_penv
           sample_dist init (Sync ["a.liquid"; "b.liquid"]) _ 0 _ _
           (Failed (Error "configure failed")) Hv H0 Hq H1).
Defined.

(** C6 on the sample system, with [b.liquid] pending behind a deploy in
    flight. *)
Lemma attemptDeploy_while_busy_is_rejected_witness :
  deploying (sample_after [Sync ["a.liquid"]; Sync ["b.liquid"]]) = true
  /\ maybeDeploy sample_slateEnv sample_penv sample_dist
       (sample_after [Sync ["a.liquid"]; Sync ["b.liquid"]])
     = (sample_after [Sync ["a.liquid"]; Sync ["b.liquid"]],
        Returned (Settled (Rejected (Error "Deploy already in progress."))))
  /\ filesToDeploy
       (fst (maybeDeploy sample_slateEnv sample_penv sample_dist
               (sample_after [Sync ["a.liquid"]; Sync ["b.liquid"]])))
     = filesToDeploy (sample_after [Sync ["a.liquid"]; Sync ["b.liquid"]]).
Proof.
  assert (Hd : deploying (sample_after [Sync ["a.liquid"]; Sync ["b.liquid"]])
               = true) by (vm_compute; reflexivity).
  split; [exact Hd |].
  exact (attemptDeploy_while_busy_is_rejected sample_slateEnv sample_penv
           sample_dist _ Hd).
Defined.

(** C8 on the sample system: [b.liquid], enqueued while the deploy of
    [a.liquid] was in flight, is still pending once it has completed. *)
Lemma completion_does_not_start_a_deploy_witness :
  exit_code (sample_after [Sync ["a.liquid"]; Sync ["b.liquid"]; Settle 0 Succeeded])
  = None
  /\ activations
       (sample_after [Sync ["a.liquid"]; Sync ["b.liquid"]; Settle 0 Succeeded])
     !! 0 = Some (Activation "upload" ["a.liquid"] AwaitTransfer)
  /\ exists s',
       sample_step
         (sample_after [Sync ["a.liquid"]; Sync ["b.liquid"]; Settle 0 Succeeded])
         (Settle 0 Succeeded) = Some (s', Resumed)
       /\ filesToDeploy s' = ["b.liquid"].
Proof.
  assert (Hx : exit_code (sample_after [Sync ["a.liquid"]; Sync ["b.liquid"];
                                        Settle 0 Succeeded]) = None)
    by (vm_compute; reflexivity).
  assert (Ha : activations
                 (sample_after [Sync ["a.liquid"]; Sync ["b.liquid"];
                                Settle 0 Succeeded]) !! 0
               = Some (Activation "upload" ["a.liquid"] AwaitTransfer))
    by (vm_compute; reflexivity).
  split; [exact Hx |]. split; [exact Ha |].
  destruct (completion_does_not_start_a_deploy sample_slateEnv sample_penv
              sample_dist _ 0 _ Succeeded Hx Ha eq_refl)
    as (s' & Hs & _ & _ & _ & Hf & _ & _).
  exists s'. split; [exact Hs |]. rewrite Hf. vm_compute. reflexivity.
Defined.

(** * Properties of the theme-id resolver *)

Section FetchFacts.

Context {E : Type}.
Variable slateEnv : SlateEnv E.
Variable penv : E.
Variable JSON_parse : string -> option json.
Variable JSON_stringify : json -> string.

Local Abbreviation respond' := (respond JSON_stringify).
Local Abbreviation stringify' := (stringify JSON_stringify).

Local Arguments get : simpl never.

Lemma get_field v p : is_null v = false -> get (Some v) p = Ok (field v p).
Proof. destruct v; simpl; try reflexivity. discriminate. Qed.

Lemma truthy_field_not_null v p : truthy (field v p) = true -> is_null v = false.
Proof. destruct v; simpl; try reflexivity. discriminate. Qed.

Lemma array_field_not_null v p items :
  field v p = Some (JArray items) -> is_null v = false.
Proof. destruct v; simpl; try reflexivity. discriminate. Qed.

(** [find] walks past the elements that are neither [null] nor main and
    stops at the first main one. *)
Lemma find_main_first pre t post :
  forallb (fun x => negb (is_null x) && negb (has_main_role x)) pre = true ->
  has_main_role t = true ->
  find_main (pre ++ t :: post) = Ok (Some t).
Proof.
  intros Hpre Ht. induction pre as [| x pre IH]; simpl.
  - assert (Hn : is_null t = false).
    { destruct t; try reflexivity. discriminate Ht. }
    rewrite (get_field t p_role Hn). simpl.
    unfold has_main_role in Ht. rewrite Ht. reflexivity.
  - simpl in Hpre. apply andb_true_iff in Hpre as [Hx Hpre].
    apply andb_true_iff in Hx as [Hxn Hxm].
    apply negb_true_iff in Hxn, Hxm.
    rewrite (get_field x p_role Hxn). simpl.
    unfold has_main_role in Hxm. rewrite Hxm. apply IH, Hpre.
Qed.

Lemma find_main_none items :
  forallb (fun x => negb (is_null x) && negb (has_main_role x)) items = true ->
  find_main items = Ok None.
Proof.
  induction items as [| x items IH]; simpl; [reflexivity |].
  intros H. apply andb_true_iff in H as [Hx Hrest].
  apply andb_true_iff in Hx as [Hxn Hxm].
  apply negb_true_iff in Hxn, Hxm.
  rewrite (get_field x p_role Hxn). simpl.
  unfold has_main_role in Hxm. rewrite Hxm. apply IH, Hrest.
Qed.

Lemma respond_errors parsed :
  truthy (field parsed p_errors) = true ->
  respond' parsed
  = Ok (Reject (ApiError (stringify' (field parsed p_errors)))).
Proof.
  intros Ht. unfold respond.
  rewrite (get_field parsed p_errors (truthy_field_not_null _ _ Ht)).
  simpl. rewrite Ht. reflexivity.
Qed.

Lemma respond_malformed parsed :
  is_null parsed = false ->
  truthy (field parsed p_errors) = false ->
  is_array (field parsed p_themes) = false ->
  respond' parsed
  = Ok (Reject (MalformedResponseError (JSON_stringify parsed))).
Proof.
  intros Hn He Ha. unfold respond.
  rewrite (get_field parsed p_errors Hn). simpl. rewrite He.
  rewrite (get_field parsed p_themes Hn). simpl.
  destruct (field parsed p_themes) as [[] |]; try reflexivity.
  discriminate Ha.
Qed.

Lemma respond_no_main parsed items :
  truthy (field parsed p_errors) = false ->
  field parsed p_themes = Some (JArray items) ->
  forallb (fun x => negb (is_null x) && negb (has_main_role x)) items = true ->
  respond' parsed
  = Ok (Reject (NoMainThemeError (JSON_stringify (JArray items)))).
Proof.
  intros He Hth Hitems. unfold respond.
  pose proof (array_field_not_null _ _ _ Hth) as Hn.
  rewrite (get_field parsed p_errors Hn). simpl. rewrite He.
  rewrite (get_field parsed p_themes Hn). simpl. rewrite Hth.
  rewrite (find_main_none _ Hitems). reflexivity.
Qed.

Lemma respond_main parsed pre t post :
  truthy (field parsed p_errors) = false ->
  field parsed p_themes = Some (JArray (pre ++ t :: post)) ->
  forallb (fun x => negb (is_null x) && negb (has_main_role x)) pre = true ->
  has_main_role t = true ->
  respond' parsed = Ok (Resolve (field t p_id)).
Proof.
  intros He Hth Hpre Ht. unfold respond.
  pose proof (array_field_not_null _ _ _ Hth) as Hn.
  rewrite (get_field parsed p_errors Hn). simpl. rewrite He.
  rewrite (get_field parsed p_themes Hn). simpl. rewrite Hth.
  rewrite (find_main_first _ _ _ Hpre Ht). simpl.
  destruct t; try discriminate Ht. reflexivity.
Qed.

Lemma fetch_of_parsed chunks parsed :
  isValid (validate slateEnv penv) = true ->
  JSON_parse (buffer chunks) = Some parsed ->
  fetchMainThemeId slateEnv penv JSON_parse JSON_stringify chunks
  = Ret (FetchRun (lookup_request slateEnv penv)
                  (fst (settle_fetch (respond' parsed)))
                  (snd (settle_fetch (respond' parsed)))).
Proof.
  intros Hv Hp. unfold fetchMainThemeId, _validateEnvValues. rewrite Hv.
  simpl. unfold on_end, parse. rewrite Hp. simpl.
  destruct (settle_fetch (respond' parsed)). reflexivity.
Qed.

End FetchFacts.

(** ** Claims about the resolver *)

(** C4, as the code has it.  When the parsed response has no truthy
    [errors] field, its [themes] field is an array with an element whose
    role is "main", and no [null] element comes before the first such
    element, the promise of [fetchMainThemeId] is resolved with the [id]
    field of that first element, and nothing is thrown. *)
Theorem first_main_theme_id_is_resolved
  {E} (slateEnv : SlateEnv E) (penv : E)
  (JSON_parse : string -> option json) (JSON_stringify : json -> string)
  (chunks : list string) (parsed : json) (pre : list json) (t : json)
  (post : list json) :
  isValid (validate slateEnv penv) = true ->
  JSON_parse (buffer chunks) = Some parsed ->
  truthy (field parsed p_errors) = false ->
  field parsed p_themes = Some (JArray (pre ++ t :: post)) ->
  forallb (fun x => negb (is_null x) && negb (has_main_role x)) pre = true ->
  has_main_role t = true ->
  fetchMainThemeId slateEnv penv JSON_parse JSON_stringify chunks
  = Ret (FetchRun (lookup_request slateEnv penv)
                  (ResolvedWith (field t p_id)) None).
Proof.
  intros Hv Hp He Hth Hpre Ht.
  rewrite (fetch_of_parsed _ _ _ _ _ _ Hv Hp).
  rewrite (respond_main _ _ _ _ _ He Hth Hpre Ht). reflexivity.
Qed.

(** C4 on the response with an unpublished theme 1 and the main theme 2. *)
Lemma first_main_theme_id_is_resolved_witness :
  isValid (validate sample_slateEnv sample_penv) = true
  /\ sample_parse (buffer [two_themes_body]) = Some two_themes
  /\ truthy (field two_themes p_errors) = false
  /\ sample_fetch [two_themes_body]
     = Ret (FetchRun (lookup_request sample_slateEnv sample_penv)
                     (ResolvedWith (Some (JNumber 2%float))) None).
Proof.
  assert (Hv : isValid (validate sample_slateEnv sample_penv) = true)
    by (vm_compute; reflexivity).
  assert (Hp : sample_parse (buffer [two_themes_body]) = Some two_themes)
    by (vm_compute; reflexivity).
  assert (He : truthy (field two_themes p_errors) = false) by reflexivity.
  split; [exact Hv |]. split; [exact Hp |]. split; [exact He |].
  exact (first_main_theme_id_is_resolved sample_slateEnv sample_penv
           sample_parse sample_stringify [two_themes_body] two_themes
           [JObject [("id", JNumber 1%float); ("role", JString "unpublished")]]
           (JObject [("id", JNumber 2%float); ("role", JString "main")]) []
           Hv Hp He eq_refl eq_refl eq_refl).
Defined.

(** C4, counterexample.  Both responses have a [themes] array with an
    element whose role is "main".  The first also has an [errors] field and
    is rejected; in the second a [null] element comes first, reading its
    [role] throws, and the promise is never settled. *)
Lemma main_theme_present_but_not_resolved :
  field errors_and_main p_themes
  = Some (JArray [JObject [("id", JNumber 2%float); ("role", JString "main")]])
  /\ sample_fetch [errors_and_main_body]
     = Ret (FetchRun (lookup_request sample_slateEnv sample_penv)
                     (RejectedWith (ApiError (quoted "invalid token"))) None)
  /\ field null_before_main p_themes
     = Some (JArray [JNull;
                     JObject [("id", JNumber 2%float); ("role", JString "main")]])
  /\ sample_fetch [null_before_main_body]
     = Ret (FetchRun (lookup_request sample_slateEnv sample_penv)
                     StillPending (Some TypeError)).
Proof.
  repeat split; vm_compute; reflexivity.
Qed.

(** C5, as the code has it.  In this order: a response with a truthy
    [errors] field is rejected with the API error, whose message ends in
    the serialized [errors] value; otherwise a response other than [null]
    whose [themes] field is not an array is rejected as malformed;
    otherwise a response whose [themes] array has no [null] element and no
    element with role "main" is rejected for want of a main theme. *)
Theorem lookup_failures_in_order
  {E} (slateEnv : SlateEnv E) (penv : E)
  (JSON_parse : string -> option json) (JSON_stringify : json -> string)
  (chunks : list string) (parsed : json) :
  isValid (validate slateEnv penv) = true ->
  JSON_parse (buffer chunks) = Some parsed ->
  (truthy (field parsed p_errors) = true ->
   fetchMainThemeId slateEnv penv JSON_parse JSON_stringify chunks
   = Ret (FetchRun (lookup_request slateEnv penv)
            (RejectedWith
               (ApiError (stringify JSON_stringify (field parsed p_errors))))
            None))
  /\ (truthy (field parsed p_errors) = false ->
      is_null parsed = false ->
      is_array (field parsed p_themes) = false ->
      fetchMainThemeId slateEnv penv JSON_parse JSON_stringify chunks
      = Ret (FetchRun (lookup_request slateEnv penv)
               (RejectedWith (MalformedResponseError (JSON_stringify parsed)))
               None))
  /\ (forall items,
        truthy (field parsed p_errors) = false ->
        field parsed p_themes = Some (JArray items) ->
        forallb (fun x => negb (is_null x) && negb (has_main_role x)) items
        = true ->
        fetchMainThemeId slateEnv penv JSON_parse JSON_stringify chunks
        = Ret (FetchRun (lookup_request slateEnv penv)
                 (RejectedWith
                    (NoMainThemeError (JSON_stringify (JArray items))))
                 None)).
Proof.
  intros Hv Hp. rewrite (fetch_of_parsed _ _ _ _ _ _ Hv Hp).
  split; [| split].
  - intros He. rewrite (respond_errors _ _ He). reflexivity.
  - intros He Hn Ha. rewrite (respond_malformed _ _ Hn He Ha). reflexivity.
  - intros items He Hth Hitems.
    rewrite (respond_no_main _ _ _ He Hth Hitems). reflexivity.
Qed.

(** C5 on three sample responses, one for each rejection. *)
Lemma lookup_failures_in_order_witness :
  isValid (validate sample_slateEnv sample_penv) = true
  /\ sample_parse (buffer [invalid_token_body]) = Some invalid_token
  /\ sample_fetch [invalid_token_body]
     = Ret (FetchRun (lookup_request sample_slateEnv sample_penv)
              (RejectedWith (ApiError (quoted "invalid token"))) None)
  /\ sample_parse (buffer [themes_not_array_body]) = Some themes_not_array
  /\ sample_fetch [themes_not_array_body]
     = Ret (FetchRun (lookup_request sample_slateEnv sample_penv)
              (RejectedWith (MalformedResponseError "{...}")) None)
  /\ sample_parse (buffer [one_unpublished_body]) = Some one_unpublished
  /\ sample_fetch [one_unpublished_body]
     = Ret (FetchRun (lookup_request sample_slateEnv sample_penv)
              (RejectedWith (NoMainThemeError "[...]")) None).
Proof.
  assert (Hv : isValid (validate sample_slateEnv sample_penv) = true)
    by (vm_compute; reflexivity).
  assert (H1 : sample_parse (buffer [invalid_token_body]) = Some invalid_token)
    by (vm_compute; reflexivity).
  assert (H2 : sample_parse (buffer [themes_not_array_body])
               = Some themes_not_array) by (vm_compute; reflexivity).
  assert (H3 : sample_parse (buffer [one_unpublished_body])
               = Some one_unpublished) by (vm_compute; reflexivity).
  split; [exact Hv |]. split; [exact H1 |]. split.
  { exact (proj1 (lookup_failures_in_order sample_slateEnv sample_penv
                    sample_parse sample_stringify _ _ Hv H1) eq_refl). }
  split; [exact H2 |]. split.
  { exact (proj1 (proj2 (lookup_failures_in_order sample_slateEnv sample_penv
                           sample_parse sample_stringify _ _ Hv H2))
             eq_refl eq_refl eq_refl). }
  split; [exact H3 |].
  exact (proj2 (proj2 (lookup_failures_in_order sample_slateEnv sample_penv
                         sample_parse sample_stringify _ _ Hv H3))
           _ eq_refl eq_refl eq_refl).
Defined.

(** C5, counterexample.  The first response contains an [errors] field,
    whose value is [null]: it is not rejected but resolved with 2.  The
    response [null] has no [themes] sequence and the response with the
    single theme [null] has no main theme: neither is rejected, reading a
    property of [null] throws and the promise stays pending. *)
Lemma errors_field_present_but_resolved :
  field null_errors p_errors = Some JNull
  /\ sample_fetch [null_errors_body]
     = Ret (FetchRun (lookup_request sample_slateEnv sample_penv)
                     (ResolvedWith (Some (JNumber 2%float))) None)
  /\ sample_parse (buffer ["null"]) = Some JNull
  /\ sample_fetch ["null"]
     = Ret (FetchRun (lookup_request sample_slateEnv sample_penv)
                     StillPending (Some TypeError))
  /\ field only_null_theme p_themes = Some (JArray [JNull])
  /\ sample_fetch [only_null_theme_body]
     = Ret (FetchRun (lookup_request sample_slateEnv sample_penv)
                     StillPending (Some TypeError)).
Proof.
  repeat split; vm_compute; reflexivity.
Qed.

Lemma starts_with_app (p s : string) :
  starts_with p s = true <-> exists rest, s = p ++ rest.
Proof.
  revert s. induction p as [| a p IH]; intros s; simpl.
  - split; [intros _; exists s; reflexivity | reflexivity].
  - destruct s as [| b s].
    + split; [discriminate | intros [rest H]; discriminate H].
    + rewrite andb_true_iff, Ascii.eqb_eq, IH. split.
      * intros [-> [rest ->]]. exists rest. reflexivity.
      * intros [rest H]. injection H as -> ->. split; [reflexivity |].
        exists rest. reflexivity.
Qed.

(** [occurs_in] is the test for a segment. *)
Lemma occurs_in_segment (needle hay : string) :
  occurs_in needle hay = true <-> exists before rest, hay = before ++ needle ++ rest.
Proof.
  induction hay as [| c hay IH].
  - simpl. rewrite orb_false_r, starts_with_app. split.
    + intros [rest H]. exists EmptyString, rest. exact H.
    + intros (before & rest & H). destruct before as [| b before].
      * exists rest. exact H.
      * discriminate H.
  - simpl. rewrite orb_true_iff, starts_with_app, IH. split.
    + intros [[rest H] | (before & rest & H)].
      * exists EmptyString, rest. exact H.
      * exists (String c before), rest. rewrite H. reflexivity.
    + intros (before & rest & H). destruct before as [| b before].
      * left. exists rest. exact H.
      * right. injection H as -> H. exists before, rest. exact H.
Qed.

(** C7, counterexample.  With the password [function], which the sample
    validation accepts, the [auth] field of the request is ":" followed by
    the source text of the accessor, and that text begins with the word
    [function]: the field contains the actual password, the one the
    [X-Shopify-Access-Token] header carries. *)
Lemma basic_auth_contains_the_password :
  isValid (validate sample_slateEnv keyword_penv) = true
  /\ fn_call (getPasswordValue sample_slateEnv) keyword_penv = "function"
  /\ fetchMainThemeId sample_slateEnv keyword_penv sample_parse sample_stringify
       [two_themes_body]
     = Ret (FetchRun (lookup_request sample_slateEnv keyword_penv)
                     (ResolvedWith (Some (JNumber 2%float))) None)
  /\ auth (lookup_request sample_slateEnv keyword_penv)
     = ":function getPasswordValue() { ... }"
  /\ headers (lookup_request sample_slateEnv keyword_penv)
       !! "X-Shopify-Access-Token" = Some "function"
  /\ occurs_in "function" (auth (lookup_request sample_slateEnv keyword_penv))
     = true.
Proof.
  repeat split; vm_compute; reflexivity.
Qed.

(** C7, as the code has it.  Whenever [fetchMainThemeId] sends its request,
    the [auth] field is ":" followed by the source text of the accessor
    [slateEnv.getPasswordValue], not the value the accessor returns: it is
    the same string in every process environment, whatever password the
    environment holds, so it contains the actual password only when the
    password is a segment of that fixed string; the
    [X-Shopify-Access-Token] header is the value the accessor returns. *)
Theorem basic_auth_is_a_placeholder
  {E} (slateEnv : SlateEnv E) (penv penv' : E)
  (JSON_parse : string -> option json) (JSON_stringify : json -> string)
  (chunks : list string) :
  isValid (validate slateEnv penv) = true ->
  exists r,
    fetchMainThemeId slateEnv penv JSON_parse JSON_stringify chunks = Ret r
    /\ auth (sent r) = ":" ++ fn_text (getPasswordValue slateEnv)
    /\ auth (sent r) = auth (lookup_request slateEnv penv')
    /\ headers (sent r) !! "X-Shopify-Access-Token"
       = Some (fn_call (getPasswordValue slateEnv) penv)
    /\ (occurs_in (fn_call (getPasswordValue slateEnv) penv) (auth (sent r)) = true
        <-> exists before rest,
              ":" ++ fn_text (getPasswordValue slateEnv)
              = before ++ fn_call (getPasswordValue slateEnv) penv ++ rest).
Proof.
  intros Hv. unfold fetchMainThemeId, _validateEnvValues. rewrite Hv. simpl.
  destruct (settle_fetch _) as [p u]. eexists. split; [reflexivity |].
  simpl. split; [reflexivity |]. split; [reflexivity |].
  split; [apply lookup_insert_eq |].
  exact (occurs_in_segment (fn_call (getPasswordValue slateEnv) penv)
           (":" ++ fn_text (getPasswordValue slateEnv))).
Qed.

(** C7 on the sample system, against an environment holding another
    password: the field is the same in both and contains neither
    password. *)
Lemma basic_auth_is_a_placeholder_witness :
  isValid (validate sample_slateEnv sample_penv) = true
  /\ exists r,
       sample_fetch [two_themes_body] = Ret r
       /\ auth (sent r) = ":function getPasswordValue() { ... }"
       /\ auth (sent r)
          = auth (lookup_request sample_slateEnv
                    (<["SLATE_PASSWORD" := "another password"]> sample_penv))
       /\ headers (sent r) !! "X-Shopify-Access-Token" = Some "0123456789abcdef"
       /\ occurs_in "0123456789abcdef" (auth (sent r)) = false
       /\ occurs_in "another password" (auth (sent r)) = false.
Proof.
  assert (Hv : isValid (validate sample_slateEnv sample_penv) = true)
    by (vm_compute; reflexivity).
  split; [exact Hv |].
  destruct (basic_auth_is_a_placeholder sample_slateEnv sample_penv
              (<["SLATE_PASSWORD" := "another password"]> sample_penv)
              sample_parse sample_stringify [two_themes_body] Hv)
    as (r & Hr & Ha & Hsame & Hh & _).
  exists r. split; [exact Hr |]. split; [exact Ha |]. split; [exact Hsame |].
  split; [exact Hh |]. rewrite Ha. split; vm_compute; reflexivity.
Defined.

(** C9.  When the buffered body is not valid JSON, [JSON.parse] throws
    inside the [end] listener: the exception leaves the listener uncaught
    and the promise of [fetchMainThemeId] is neither resolved nor
    rejected. *)
Theorem unparsable_body_leaves_promise_pending
  {E} (slateEnv : SlateEnv E) (penv : E)
  (JSON_parse : string -> option json) (JSON_stringify : json -> string)
  (chunks : list string) :
  isValid (validate slateEnv penv) = true ->
  JSON_parse (buffer chunks) = None ->
  fetchMainThemeId slateEnv penv JSON_parse JSON_stringify chunks
  = Ret (FetchRun (lookup_request slateEnv penv) StillPending (Some SyntaxError)).
Proof.
  intros Hv Hp. unfold fetchMainThemeId, _validateEnvValues. rewrite Hv.
  simpl. unfold on_end, parse. rewrite Hp. reflexivity.
Qed.

(** C9 on an HTML error page received in three chunks. *)
Lemma unparsable_body_leaves_promise_pending_witness :
  isValid (validate sample_slateEnv sample_penv) = true
  /\ sample_parse (buffer ["<html>"; "502 Bad Gateway"; "</html>"]) = None
  /\ sample_fetch ["<html>"; "502 Bad Gateway"; "</html>"]
     = Ret (FetchRun (lookup_request sample_slateEnv sample_penv)
                     StillPending (Some SyntaxError)).
Proof.
  assert (Hv : isValid (validate sample_slateEnv sample_penv) = true)
    by (vm_compute; reflexivity).
  assert (Hp : sample_parse (buffer ["<html>"; "502 Bad Gateway"; "</html>"])
               = None) by (vm_compute; reflexivity).
  split; [exact Hv |]. split; [exact Hp |].
  exact (unparsable_body_leaves_promise_pending sample_slateEnv sample_penv
           sample_parse sample_stringify _ Hv Hp).
Defined.
(** * Further properties *)

(** ** Arrays used as sets *)

Lemma mem_string_elem_of x l : mem_string x l = true <-> x ∈ l.
Proof.
  unfold mem_string. rewrite existsb_exists, list_elem_of_In. split.
  - intros (y & Hy & Heq). apply String.eqb_eq in Heq. subst y. exact Hy.
  - intros Hx. exists x. split; [exact Hx | apply String.eqb_refl].
Qed.

Lemma mem_string_false x l : mem_string x l = false <-> x ∉ l.
Proof.
  rewrite <- mem_string_elem_of. destruct (mem_string x l); split; congruence.
Qed.

(** Adding the elements of [l] to a set in the making appends the new ones
    behind what is there. *)
Lemma fold_set_add_fresh l : forall acc,
  fold_left set_add l acc = (acc ++ fresh_in acc l)%list.
Proof.
  induction l as [| x l IH]; intros acc; simpl.
  - rewrite app_nil_r. reflexivity.
  - unfold set_add at 2. destruct (mem_string x acc).
    + apply IH.
    + rewrite IH, <- app_assoc. reflexivity.
Qed.

Lemma fresh_in_elem_of l : forall acc x,
  x ∈ fresh_in acc l <-> x ∈ l /\ x ∉ acc.
Proof.
  induction l as [| y l IH]; intros acc x; simpl.
  - rewrite elem_of_nil. tauto.
  - destruct (mem_string y acc) eqn:Hy.
    + apply mem_string_elem_of in Hy. rewrite IH, elem_of_cons.
      split; [tauto |]. intros [[-> | Hx] Hn]; [contradiction | tauto].
    + apply mem_string_false in Hy.
      rewrite elem_of_cons, IH, elem_of_cons, elem_of_app, list_elem_of_singleton.
      split.
      * intros [-> | [Hx Hn]]; [tauto |]. split; [tauto |]. tauto.
      * intros [[-> | Hx] Hn]; [tauto |].
        destruct (decide (x = y)) as [-> | Hne]; [tauto |]. right. tauto.
Qed.

Lemma fresh_in_NoDup l : forall acc, NoDup (fresh_in acc l).
Proof.
  induction l as [| y l IH]; intros acc; simpl.
  - constructor.
  - destruct (mem_string y acc); [apply IH |].
    constructor; [| apply IH].
    rewrite fresh_in_elem_of, elem_of_app, list_elem_of_singleton. tauto.
Qed.

Lemma fresh_in_disjoint l acc x : x ∈ fresh_in acc l -> x ∉ acc.
Proof. rewrite fresh_in_elem_of. tauto. Qed.

Lemma fold_set_add_NoDup l acc :
  NoDup acc -> NoDup (fold_left set_add l acc).
Proof.
  intros Hacc. rewrite fold_set_add_fresh. apply NoDup_app.
  split; [exact Hacc |]. split; [| apply fresh_in_NoDup].
  intros x Hx Hf. exact (fresh_in_disjoint _ _ _ Hf Hx).
Qed.

Lemma fresh_in_all_new l : forall acc,
  NoDup l -> (forall x, x ∈ l -> x ∉ acc) -> fresh_in acc l = l.
Proof.
  induction l as [| y l IH]; intros acc Hnd Hnew; simpl; [reflexivity |].
  apply NoDup_cons in Hnd as [Hy Hnd].
  assert (Hm : mem_string y acc = false).
  { apply mem_string_false, Hnew. left. }
  rewrite Hm. f_equal. apply IH; [exact Hnd |].
  intros x Hx. rewrite elem_of_app, list_elem_of_singleton.
  intros [Hacc | ->]; [| contradiction].
  apply (Hnew x); [right; exact Hx | exact Hacc].
Qed.

Lemma elem_of_array_from_set l x : x ∈ array_from_set l <-> x ∈ l.
Proof.
  unfold array_from_set. rewrite fold_set_add_fresh. simpl.
  rewrite fresh_in_elem_of, elem_of_nil. tauto.
Qed.

Lemma array_from_set_NoDup l : NoDup (array_from_set l).
Proof. apply fold_set_add_NoDup. constructor. Qed.

Lemma array_from_set_id l : NoDup l -> array_from_set l = l.
Proof.
  intros Hnd. unfold array_from_set. rewrite fold_set_add_fresh. simpl.
  apply fresh_in_all_new; [exact Hnd |]. intros x _. apply not_elem_of_nil.
Qed.

Lemma array_from_set_app old files :
  NoDup old ->
  array_from_set (old ++ files) = (old ++ fresh_in old files)%list.
Proof.
  intros Hnd. pose proof (array_from_set_id old Hnd) as Hold.
  unfold array_from_set in *. rewrite fold_left_app, Hold.
  apply fold_set_add_fresh.
Qed.

(** X1.  [[...new Set(l)]] has the elements of [l] and no others, each of
    them once, in the order in which they first occur in [l]. *)
Theorem array_from_set_is_a_set (l : list string) :
  NoDup (array_from_set l)
  /\ (forall x, x ∈ array_from_set l <-> x ∈ l)
  /\ array_from_set l = fresh_in [] l.
Proof.
  unfold array_from_set. rewrite fold_set_add_fresh. simpl.
  split; [apply fresh_in_NoDup |]. split; [| reflexivity].
  intros x. rewrite fresh_in_elem_of, elem_of_nil. tauto.
Qed.

(** X2.  Merging new files into a duplicate-free array leaves the array
    in place and appends behind it the files it did not hold, each once, in
    the order in which they first occur; an array without duplicates is
    left as it is. *)
Theorem array_from_set_appends (old files : list string) :
  NoDup old ->
  array_from_set (old ++ files) = (old ++ fresh_in old files)%list
  /\ array_from_set old = old.
Proof.
  intros Hnd.
  assert (Hold : array_from_set old = old).
  { unfold array_from_set. rewrite fold_set_add_fresh. simpl.
    apply fresh_in_all_new; [exact Hnd |]. intros x _. apply not_elem_of_nil. }
  split; [| exact Hold].
  unfold array_from_set in *. rewrite fold_left_app, Hold.
  apply fold_set_add_fresh.
Qed.

Lemma array_from_set_appends_witness :
  NoDup ["a.liquid"; "b.liquid"]
  /\ array_from_set (["a.liquid"; "b.liquid"] ++ ["c.liquid"; "a.liquid"; "c.liquid"])
     = ["a.liquid"; "b.liquid"; "c.liquid"].
Proof.
  assert (Hnd : NoDup ["a.liquid"; "b.liquid"]).
  { apply NoDup_ListNoDup. repeat constructor; simpl; intuition discriminate. }
  split; [exact Hnd |].
  rewrite (proj1 (array_from_set_appends ["a.liquid"; "b.liquid"]
                    ["c.liquid"; "a.liquid"; "c.liquid"] Hnd)).
  reflexivity.
Defined.

(** ** Splitting the ignore list *)

Lemma string_app_cons c (s t : string) : String c s ++ t = String c (s ++ t).
Proof. reflexivity. Qed.

Lemma string_app_nil_r (s : string) : s ++ EmptyString = s.
Proof.
  induction s as [| c s IH]; [reflexivity |].
  rewrite string_app_cons, IH. reflexivity.
Qed.

Lemma string_app_assoc (s t u : string) : (s ++ t) ++ u = s ++ (t ++ u).
Proof.
  induction s as [| c s IH]; [reflexivity |].
  rewrite !string_app_cons, IH. reflexivity.
Qed.

Lemma split_colon_nonempty s : forall acc, split_colon acc s <> [].
Proof.
  induction s as [| c rest IH]; intros acc; simpl; [discriminate |].
  destruct (Ascii.eqb c ":"%char); [discriminate | apply IH].
Qed.

Lemma join_colon_cons p l :
  l <> [] -> join_colon (p :: l) = p ++ ":" ++ join_colon l.
Proof. destruct l; [congruence | reflexivity]. Qed.

Lemma split_colon_join s : forall acc,
  join_colon (split_colon acc s) = acc ++ s.
Proof.
  induction s as [| c rest IH]; intros acc; simpl.
  - rewrite string_app_nil_r. reflexivity.
  - destruct (Ascii.eqb c ":"%char) eqn:Hc.
    + apply Ascii.eqb_eq in Hc. subst c.
      rewrite join_colon_cons by apply split_colon_nonempty.
      rewrite IH. reflexivity.
    + rewrite IH, string_app_assoc. reflexivity.
Qed.

Lemma has_colon_app s t : has_colon (s ++ t) = has_colon s || has_colon t.
Proof.
  induction s as [| c s IH]; [reflexivity |].
  rewrite string_app_cons. simpl. rewrite IH, orb_assoc. reflexivity.
Qed.

Lemma split_colon_pieces s : forall acc p,
  has_colon acc = false -> p ∈ split_colon acc s -> has_colon p = false.
Proof.
  induction s as [| c rest IH]; intros acc p Hacc; simpl.
  - intros Hp. apply list_elem_of_singleton in Hp. subst p. exact Hacc.
  - destruct (Ascii.eqb c ":"%char) eqn:Hc.
    + intros Hp. apply elem_of_cons in Hp as [-> | Hp]; [exact Hacc |].
      eapply IH; [| exact Hp]. reflexivity.
    + apply IH. rewrite has_colon_app, Hacc. simpl. rewrite Hc. reflexivity.
Qed.

Lemma split_colon_length s : forall acc,
  length (split_colon acc s)
  = S (length (List.filter (fun c => Ascii.eqb c ":"%char)
                 (list_ascii_of_string s))).
Proof.
  induction s as [| c rest IH]; intros acc; simpl; [reflexivity |].
  destruct (Ascii.eqb c ":"%char); simpl; rewrite IH; reflexivity.
Qed.

(** X3.  [s.split(':')] cuts [s] at its colons and nowhere else: joining
    the pieces with colons gives [s] back, no piece has a colon in it, and
    there is one piece more than there are colons (a string without colon,
    the empty one included, gives itself as the only piece). *)
Theorem split_colon_round_trip (s : string) :
  join_colon (split_colon EmptyString s) = s
  /\ (forall p, p ∈ split_colon EmptyString s -> has_colon p = false)
  /\ length (split_colon EmptyString s)
     = S (length (List.filter (fun c => Ascii.eqb c ":"%char)
                    (list_ascii_of_string s)))
  /\ (has_colon s = false -> split_colon EmptyString s = [s]).
Proof.
  split; [apply (split_colon_join s EmptyString) |].
  split; [intros p; apply split_colon_pieces; reflexivity |].
  split; [apply split_colon_length |].
  intros Hs.
  assert (H : forall t acc, has_colon t = false ->
                split_colon acc t = [acc ++ t]).
  { induction t as [| c t IH]; intros acc Ht; simpl.
    - rewrite string_app_nil_r. reflexivity.
    - simpl in Ht. apply orb_false_iff in Ht as [Hc Ht]. rewrite Hc.
      rewrite (IH _ Ht), string_app_assoc. reflexivity. }
  apply (H s EmptyString Hs).
Qed.

(** ** The transitions, case by case *)

Section TransitionFacts.

Context {E : Type}.
Variable slateEnv : SlateEnv E.
Variable penv : E.
Variable theme_dist : string.

Local Abbreviation step' := (step slateEnv penv theme_dist).
Local Abbreviation run' := (run slateEnv penv theme_dist).
Local Abbreviation transition' := (transition slateEnv penv theme_dist).
Local Abbreviation launched' := (launched slateEnv penv theme_dist).

Lemma deploy_launched cmd files s :
  mem_string cmd ["upload"; "replace"] = true ->
  launched' cmd files s (fst (deploy slateEnv penv theme_dist cmd files s))
            (snd (deploy slateEnv penv theme_dist cmd files s)).
Proof.
  intros Hc. unfold deploy. rewrite Hc. simpl.
  destruct (promiseThemekitConfig slateEnv penv theme_dist) as [i | c] eqn:Hp;
    simpl.
  - exact (launched_started slateEnv penv theme_dist cmd files s i Hp).
  - exact (launched_exit slateEnv penv theme_dist cmd files s c Hp).
Qed.

Lemma launched_deploy cmd files s s' r :
  mem_string cmd ["upload"; "replace"] = true ->
  launched' cmd files s s' r ->
  deploy slateEnv penv theme_dist cmd files s = (s', r).
Proof.
  intros Hc H. unfold deploy. rewrite Hc. simpl.
  destruct H as [i Hi | c Hx]; [rewrite Hi | rewrite Hx]; reflexivity.
Qed.

Lemma array_from_set_not_nil old files :
  files <> [] -> array_from_set (old ++ files) <> [].
Proof.
  destruct files as [| f files]; [congruence |]. intros _ Hnil.
  assert (Hf : f ∈ array_from_set (old ++ f :: files)).
  { rewrite elem_of_array_from_set, elem_of_app, elem_of_cons. tauto. }
  rewrite Hnil in Hf. apply elem_of_nil in Hf. exact Hf.
Qed.

Lemma length_eqb_nil {A} (l : list A) :
  Nat.eqb (length l) 0 = true <-> l = [].
Proof.
  destruct l; simpl; split; congruence.
Qed.

(** The function [step] and the relation [transition] are the same
    thing. *)
Lemma step_transition s e s' r :
  step' s e = Some (s', r) <-> exit_code s = None /\ transition' s e s' r.
Proof.
  unfold step. split.
  - destruct (exit_code s); [discriminate |]. intros H. split; [reflexivity |].
    destruct e as [files | | | | id o].
    + injection H as H. unfold sync in H.
      destruct (Nat.eqb (length files) 0) eqn:Hl.
      * apply length_eqb_nil in Hl. subst files. injection H as <- <-.
        constructor.
      * assert (Hne : files <> []).
        { intros ->. discriminate Hl. }
        unfold maybeDeploy in H. simpl in H.
        destruct (deploying s) eqn:Hd.
        -- injection H as <- <-. apply sync_busy; assumption.
        -- destruct (Nat.eqb (length _) 0) eqn:Hm in H.
           ++ apply length_eqb_nil in Hm.
              destruct (array_from_set_not_nil _ _ Hne Hm).
           ++ simpl in H. apply sync_idle; [assumption.. |].
              pose proof (deploy_launched "upload"
                (array_from_set (filesToDeploy s ++ files))
                (set_filesToDeploy []
                   (set_filesToDeploy
                      (array_from_set (filesToDeploy s ++ files)) s))
                eq_refl) as HL.
              rewrite H in HL. exact HL.
    + injection H as H. apply forced_replace.
      pose proof (deploy_launched "replace" [] s eq_refl) as HL.
      unfold replace in H. rewrite H in HL. exact HL.
    + injection H as H. apply forced_upload.
      pose proof (deploy_launched "upload" [] s eq_refl) as HL.
      unfold upload in H. rewrite H in HL. exact HL.
    + injection H as H. unfold maybeDeploy in H.
      destruct (deploying s) eqn:Hd.
      * injection H as <- <-. apply maybe_busy. exact Hd.
      * destruct (Nat.eqb (length (filesToDeploy s)) 0) eqn:Hm.
        -- simpl in H. injection H as <- <-.
           apply maybe_nothing; [exact Hd | apply length_eqb_nil, Hm].
        -- simpl in H. apply maybe_idle; [exact Hd | |].
           ++ intros Hnil. rewrite Hnil in Hm. discriminate Hm.
           ++ pose proof (deploy_launched "upload" (filesToDeploy s)
                            (set_filesToDeploy [] s) eq_refl) as HL.
              rewrite H in HL. exact HL.
    + unfold resume in H.
      destruct (activations s !! id) as [a |] eqn:Ha; [| discriminate].
      destruct (act_phase a) eqn:Hp.
      * destruct (promiseThemekitDeploy _ _ _ _ _) as [i | c] eqn:Hi;
          injection H as <- <-.
        -- destruct o;
             exact (configure_settled slateEnv penv theme_dist s id a _ i Ha Hp Hi).
        -- destruct o;
             exact (configure_settled_exit slateEnv penv theme_dist s id a _ c
                      Ha Hp Hi).
      * injection H as <- <-.
        destruct o;
          exact (transfer_settled slateEnv penv theme_dist s id a _ Ha Hp).
  - intros [Hx H]. rewrite Hx.
    destruct H as [| files Hne Hd | files s1 r1 Hne Hd HL | Hd | Hd Hf
                   | s1 r1 Hd Hf HL | s1 r1 HL | s1 r1 HL
                   | id a o i Ha Hp Hi | id a o c Ha Hp Hi | id a o Ha Hp].
    + reflexivity.
    + unfold sync.
      assert (Hl : Nat.eqb (length files) 0 = false).
      { destruct files; [congruence | reflexivity]. }
      rewrite Hl. unfold maybeDeploy. simpl. rewrite Hd. reflexivity.
    + unfold sync.
      assert (Hl : Nat.eqb (length files) 0 = false).
      { destruct files; [congruence | reflexivity]. }
      rewrite Hl. unfold maybeDeploy. simpl. rewrite Hd.
      assert (Hm : Nat.eqb (length (array_from_set (filesToDeploy s ++ files))) 0
                   = false).
      { pose proof (array_from_set_not_nil (filesToDeploy s) files Hne).
        destruct (array_from_set _); [congruence | reflexivity]. }
      rewrite Hm. simpl. f_equal. apply launched_deploy; [reflexivity | exact HL].
    + unfold maybeDeploy. rewrite Hd. reflexivity.
    + unfold maybeDeploy. rewrite Hd, Hf. reflexivity.
    + unfold maybeDeploy. rewrite Hd.
      assert (Hm : Nat.eqb (length (filesToDeploy s)) 0 = false).
      { destruct (filesToDeploy s); [congruence | reflexivity]. }
      rewrite Hm. simpl. f_equal. apply launched_deploy; [reflexivity | exact HL].
    + unfold replace. f_equal. apply launched_deploy; [reflexivity | exact HL].
    + unfold upload. f_equal. apply launched_deploy; [reflexivity | exact HL].
    + unfold resume. rewrite Ha, Hp, Hi. destruct o; reflexivity.
    + unfold resume. rewrite Ha, Hp, Hi. destruct o; reflexivity.
    + unfold resume. rewrite Ha, Hp. destruct o; reflexivity.
Qed.

(** A property kept by every transition that [Q] admits holds along every
    run made of such transitions. *)
Lemma run_invariant (P : state -> Prop) (Q : event -> bool) :
  (forall s e s' r,
      Q e = true -> exit_code s = None -> transition' s e s' r -> P s -> P s') ->
  forall es s s',
    forallb Q es = true -> run' s es = Some s' -> P s -> P s'.
Proof.
  intros Hstep. induction es as [| e es IH]; intros s s' Hq Hrun HP.
  - injection Hrun as <-. exact HP.
  - simpl in Hq, Hrun. apply andb_true_iff in Hq as [Hq1 Hq2].
    destruct (step' s e) as [[s1 r] |] eqn:Hs; [| discriminate].
    apply step_transition in Hs as [Hx Ht].
    eapply IH; [exact Hq2 | exact Hrun |]. eapply Hstep; eassumption.
Qed.

Lemma forallb_any_event es : forallb any_event es = true.
Proof. induction es; simpl; auto. Qed.

End TransitionFacts.

(** ** What the commands carry *)

Section CommandFacts.

Context {E : Type}.
Variable slateEnv : SlateEnv E.
Variable penv : E.
Variable theme_dist : string.

Lemma flags_ret f :
  _generateConfigFlags slateEnv penv = Ret f ->
  isValid (validate slateEnv penv) = true.
Proof.
  unfold _generateConfigFlags, _validateEnvValues.
  destruct (isValid (validate slateEnv penv)); [reflexivity | discriminate].
Qed.

Lemma flags_exit c :
  _generateConfigFlags slateEnv penv = Exit c ->
  c = 1%Z /\ isValid (validate slateEnv penv) = false.
Proof.
  unfold _generateConfigFlags, _validateEnvValues.
  destruct (isValid (validate slateEnv penv)); [discriminate |].
  intros [= <-]. split; reflexivity.
Qed.

Lemma configure_ret i :
  promiseThemekitConfig slateEnv penv theme_dist = Ret i ->
  command i = "configure" /\ cwd i = theme_dist
  /\ _generateConfigFlags slateEnv penv = Ret (flags i)
  /\ isValid (validate slateEnv penv) = true.
Proof.
  unfold promiseThemekitConfig.
  destruct (_generateConfigFlags slateEnv penv) as [f | c] eqn:Hf;
    [| discriminate].
  intros [= <-]. repeat split. eapply flags_ret, Hf.
Qed.

Lemma configure_exit c :
  promiseThemekitConfig slateEnv penv theme_dist = Exit c ->
  c = 1%Z /\ isValid (validate slateEnv penv) = false.
Proof.
  unfold promiseThemekitConfig.
  destruct (_generateConfigFlags slateEnv penv) as [f | c'] eqn:Hf;
    [discriminate |].
  intros [= <-]. apply flags_exit, Hf.
Qed.

Lemma transfer_ret cmd files i :
  promiseThemekitDeploy slateEnv penv theme_dist cmd files = Ret i ->
  command i = "deploy" /\ cwd i = theme_dist
  /\ flags i !! "files" = Some (FList files)
  /\ flags i !! "allow-live" = Some (FBool true)
  /\ isValid (validate slateEnv penv) = true.
Proof.
  unfold promiseThemekitDeploy.
  destruct (_generateConfigFlags slateEnv penv) as [f | c] eqn:Hf;
    [| discriminate].
  intros [= <-]. split; [reflexivity |]. split; [reflexivity |]. simpl.
  split; [| split; [apply lookup_insert_eq | eapply flags_ret, Hf]].
  rewrite lookup_insert_ne by discriminate.
  destruct (String.eqb cmd "upload").
  - rewrite lookup_insert_ne by discriminate. apply lookup_insert_eq.
  - apply lookup_insert_eq.
Qed.

Lemma transfer_exit cmd files c :
  promiseThemekitDeploy slateEnv penv theme_dist cmd files = Exit c ->
  c = 1%Z /\ isValid (validate slateEnv penv) = false.
Proof.
  unfold promiseThemekitDeploy.
  destruct (_generateConfigFlags slateEnv penv) as [f | c'] eqn:Hf;
    [discriminate |].
  intros [= <-]. apply flags_exit, Hf.
Qed.

End CommandFacts.

(** ** The three behaviours of [sync] *)

(** X4.  [sync] with files, called while [deploying] is set, is rejected
    but not forgotten: afterwards [filesToDeploy] holds what it held and
    the new files, and nothing else, each once; when it had no duplicates
    the old entries stay in place and the new files follow.  Nothing else
    of the state changes. *)
Theorem sync_while_busy_accumulates
  {E} (slateEnv : SlateEnv E) (penv : E) (theme_dist : string)
  (s : state) (files : list string) :
  exit_code s = None -> deploying s = true -> files <> [] ->
  exists s',
    step slateEnv penv theme_dist s (Sync files) = Some (s', in_progress)
    /\ (forall f, f ∈ filesToDeploy s' <-> f ∈ filesToDeploy s \/ f ∈ files)
    /\ NoDup (filesToDeploy s')
    /\ (NoDup (filesToDeploy s) ->
        filesToDeploy s'
        = (filesToDeploy s ++ fresh_in (filesToDeploy s) files)%list)
    /\ s' = set_filesToDeploy (filesToDeploy s') s.
Proof.
  intros Hx Hd Hne. eexists. split.
  - apply step_transition. split; [exact Hx |]. apply sync_busy; assumption.
  - simpl. split; [| split; [| split]].
    + intros f. rewrite elem_of_array_from_set, elem_of_app. reflexivity.
    + apply array_from_set_NoDup.
    + intros Hnd. apply array_from_set_app, Hnd.
    + reflexivity.
Qed.

(** X5.  [sync] with files, called while no deploy is in flight and with a
    valid environment, deploys at once everything that is pending together
    with the new files, deduplicated: the queue is emptied, [deploying] is
    set, one configure command is issued and the caller gets the pending
    promise of the new activation. *)
Theorem sync_when_idle_deploys_everything
  {E} (slateEnv : SlateEnv E) (penv : E) (theme_dist : string)
  (s : state) (files : list string) :
  isValid (validate slateEnv penv) = true ->
  exit_code s = None -> deploying s = false -> files <> [] ->
  exists s' i,
    step slateEnv penv theme_dist s (Sync files)
    = Some (s', Returned (PendingOn (next_id s)))
    /\ activations s'
       = <[next_id s := Activation "upload"
                          (array_from_set (filesToDeploy s ++ files))
                          AwaitConfigure]> (activations s)
    /\ filesToDeploy s' = []
    /\ deploying s' = true
    /\ invocations s' = (invocations s ++ [i])%list
    /\ command i = "configure".
Proof.
  intros Hv Hx Hd Hne.
  destruct (valid_configure slateEnv penv theme_dist Hv) as (i & Hi & Hc).
  exists (started "upload" (array_from_set (filesToDeploy s ++ files)) i
            (set_filesToDeploy []
               (set_filesToDeploy
                  (array_from_set (filesToDeploy s ++ files)) s))), i.
  split.
  - apply step_transition. split; [exact Hx |].
    apply sync_idle; [assumption.. |].
    exact (launched_started slateEnv penv theme_dist _ _ _ i Hi).
  - repeat split. exact Hc.
Qed.

(** ** What a caller can observe *)

(** X6.  The answers of the module.  A rejection is "No files to deploy."
    for [sync] of an empty array, or "Deploy already in progress." for a
    request through the queue made while [deploying] is set; the error of
    [deploy] about its first argument never comes out of an exported
    function.  Only [maybeDeploy] on an empty idle queue fulfils at once,
    with nothing and without effect.  A pending promise belongs to a fresh
    activation and the environment was valid; the process exits only with
    status 1 and only when the environment is invalid; only a command that
    settles resumes an activation. *)
Theorem answers_of_the_module
  {E} (slateEnv : SlateEnv E) (penv : E) (theme_dist : string)
  (s : state) (e : event) (s' : state) (r : response) :
  step slateEnv penv theme_dist s e = Some (s', r) ->
  match r with
  | Returned (Settled (Rejected err)) =>
      (e = Sync [] /\ err = Error "No files to deploy." /\ s' = s)
      \/ (err = Error "Deploy already in progress." /\ deploying s = true
          /\ (e = MaybeDeploy \/ exists files, files <> [] /\ e = Sync files))
  | Returned (Settled (Fulfilled v)) =>
      v = VUndefined /\ e = MaybeDeploy /\ s' = s
      /\ deploying s = false /\ filesToDeploy s = []
  | Returned (PendingOn id) =>
      id = next_id s /\ next_id s' = S id /\ deploying s' = true
      /\ is_Some (activations s' !! id)
      /\ isValid (validate slateEnv penv) = true
      /\ leaves_alone id e = true
  | Terminated c =>
      c = 1%Z /\ exit_code s' = Some 1%Z
      /\ isValid (validate slateEnv penv) = false
  | Resumed => exists id o, e = Settle id o
  end.
Proof.
  intros H. apply step_transition in H as [Hx H].
  assert (HL : forall cmd files s1 s2 r2 e2,
             launched slateEnv penv theme_dist cmd files s1 s2 r2 ->
             leaves_alone (next_id s1) e2 = true ->
             match r2 with
             | Returned (PendingOn id) =>
                 id = next_id s1 /\ next_id s2 = S id /\ deploying s2 = true
                 /\ is_Some (activations s2 !! id)
                 /\ isValid (validate slateEnv penv) = true
                 /\ leaves_alone id e2 = true
             | Terminated c =>
                 c = 1%Z /\ exit_code s2 = Some 1%Z
                 /\ isValid (validate slateEnv penv) = false
             | _ => False
             end).
  { intros cmd files s1 s2 r2 e2 [i Hi | c Hc] Hq.
    - apply configure_ret in Hi as (_ & _ & _ & Hv). simpl.
      rewrite lookup_insert_eq. repeat split; eauto.
    - apply configure_exit in Hc as [-> Hv]. repeat split; assumption. }
  destruct H as [| files Hne Hd | files s1 r1 Hne Hd HL1 | Hd | Hd Hf
                 | s1 r1 Hd Hf HL1 | s1 r1 HL1 | s1 r1 HL1
                 | id a o i Ha Hp Hi | id a o c Ha Hp Hi | id a o Ha Hp].
  - left. repeat split.
  - right. split; [reflexivity |]. split; [exact Hd |]. right. eauto.
  - apply (HL _ _ _ _ _ (Sync files)) in HL1; [| reflexivity].
    destruct r1 as [[[] |] | |]; try contradiction; exact HL1.
  - right. split; [reflexivity |]. split; [exact Hd |]. left. reflexivity.
  - repeat split; assumption.
  - apply (HL _ _ _ _ _ MaybeDeploy) in HL1; [| reflexivity].
    destruct r1 as [[[] |] | |]; try contradiction; exact HL1.
  - apply (HL _ _ _ _ _ Replace) in HL1; [| reflexivity].
    destruct r1 as [[[] |] | |]; try contradiction; exact HL1.
  - apply (HL _ _ _ _ _ Upload) in HL1; [| reflexivity].
    destruct r1 as [[[] |] | |]; try contradiction; exact HL1.
  - eauto.
  - apply transfer_exit in Hi as [-> Hv]. destruct o; repeat split; assumption.
  - eauto.
Qed.

(** X7.  [console.error] receives the error of every command that fails,
    in the order in which the commands settle, and nothing else. *)
Theorem failures_are_logged
  {E} (slateEnv : SlateEnv E) (penv : E) (theme_dist : string)
  (es : list event) (s s' : state) :
  run slateEnv penv theme_dist s es = Some s' ->
  stderr s' = (stderr s ++ failures es)%list.
Proof.
  revert s. induction es as [| e es IH]; intros s Hrun.
  - injection Hrun as <-. simpl. rewrite app_nil_r. reflexivity.
  - simpl in Hrun.
    destruct (step slateEnv penv theme_dist s e) as [[s1 r] |] eqn:Hs;
      [| discriminate].
    rewrite (IH _ Hrun). apply step_transition in Hs as [_ Hs].
    assert (HL : forall cmd files s0 s2 r2,
               launched slateEnv penv theme_dist cmd files s0 s2 r2 ->
               stderr s2 = stderr s0).
    { intros cmd files s0 s2 r2 [i _ | c _]; reflexivity. }
    destruct Hs as [| files Hne Hd | files s2 r2 Hne Hd HL1 | Hd | Hd Hf
                    | s2 r2 Hd Hf HL1 | s2 r2 HL1 | s2 r2 HL1
                    | id a o i Ha Hp Hi | id a o c Ha Hp Hi | id a o Ha Hp];
      simpl; rewrite ?(HL _ _ _ _ _ HL1); simpl; try reflexivity.
    all: destruct o; simpl; rewrite <- ?app_assoc; reflexivity.
Qed.

(** X8.  With a valid environment the process never exits, and every call
    of an exported function (or of [maybeDeploy]) is answered with a
    promise. *)
Theorem valid_environment_keeps_running
  {E} (slateEnv : SlateEnv E) (penv : E) (theme_dist : string)
  (es : list event) (s : state) :
  isValid (validate slateEnv penv) = true ->
  run slateEnv penv theme_dist init es = Some s ->
  exit_code s = None
  /\ forall e,
       (forall id o, e <> Settle id o) ->
       exists s' p, step slateEnv penv theme_dist s e = Some (s', Returned p).
Proof.
  intros Hv Hrun.
  assert (Hx : exit_code s = None).
  { eapply run_keeps_running; [exact Hv | | exact Hrun]. reflexivity. }
  split; [exact Hx |]. intros e He.
  assert (HL : forall cmd files s0,
             exists s1 p,
               deploy slateEnv penv theme_dist cmd files s0 = (s1, Returned p)).
  { intros cmd files s0. unfold deploy.
    destruct (negb (mem_string cmd ["upload"; "replace"])); [eauto |].
    destruct (valid_configure slateEnv penv theme_dist Hv) as (i & Hi & _).
    rewrite Hi. eauto. }
  assert (HM : forall s0,
             exists s1 p,
               maybeDeploy slateEnv penv theme_dist s0 = (s1, Returned p)).
  { intros s0. unfold maybeDeploy. destruct (deploying s0); [eauto |].
    destruct (negb _); [apply HL | eauto]. }
  unfold step. rewrite Hx. destruct e as [files | | | | id o].
  - unfold sync. destruct (Nat.eqb (length files) 0); [eauto |].
    destruct (HM (set_filesToDeploy
                    (array_from_set (filesToDeploy s ++ files)) s))
      as (s1 & p & ->). eauto.
  - destruct (HL "replace" [] s) as (s1 & p & H1). unfold replace.
    rewrite H1. eauto.
  - destruct (HL "upload" [] s) as (s1 & p & H1). unfold upload.
    rewrite H1. eauto.
  - destruct (HM s) as (s1 & p & ->). eauto.
  - destruct (He id o eq_refl).
Qed.

Lemma invalid_launch_exits {E} (slateEnv : SlateEnv E) penv theme_dist
  cmd files s s' r :
  isValid (validate slateEnv penv) = false ->
  launched slateEnv penv theme_dist cmd files s s' r ->
  s' = process_exit 1 (set_deploying true s) /\ r = Terminated 1.
Proof.
  intros Hv [i Hi | c Hc].
  - apply configure_ret in Hi as (_ & _ & _ & Hv'). congruence.
  - apply configure_exit in Hc as [-> _]. split; reflexivity.
Qed.

(** X9.  With an invalid environment the external tool is never invoked:
    along every run no command is issued and no activation exists; a call
    of [replace] or [upload], and a call of [sync] with files, end the
    process with status 1, after which nothing runs; and [fetchMainThemeId]
    exits before sending its request. *)
Theorem invalid_environment_never_invokes
  {E} (slateEnv : SlateEnv E) (penv : E) (theme_dist : string)
  (JSON_parse : string -> option json) (JSON_stringify : json -> string)
  (es : list event) (s : state) :
  isValid (validate slateEnv penv) = false ->
  run slateEnv penv theme_dist init es = Some s ->
  invocations s = [] /\ activations s = ∅ /\ settled s = ∅
  /\ (forall e,
        exit_code s = None ->
        forced_request e = true \/ (exists files, files <> [] /\ e = Sync files) ->
        exists s',
          step slateEnv penv theme_dist s e = Some (s', Terminated 1)
          /\ exit_code s' = Some 1%Z
          /\ invocations s' = []
          /\ forall e', step slateEnv penv theme_dist s' e' = None)
  /\ forall chunks,
       fetchMainThemeId slateEnv penv JSON_parse JSON_stringify chunks = Exit 1.
Proof.
  intros Hv Hrun.
  assert (Hinv : invocations s = [] /\ activations s = ∅ /\ settled s = ∅
                 /\ (exit_code s = None -> deploying s = false)).
  { apply (run_invariant slateEnv penv theme_dist
             (fun s => invocations s = [] /\ activations s = ∅ /\ settled s = ∅
                       /\ (exit_code s = None -> deploying s = false))
             any_event) with (es := es) (s := init);
      [| apply forallb_any_event | exact Hrun | repeat split].
    clear Hrun. intros s1 e s1' r _ Hx1 Ht (Hi & Ha & Hs & Hd1).
    assert (HL : forall cmd files s0 s2 r2,
               launched slateEnv penv theme_dist cmd files s0 s2 r2 ->
               invocations s0 = [] /\ activations s0 = ∅ /\ settled s0 = ∅ ->
               invocations s2 = [] /\ activations s2 = ∅ /\ settled s2 = ∅
               /\ (exit_code s2 = None -> deploying s2 = false)).
    { intros cmd files s0 s2 r2 HL H0.
      destruct (invalid_launch_exits _ _ _ _ _ _ _ _ Hv HL) as [-> _].
      destruct H0 as (? & ? & ?). repeat split; try assumption. discriminate. }
    destruct Ht as [| files Hne Hd | files s2 r2 Hne Hd HL1 | Hd | Hd Hf
                    | s2 r2 Hd Hf HL1 | s2 r2 HL1 | s2 r2 HL1
                    | id a o i Ha' Hp Hi' | id a o c Ha' Hp Hi' | id a o Ha' Hp];
      try (repeat split; assumption);
      try (eapply HL; [exact HL1 | repeat split; assumption]).
    all: rewrite Ha, lookup_empty in Ha'; discriminate. }
  destruct Hinv as (Hi & Ha & Hs & Hd). repeat split; try assumption.
  - intros e Hx Hreq.
    assert (HL : forall cmd files s0,
               launched slateEnv penv theme_dist cmd files s0
                 (process_exit 1 (set_deploying true s0)) (Terminated 1)).
    { intros cmd files s0. apply launched_exit.
      unfold promiseThemekitConfig, _generateConfigFlags, _validateEnvValues.
      rewrite Hv. reflexivity. }
    destruct Hreq as [Hf | (files & Hne & ->)].
    + exists (process_exit 1 (set_deploying true s)).
      split; [| split; [reflexivity | split; [exact Hi | intros e'; reflexivity]]].
      apply step_transition. split; [exact Hx |].
      destruct e; try discriminate.
      * apply forced_replace, HL.
      * apply forced_upload, HL.
    + eexists. split; [| split; [| split]].
      * apply step_transition. split; [exact Hx |].
        apply sync_idle; [exact Hne | exact (Hd Hx) | apply HL].
      * reflexivity.
      * exact Hi.
      * intros e'. reflexivity.
  - intros chunks. unfold fetchMainThemeId, _validateEnvValues. rewrite Hv.
    reflexivity.
Qed.

(** ** Invariants of the deploy coalescer *)

Lemma transfers_push_configure i s :
  command i = "configure" ->
  transfers (push_invocation i s) = transfers s.
Proof.
  intros Hc. unfold transfers. simpl. rewrite List.filter_app, map_app. simpl.
  rewrite Hc. simpl. apply app_nil_r.
Qed.

Lemma transfers_push_deploy i s :
  command i = "deploy" ->
  transfers (push_invocation i s) = (transfers s ++ [flags i !! "files"])%list.
Proof.
  intros Hc. unfold transfers. simpl. rewrite List.filter_app, map_app. simpl.
  rewrite Hc. reflexivity.
Qed.

Lemma configures_push_configure i s :
  command i = "configure" ->
  length (configures (push_invocation i s)) = S (length (configures s)).
Proof.
  intros Hc. unfold configures. simpl. rewrite List.filter_app, length_app. simpl.
  rewrite Hc. simpl. lia.
Qed.

Lemma configures_push_deploy i s :
  command i = "deploy" ->
  configures (push_invocation i s) = configures s.
Proof.
  intros Hc. unfold configures. simpl. rewrite List.filter_app. simpl.
  rewrite Hc. simpl. apply app_nil_r.
Qed.

Section Invariants.

Context {E : Type}.
Variable slateEnv : SlateEnv E.
Variable penv : E.
Variable theme_dist : string.

Local Abbreviation run' := (run slateEnv penv theme_dist).
Local Abbreviation step' := (step slateEnv penv theme_dist).
Local Abbreviation transition' := (transition slateEnv penv theme_dist).
Local Abbreviation launched' := (launched slateEnv penv theme_dist).

Lemma launched_bookkeeping cmd files s s' r :
  launched' cmd files s s' r -> bookkeeping s -> bookkeeping s'.
Proof.
  intros [i Hi | c Hc] (Hact & Hset & Hful & Hsize & Hconf);
    [| exact (conj Hact (conj Hset (conj Hful (conj Hsize Hconf))))].
  apply configure_ret in Hi as (Hcmd & _).
  assert (Hfresh : activations s !! next_id s = None).
  { destruct (activations s !! next_id s) eqn:Hl; [| reflexivity].
    assert (next_id s < next_id s) by (apply Hact; eauto). lia. }
  unfold bookkeeping. simpl. repeat split.
  - intros id Hid. apply lookup_insert_is_Some in Hid as [<- | [_ Hid]];
      [lia | apply Hact in Hid; lia].
  - destruct (Hset id H). lia.
  - destruct (Hset id H) as [Hlt Hnone].
    rewrite lookup_insert_ne by lia. exact Hnone.
  - exact Hful.
  - rewrite map_size_insert_None by exact Hfresh. lia.
  - change (S (next_id s)
            = length (configures (push_invocation i s))).
    rewrite configures_push_configure by exact Hcmd. lia.
Qed.

Lemma transition_bookkeeping s e s' r :
  transition' s e s' r -> bookkeeping s -> bookkeeping s'.
Proof.
  intros Ht Hb.
  destruct Ht as [| files Hne Hd | files s2 r2 Hne Hd HL1 | Hd | Hd Hf
                  | s2 r2 Hd Hf HL1 | s2 r2 HL1 | s2 r2 HL1
                  | id a o i Ha Hp Hi | id a o c Ha Hp Hi | id a o Ha Hp];
    try exact Hb;
    try (eapply launched_bookkeeping; [exact HL1 | exact Hb]).
  - destruct Hb as (Hact & Hset & Hful & Hsize & Hconf).
    apply transfer_ret in Hi as (Hcmd & _).
    unfold bookkeeping. destruct o; simpl.
    all: repeat split; try exact Hful.
    all: try (intros id0 Hid; apply lookup_insert_is_Some in Hid as [<- | [_ Hid]];
              apply Hact; eauto).
    all: try (destruct (Hset id0 H); assumption).
    all: try (destruct (Hset id0 H) as [_ Hnone];
              rewrite lookup_insert_ne by congruence; exact Hnone).
    all: try (rewrite map_size_insert_Some by eauto; exact Hsize).
    all: unfold configures; simpl; rewrite List.filter_app; simpl;
      rewrite Hcmd; simpl; rewrite app_nil_r; exact Hconf.
  - destruct o; exact Hb.
  - destruct Hb as (Hact & Hset & Hful & Hsize & Hconf).
    assert (Hnew : settled s !! id = None).
    { destruct (settled s !! id) eqn:Hl; [| reflexivity].
      destruct (Hset id) as [_ Hnone]; [eauto | congruence]. }
    assert (Hpos : size (activations s) <> 0).
    { intros Hz. apply map_size_empty_inv in Hz. rewrite Hz, lookup_empty in Ha.
      discriminate. }
    unfold bookkeeping. destruct o; simpl.
    all: repeat split; try exact Hconf.
    all: try (intros id0 Hid; apply lookup_delete_is_Some in Hid as [_ Hid];
              apply Hact, Hid).
    all: try (apply lookup_insert_is_Some in H as [<- | [_ Hid]];
              [apply Hact; eauto | apply Hset, Hid]).
    all: try (apply lookup_insert_is_Some in H as [<- | [Hne Hid]];
              [apply lookup_delete_eq
              | rewrite lookup_delete_ne by exact Hne; apply Hset, Hid]).
    all: try (intros id0 r0 Hr; apply lookup_insert_Some in Hr as [[_ <-] | [_ Hr]];
              [reflexivity | eapply Hful, Hr]).
    all: rewrite map_size_delete_Some by eauto;
      rewrite map_size_insert_None by exact Hnew; lia.
Qed.

(** X10.  Along every run the identifiers below [next_id] are those of the
    deploys started so far: each is in flight or completed, never both;
    every completed deploy was fulfilled with [maybeDeploy], none was
    rejected; as many configure commands were issued as deploys were
    started; and a completed deploy is never resumed again. *)
Theorem deploys_are_numbered_and_settle_once (es : list event) (s : state) :
  run' init es = Some s ->
  bookkeeping s
  /\ forall id o, is_Some (settled s !! id) -> step' s (Settle id o) = None.
Proof.
  intros Hrun.
  assert (Hb : bookkeeping s).
  { apply (run_invariant slateEnv penv theme_dist bookkeeping any_event)
      with (es := es) (s := init);
      [| apply forallb_any_event | exact Hrun |].
    - intros s1 e s1' r _ _ Ht. apply transition_bookkeeping with (1 := Ht).
    - unfold bookkeeping. simpl. repeat split.
      + intros id [a Ha]. rewrite lookup_empty in Ha. discriminate.
      + destruct H as [r Hr]. rewrite lookup_empty in Hr. discriminate.
      + intros id r. rewrite lookup_empty. discriminate. }
  split; [exact Hb |]. intros id o Hid.
  destruct Hb as (_ & Hset & _). destruct (Hset id Hid) as [_ Hnone].
  unfold step, resume. rewrite Hnone. destruct (exit_code s); reflexivity.
Qed.

End Invariants.

Section FileInvariants.

Context {E : Type}.
Variable slateEnv : SlateEnv E.
Variable penv : E.
Variable theme_dist : string.

Local Abbreviation run' := (run slateEnv penv theme_dist).
Local Abbreviation step' := (step slateEnv penv theme_dist).
Local Abbreviation transition' := (transition slateEnv penv theme_dist).
Local Abbreviation launched' := (launched slateEnv penv theme_dist).

Lemma launched_shape cmd files s s' r :
  launched' cmd files s s' r ->
  (exists i, command i = "configure" /\ s' = started cmd files i s
             /\ isValid (validate slateEnv penv) = true)
  \/ (s' = process_exit 1 (set_deploying true s)
      /\ isValid (validate slateEnv penv) = false).
Proof.
  intros [i Hi | c Hc].
  - apply configure_ret in Hi as (Hcmd & _ & _ & Hv). left. eauto.
  - apply configure_exit in Hc as [-> Hv]. right. eauto.
Qed.

Lemma transfers_started cmd files i s :
  command i = "configure" -> transfers (started cmd files i s) = transfers s.
Proof. intros Hc. apply (transfers_push_configure i s Hc). Qed.

Lemma launched_duplicate_free cmd files s s' r :
  launched' cmd files s s' r -> NoDup files ->
  duplicate_free s -> duplicate_free s'.
Proof.
  intros HL Hnd (Hq & Ha & Ht).
  apply launched_shape in HL as [(i & Hc & -> & _) | [-> _]];
    [| exact (conj Hq (conj Ha Ht))].
  split; [exact Hq |]. split.
  - simpl. intros id a Hl.
    apply lookup_insert_Some in Hl as [[_ <-] | [_ Hl]];
      [exact Hnd | eapply Ha, Hl].
  - rewrite transfers_started by exact Hc. exact Ht.
Qed.

Lemma transition_duplicate_free s e s' r :
  transition' s e s' r -> duplicate_free s -> duplicate_free s'.
Proof.
  intros Ht Hdf.
  destruct Ht as [| files Hne Hd | files s2 r2 Hne Hd HL1 | Hd | Hd Hf
                  | s2 r2 Hd Hf HL1 | s2 r2 HL1 | s2 r2 HL1
                  | id a o i Ha Hp Hi | id a o c Ha Hp Hi | id a o Ha Hp];
    try exact Hdf.
  - destruct Hdf as (Hq & Hact & Htr).
    split; [apply array_from_set_NoDup | split; assumption].
  - eapply launched_duplicate_free;
      [exact HL1 | apply array_from_set_NoDup |].
    destruct Hdf as (Hq & Hact & Htr).
    split; [constructor | split; assumption].
  - destruct Hdf as (Hq & Hact & Htr).
    eapply launched_duplicate_free; [exact HL1 | exact Hq |].
    split; [constructor | split; assumption].
  - eapply launched_duplicate_free; [exact HL1 | constructor | exact Hdf].
  - eapply launched_duplicate_free; [exact HL1 | constructor | exact Hdf].
  - destruct Hdf as (Hq & Hact & Htr).
    apply transfer_ret in Hi as (Hcmd & _ & Hfiles & _).
    assert (Htr' : forall l,
               Some (FList l)
               ∈ transfers (push_invocation i (catch_and_log o s)) -> NoDup l).
    { intros l. rewrite transfers_push_deploy by exact Hcmd.
      rewrite elem_of_app, list_elem_of_singleton, Hfiles.
      intros [Hl | [= ->]].
      - apply Htr. destruct o; exact Hl.
      - eapply Hact, Ha. }
    split; [destruct o; exact Hq |]. split; [| exact Htr'].
    simpl. intros id0 a0 Hl.
    assert (Hl' : <[id := Activation (act_cmd a) (act_files a) AwaitTransfer]>
                    (activations s) !! id0 = Some a0)
      by (destruct o; exact Hl).
    apply lookup_insert_Some in Hl' as [[_ <-] | [_ Hl']];
      [exact (Hact _ _ Ha) | eapply Hact, Hl'].
  - destruct o; exact Hdf.
  - destruct Hdf as (Hq & Hact & Htr).
    split; [destruct o; exact Hq |]. split; [| destruct o; exact Htr].
    intros id0 a0 Hl.
    assert (Hl' : delete id (activations s) !! id0 = Some a0)
      by (destruct o; exact Hl).
    apply lookup_delete_Some in Hl' as [_ Hl']. eapply Hact, Hl'.
Qed.

(** X11.  Along every run no array of files holds a file twice: not
    [filesToDeploy], not the files of a deploy in flight, not the file list
    of a transfer command handed to the external tool. *)
Theorem files_are_never_listed_twice (es : list event) (s : state) :
  run' init es = Some s -> duplicate_free s.
Proof.
  intros Hrun.
  apply (run_invariant slateEnv penv theme_dist duplicate_free any_event)
    with (es := es) (s := init);
    [| apply forallb_any_event | exact Hrun |].
  - intros s1 e s1' r _ _ Ht. apply transition_duplicate_free with (1 := Ht).
  - split; [constructor |]. split.
    + intros id a Hl. cbn [init activations] in Hl.
      rewrite lookup_empty in Hl. discriminate.
    + intros l Hl. apply elem_of_nil in Hl. destruct Hl.
Qed.

Hypothesis env_valid : isValid (validate slateEnv penv) = true.

Lemma valid_launched cmd files s s' r :
  launched' cmd files s s' r ->
  exists i, command i = "configure" /\ s' = started cmd files i s.
Proof.
  intros HL. apply launched_shape in HL as [(i & Hc & -> & _) | [_ Hv]];
    [eauto | congruence].
Qed.

Lemma launched_carried cmd files s s' r :
  launched' cmd files s s' r -> bookkeeping s -> recorded s ->
  recorded s'
  /\ (forall f, f ∈ files -> carried s' f)
  /\ (forall f, (exists id a, activations s !! id = Some a /\ f ∈ act_files a)
                \/ (exists l, Some (FList l) ∈ transfers s /\ f ∈ l) ->
                carried s' f)
  /\ filesToDeploy s' = filesToDeploy s.
Proof.
  intros HL (Hact & _) Hrec. apply valid_launched in HL as (i & Hc & ->).
  assert (Hfresh : forall id a, activations s !! id = Some a -> id <> next_id s).
  { intros id a Hl ->. assert (next_id s < next_id s) by (apply Hact; eauto).
    lia. }
  split; [| split; [| split; [| reflexivity]]].
  - intros id a Hl Hp. rewrite transfers_started by exact Hc. simpl in Hl.
    apply lookup_insert_Some in Hl as [[_ <-] | [_ Hl]];
      [discriminate Hp | eapply Hrec; eassumption].
  - intros f Hf. right. left.
    exists (next_id s), (Activation cmd files AwaitConfigure).
    simpl. rewrite lookup_insert_eq. split; [reflexivity | exact Hf].
  - intros f [(id & a & Hl & Hf) | (l & Hl & Hf)].
    + right. left. exists id, a. split; [| exact Hf].
      simpl. rewrite lookup_insert_ne; [exact Hl |].
      intros Heq. symmetry in Heq. exact (Hfresh id a Hl Heq).
    + right. right. exists l. rewrite transfers_started by exact Hc. eauto.
Qed.

End FileInvariants.

Lemma transfers_ext s1 s2 :
  invocations s1 = invocations s2 -> transfers s1 = transfers s2.
Proof. unfold transfers. intros ->. reflexivity. Qed.

Section Accounting.

Context {E : Type}.
Variable slateEnv : SlateEnv E.
Variable penv : E.
Variable theme_dist : string.

Local Abbreviation run' := (run slateEnv penv theme_dist).
Local Abbreviation step' := (step slateEnv penv theme_dist).
Local Abbreviation transition' := (transition slateEnv penv theme_dist).
Local Abbreviation launched' := (launched slateEnv penv theme_dist).

(** Nothing is carried that was not carried before or handed over by the
    event. *)
Lemma transition_carried_back s e s' r f :
  transition' s e s' r -> carried s' f ->
  carried s f \/ exists files, e = Sync files /\ f ∈ files.
Proof.
  intros Ht.
  assert (HL : forall cmd files s0 s2 r2,
             launched' cmd files s0 s2 r2 -> carried s2 f ->
             f ∈ files \/ carried s0 f).
  { intros cmd files s0 s2 r2 HL [Hq | [(id & a & Hl & Hf) | (l & Hl & Hf)]].
    - right. left.
      apply launched_shape in HL as [(i & _ & -> & _) | [-> _]]; exact Hq.
    - apply launched_shape in HL as [(i & _ & -> & _) | [-> _]].
      + simpl in Hl. apply lookup_insert_Some in Hl as [[_ <-] | [_ Hl]].
        * left. exact Hf.
        * right. right. left. eauto.
      + right. right. left. eauto.
    - right. right. right. exists l. split; [| exact Hf].
      apply launched_shape in HL as [(i & Hc & -> & _) | [-> _]].
      + rewrite transfers_started in Hl by exact Hc. exact Hl.
      + exact Hl. }
  destruct Ht as [| files Hne Hd | files s2 r2 Hne Hd HL1 | Hd | Hd Hf
                  | s2 r2 Hd Hf HL1 | s2 r2 HL1 | s2 r2 HL1
                  | id a o i Ha Hp Hi | id a o c Ha Hp Hi | id a o Ha Hp];
    intros Hc; try (left; exact Hc).
  - destruct Hc as [Hq | Hrest]; [| left; right; exact Hrest].
    simpl in Hq. rewrite elem_of_array_from_set in Hq.
    apply elem_of_app in Hq as [Hq | Hq]; [left; left; exact Hq | eauto].
  - destruct (HL _ _ _ _ _ HL1 Hc) as [Hm | [Hq | Hrest]].
    + rewrite elem_of_array_from_set in Hm.
      apply elem_of_app in Hm as [Hm | Hm]; [left; left; exact Hm | eauto].
    + simpl in Hq. apply elem_of_nil in Hq. destruct Hq.
    + left. right. exact Hrest.
  - destruct (HL _ _ _ _ _ HL1 Hc) as [Hm | [Hq | Hrest]].
    + left. left. exact Hm.
    + simpl in Hq. apply elem_of_nil in Hq. destruct Hq.
    + left. right. exact Hrest.
  - destruct (HL _ _ _ _ _ HL1 Hc) as [Hm | Hrest]; [| left; exact Hrest].
    apply elem_of_nil in Hm. destruct Hm.
  - destruct (HL _ _ _ _ _ HL1 Hc) as [Hm | Hrest]; [| left; exact Hrest].
    apply elem_of_nil in Hm. destruct Hm.
  - left. apply transfer_ret in Hi as (Hcmd & _ & Hfiles & _).
    destruct Hc as [Hq | [(id0 & a0 & Hl & Hf) | (l & Hl & Hf)]].
    + left. destruct o; exact Hq.
    + right. left.
      assert (Hl' : <[id := Activation (act_cmd a) (act_files a) AwaitTransfer]>
                      (activations s) !! id0 = Some a0)
        by (destruct o; exact Hl).
      apply lookup_insert_Some in Hl' as [[_ <-] | [_ Hl']]; eauto.
    + assert (Hl' : Some (FList l)
                    ∈ transfers (push_invocation i (catch_and_log o s)))
        by exact Hl.
      rewrite transfers_push_deploy in Hl' by exact Hcmd.
      apply elem_of_app in Hl' as [Hl' | Hl'].
      * right. right. exists l. split; [destruct o; exact Hl' | exact Hf].
      * apply list_elem_of_singleton in Hl'. rewrite Hfiles in Hl'.
        injection Hl' as ->. right. left. eauto.
  - left. destruct Hc as [Hq | [(id0 & a0 & Hl & Hf) | (l & Hl & Hf)]].
    + left. destruct o; exact Hq.
    + right. left. exists id0, a0. split; [destruct o; exact Hl | exact Hf].
    + right. right. exists l. split; [destruct o; exact Hl | exact Hf].
  - left. destruct Hc as [Hq | [(id0 & a0 & Hl & Hf) | (l & Hl & Hf)]].
    + left. destruct o; exact Hq.
    + right. left. exists id0, a0. split; [| exact Hf].
      assert (Hl' : delete id (activations s) !! id0 = Some a0)
        by (destruct o; exact Hl).
      apply lookup_delete_Some in Hl' as [_ Hl']. exact Hl'.
    + right. right. exists l. split; [destruct o; exact Hl | exact Hf].
Qed.

(** X12.  The tool is only ever given files that were handed to [sync]:
    along every run, each file that is pending, belongs to a deploy in
    flight or is listed in a transfer command was in the array of some
    call of [sync]. *)
Theorem only_submitted_files_are_deployed
  (es : list event) (s : state) (f : string) :
  run' init es = Some s -> carried s f -> f ∈ submitted es.
Proof.
  assert (H : forall es s0 s1,
             run' s0 es = Some s1 -> carried s1 f ->
             carried s0 f \/ f ∈ submitted es).
  { clear es s. induction es as [| e es IH]; intros s0 s1 Hrun Hc.
    - injection Hrun as <-. left. exact Hc.
    - simpl in Hrun.
      destruct (step' s0 e) as [[s2 r] |] eqn:Hs; [| discriminate].
      apply step_transition in Hs as [_ Ht].
      destruct (IH _ _ Hrun Hc) as [Hc2 | Hsub].
      + destruct (transition_carried_back _ _ _ _ _ Ht Hc2)
          as [Hc0 | (files & -> & Hf)]; [left; exact Hc0 |].
        right. simpl. apply elem_of_app. left. exact Hf.
      + right. destruct e; simpl; try exact Hsub.
        apply elem_of_app. right. exact Hsub. }
  intros Hrun Hc. destruct (H es init s Hrun Hc) as [Hinit | Hsub];
    [| exact Hsub].
  destruct Hinit as [Hq | [(id & a & Hl & _) | (l & Hl & _)]].
  - apply elem_of_nil in Hq. destruct Hq.
  - cbn [init activations] in Hl. rewrite lookup_empty in Hl. discriminate.
  - apply elem_of_nil in Hl. destruct Hl.
Qed.

Hypothesis env_valid : isValid (validate slateEnv penv) = true.

(** What is carried stays carried, and what [sync] is given becomes
    carried. *)
Lemma transition_carried s e s' r :
  transition' s e s' r -> bookkeeping s -> recorded s ->
  recorded s'
  /\ (forall f, carried s f -> carried s' f)
  /\ (forall files f, e = Sync files -> f ∈ files -> carried s' f).
Proof.
  intros Ht Hb Hrec.
  destruct Ht as [| files Hne Hd | files s2 r2 Hne Hd HL1 | Hd | Hd Hf
                  | s2 r2 Hd Hf HL1 | s2 r2 HL1 | s2 r2 HL1
                  | id a o i Ha Hp Hi | id a o c Ha Hp Hi | id a o Ha Hp].
  - split; [exact Hrec |]. split; [auto |].
    intros files f [= <-] Hf. apply elem_of_nil in Hf. destruct Hf.
  - split; [exact Hrec |]. split.
    + intros f [Hq | Hrest]; [| right; exact Hrest].
      left. simpl. rewrite elem_of_array_from_set, elem_of_app. tauto.
    + intros files' f [= <-] Hf.
      left. simpl. rewrite elem_of_array_from_set, elem_of_app. tauto.
  - destruct (launched_carried slateEnv penv theme_dist env_valid
                _ _ _ _ _ HL1 Hb Hrec) as (Hrec' & Hnew & Hold & _).
    split; [exact Hrec' |]. split.
    + intros f [Hq | Hrest]; [| apply Hold, Hrest].
      apply Hnew. rewrite elem_of_array_from_set, elem_of_app. tauto.
    + intros files' f [= <-] Hf.
      apply Hnew. rewrite elem_of_array_from_set, elem_of_app. tauto.
  - split; [exact Hrec |]. split; [auto | discriminate].
  - split; [exact Hrec |]. split; [auto | discriminate].
  - destruct (launched_carried slateEnv penv theme_dist env_valid
                _ _ _ _ _ HL1 Hb Hrec) as (Hrec' & Hnew & Hold & _).
    split; [exact Hrec' |]. split; [| discriminate].
    intros f [Hq | Hrest]; [apply Hnew, Hq | apply Hold, Hrest].
  - destruct (launched_carried slateEnv penv theme_dist env_valid
                _ _ _ _ _ HL1 Hb Hrec) as (Hrec' & Hnew & Hold & Hsame).
    split; [exact Hrec' |]. split; [| discriminate].
    intros f [Hq | Hrest]; [left; rewrite Hsame; exact Hq | apply Hold, Hrest].
  - destruct (launched_carried slateEnv penv theme_dist env_valid
                _ _ _ _ _ HL1 Hb Hrec) as (Hrec' & Hnew & Hold & Hsame).
    split; [exact Hrec' |]. split; [| discriminate].
    intros f [Hq | Hrest]; [left; rewrite Hsame; exact Hq | apply Hold, Hrest].
  - apply transfer_ret in Hi as (Hcmd & _ & Hfiles & _).
    assert (Htr : transfers
                    (set_activations
                       (<[id := Activation (act_cmd a) (act_files a) AwaitTransfer]>
                          (activations s))
                       (push_invocation i (catch_and_log o s)))
                  = (transfers s ++ [Some (FList (act_files a))])%list).
    { rewrite <- Hfiles, <- (transfers_push_deploy i s Hcmd).
      apply transfers_ext. destruct o; reflexivity. }
    split; [| split; [| discriminate]].
    + intros id0 a0 Hl Hp0. rewrite Htr. apply elem_of_app.
      assert (Hl' : <[id := Activation (act_cmd a) (act_files a) AwaitTransfer]>
                      (activations s) !! id0 = Some a0)
        by (destruct o; exact Hl).
      apply lookup_insert_Some in Hl' as [[_ <-] | [_ Hl']].
      * right. apply list_elem_of_singleton. reflexivity.
      * left. eapply Hrec; eassumption.
    + intros f [Hq | [(id0 & a0 & Hl & Hf) | (l & Hl & Hf)]].
      * left. destruct o; exact Hq.
      * right. left. destruct (decide (id0 = id)) as [-> | Hne].
        -- exists id, (Activation (act_cmd a) (act_files a) AwaitTransfer).
           split; [destruct o; simpl; apply lookup_insert_eq |].
           simpl. congruence.
        -- exists id0, a0. split; [| exact Hf].
           destruct o; simpl; rewrite lookup_insert_ne by congruence; exact Hl.
      * right. right. exists l. rewrite Htr, elem_of_app. tauto.
  - apply transfer_exit in Hi as [_ Hv]. congruence.
  - assert (Htr : transfers
                    (set_settled (<[id := Fulfilled VMaybeDeploy]> (settled s))
                       (set_activations (delete id (activations s))
                          (set_deploying false (catch_and_log o s))))
                  = transfers s).
    { apply transfers_ext. destruct o; reflexivity. }
    split; [| split; [| discriminate]].
    + intros id0 a0 Hl Hp0. rewrite Htr.
      assert (Hl' : delete id (activations s) !! id0 = Some a0)
        by (destruct o; exact Hl).
      apply lookup_delete_Some in Hl' as [_ Hl']. eapply Hrec; eassumption.
    + intros f [Hq | [(id0 & a0 & Hl & Hf) | (l & Hl & Hf)]].
      * left. destruct o; exact Hq.
      * destruct (decide (id0 = id)) as [-> | Hne].
        -- right. right. exists (act_files a0). rewrite Htr.
           split; [| exact Hf]. apply (Hrec id a0 Hl). congruence.
        -- right. left. exists id0, a0. split; [| exact Hf].
           destruct o; simpl; rewrite lookup_delete_ne by congruence; exact Hl.
      * right. right. exists l. rewrite Htr. tauto.
Qed.

(** X13.  With a valid environment no file handed to [sync] is ever lost:
    along every run each of them is still pending, or belongs to a deploy
    in flight, or is listed in a transfer command that was issued. *)
Theorem submitted_files_are_never_lost
  (es : list event) (s : state) (f : string) :
  run' init es = Some s -> f ∈ submitted es -> carried s f.
Proof.
  assert (H : forall es s0 s1,
             run' s0 es = Some s1 -> bookkeeping s0 -> recorded s0 ->
             carried s0 f \/ f ∈ submitted es -> carried s1 f).
  { clear es s. induction es as [| e es IH]; intros s0 s1 Hrun Hb Hrec Hc.
    - injection Hrun as <-. destruct Hc as [Hc | Hc]; [exact Hc |].
      apply elem_of_nil in Hc. destruct Hc.
    - simpl in Hrun.
      destruct (step' s0 e) as [[s2 r] |] eqn:Hs; [| discriminate].
      apply step_transition in Hs as [_ Ht].
      destruct (transition_carried _ _ _ _ Ht Hb Hrec) as (Hrec2 & Hkeep & Hnew).
      apply (IH _ _ Hrun (transition_bookkeeping _ _ _ _ _ _ _ Ht Hb) Hrec2).
      destruct Hc as [Hc | Hc]; [left; apply Hkeep, Hc |].
      destruct e; simpl in Hc; try (right; exact Hc).
      apply elem_of_app in Hc as [Hc | Hc]; [| right; exact Hc].
      left. eapply Hnew; [reflexivity | exact Hc]. }
  intros Hrun Hsub. apply (H es init s Hrun); [| | right; exact Hsub].
  - unfold bookkeeping. simpl. repeat split.
    + intros id [a Ha]. rewrite lookup_empty in Ha. discriminate.
    + destruct H0 as [r Hr]. rewrite lookup_empty in Hr. discriminate.
    + intros id r. rewrite lookup_empty. discriminate.
  - intros id a Hl. cbn [init activations] in Hl.
    rewrite lookup_empty in Hl. discriminate.
Qed.

End Accounting.

(** ** The flag [deploying] *)

Section Flag.

Context {E : Type}.
Variable slateEnv : SlateEnv E.
Variable penv : E.
Variable theme_dist : string.

Local Abbreviation run' := (run slateEnv penv theme_dist).
Local Abbreviation step' := (step slateEnv penv theme_dist).
Local Abbreviation transition' := (transition slateEnv penv theme_dist).

(** X14.  [deploying] is a flag, not a count.  When a deploy completes
    while another one is in flight (which takes a call of [replace] or
    [upload]), the flag is cleared all the same, the other deploy goes on,
    and with a valid environment the next [sync] with files starts a
    deploy next to it. *)
Theorem completion_clears_the_flag_for_all
  (s : state) (id id' : nat) (a a' : activation) (o : outcome) :
  exit_code s = None ->
  activations s !! id = Some a -> act_phase a = AwaitTransfer ->
  id' <> id -> activations s !! id' = Some a' -> id' < next_id s ->
  exists s',
    step' s (Settle id o) = Some (s', Resumed)
    /\ deploying s' = false
    /\ activations s' !! id' = Some a'
    /\ (isValid (validate slateEnv penv) = true ->
        forall files, files <> [] ->
        exists s'',
          step' s' (Sync files) = Some (s'', Returned (PendingOn (next_id s)))
          /\ activations s'' !! id' = Some a'
          /\ is_Some (activations s'' !! next_id s)).
Proof.
  intros Hx Ha Hp Hne Ha' Hlt.
  exists (set_settled (<[id := Fulfilled VMaybeDeploy]> (settled s))
            (set_activations (delete id (activations s))
               (set_deploying false (catch_and_log o s)))).
  split; [exact (resume_transfer slateEnv penv theme_dist s id a o Hx Ha Hp) |].
  split; [reflexivity |].
  assert (Hkeep : delete id (activations s) !! id' = Some a').
  { rewrite lookup_delete_ne by congruence. exact Ha'. }
  split; [destruct o; exact Hkeep |].
  intros Hv files Hfiles.
  destruct (valid_configure slateEnv penv theme_dist Hv) as (i & Hi & _).
  eexists. split.
  - apply step_transition. split; [destruct o; exact Hx |].
    apply sync_idle; [exact Hfiles | reflexivity |].
    match goal with
    | |- launched _ _ _ ?c ?l ?s0 _ _ =>
        assert (Hn : next_id s0 = next_id s) by (destruct o; reflexivity);
        rewrite <- Hn;
        exact (launched_started slateEnv penv theme_dist c l s0 i Hi)
    end.
  - simpl. split.
    + destruct o; simpl; rewrite lookup_insert_ne by lia; exact Hkeep.
    + destruct o; simpl; rewrite lookup_insert_eq; eauto.
Qed.

Hypothesis env_valid : isValid (validate slateEnv penv) = true.

Lemma queue_transition_flag_exact s e s' r :
  queue_event e = true -> transition' s e s' r ->
  flag_exact s -> flag_exact s'.
Proof.
  intros Hq Ht [Hbusy Hidle].
  assert (HL : forall cmd files s0 s2 r2,
             launched slateEnv penv theme_dist cmd files s0 s2 r2 ->
             activations s0 = ∅ -> flag_exact s2).
  { intros cmd files s0 s2 r2 HL H0.
    apply launched_shape in HL as [(i & _ & -> & _) | [_ Hv]]; [| congruence].
    split; [| discriminate]. intros _. simpl. rewrite H0, insert_empty. eauto. }
  destruct Ht as [| files Hne Hd | files s2 r2 Hne Hd HL1 | Hd | Hd Hf
                  | s2 r2 Hd Hf HL1 | s2 r2 HL1 | s2 r2 HL1
                  | id a o i Ha Hp Hi | id a o c Ha Hp Hi | id a o Ha Hp];
    try discriminate Hq;
    try exact (conj Hbusy Hidle);
    try (eapply HL; [exact HL1 | exact (Hidle Hd)]).
  - assert (Hd : deploying s = true).
    { destruct (deploying s); [reflexivity |].
      rewrite Hidle in Ha by reflexivity. rewrite lookup_empty in Ha.
      discriminate. }
    destruct (Hbusy Hd) as (id0 & a0 & Hm).
    rewrite Hm in Ha. apply lookup_singleton_Some in Ha as [<- <-].
    split.
    + intros _. exists id0, (Activation (act_cmd a0) (act_files a0) AwaitTransfer).
      destruct o; simpl; rewrite Hm; apply insert_singleton_eq.
    + intros Hd'. assert (deploying s = false) by (destruct o; exact Hd').
      congruence.
  - apply transfer_exit in Hi as [_ Hv]. congruence.
  - assert (Hd : deploying s = true).
    { destruct (deploying s); [reflexivity |].
      rewrite Hidle in Ha by reflexivity. rewrite lookup_empty in Ha.
      discriminate. }
    destruct (Hbusy Hd) as (id0 & a0 & Hm).
    rewrite Hm in Ha. apply lookup_singleton_Some in Ha as [<- <-].
    split; [discriminate |]. intros _.
    destruct o; simpl; rewrite Hm; apply delete_singleton_eq.
Qed.

(** X15.  As long as only the queue is used ([sync], [maybeDeploy], and
    the commands settling) and the environment is valid, [deploying] is
    exact: it is set when precisely one deploy is in flight and clear when
    none is. *)
Theorem queue_flag_is_exact (es : list event) (s : state) :
  forallb queue_event es = true ->
  run' init es = Some s ->
  (deploying s = true <-> size (activations s) = 1)
  /\ (deploying s = false <-> activations s = ∅).
Proof.
  intros Hq Hrun.
  assert (Hf : flag_exact s).
  { apply (run_invariant slateEnv penv theme_dist flag_exact queue_event)
      with (es := es) (s := init); [| exact Hq | exact Hrun |].
    - intros s1 e s1' r Hq1 _ Ht.
      eapply queue_transition_flag_exact; eassumption.
    - split; [discriminate | reflexivity]. }
  destruct Hf as [Hbusy Hidle]. split; split.
  - intros Hd. destruct (Hbusy Hd) as (id & a & ->). apply map_size_singleton.
  - intros Hs. destruct (deploying s); [reflexivity |].
    rewrite Hidle in Hs by reflexivity. rewrite map_size_empty in Hs.
    discriminate.
  - exact Hidle.
  - intros He. destruct (deploying s); [| reflexivity].
    destruct (Hbusy eq_refl) as (id & a & Hm). rewrite Hm in He.
    apply (f_equal (fun m => m !! id)) in He.
    rewrite lookup_singleton_eq, lookup_empty in He. discriminate.
Qed.

End Flag.

(** ** The options of the commands *)

Section Options.

Context {E : Type}.
Variable slateEnv : SlateEnv E.
Variable penv : E.
Variable theme_dist : string.

Local Abbreviation run' := (run slateEnv penv theme_dist).
Local Abbreviation step' := (step slateEnv penv theme_dist).
Local Abbreviation transition' := (transition slateEnv penv theme_dist).

Lemma flags_domain f k :
  _generateConfigFlags slateEnv penv = Ret f ->
  is_Some (f !! k) ->
  k ∈ ["password"; "themeid"; "store"; "env"; "timeout"; "ignoredFiles"].
Proof.
  unfold _generateConfigFlags, _validateEnvValues.
  destruct (isValid (validate slateEnv penv)); [| discriminate]. simpl.
  destruct (truthy_string (fn_call (getTimeoutValue slateEnv) penv));
    destruct (truthy_string (fn_call (getIgnoreFilesValue slateEnv) penv));
    intros [= <-] Hk.
  all: repeat (apply lookup_insert_is_Some in Hk as [<- | [_ Hk]];
               [repeat constructor |]).
  all: destruct Hk as [x Hx]; rewrite lookup_empty in Hx; discriminate.
Qed.

Lemma transfer_mode cmd files i :
  promiseThemekitDeploy slateEnv penv theme_dist cmd files = Ret i ->
  flags i !! "noDelete"
  = if String.eqb cmd "upload" then Some (FBool true) else None.
Proof.
  unfold promiseThemekitDeploy.
  destruct (_generateConfigFlags slateEnv penv) as [f | c] eqn:Hf;
    [| discriminate].
  intros [= <-]. simpl. rewrite lookup_insert_ne by discriminate.
  destruct (String.eqb cmd "upload"); [apply lookup_insert_eq |].
  rewrite lookup_insert_ne by discriminate.
  destruct (f !! "noDelete") eqn:Hl; [| reflexivity].
  assert (Hin : "noDelete" ∈ ["password"; "themeid"; "store"; "env";
                               "timeout"; "ignoredFiles"]).
  { eapply flags_domain; [exact Hf | eauto]. }
  apply list_elem_of_In in Hin. simpl in Hin.
  repeat (destruct Hin as [Hin | Hin]; [discriminate Hin |]). destruct Hin.
Qed.

(** X16.  The options common to both commands are read from the
    environment: [password], [themeid], [store] and [env] are always
    there; [timeout] is there when the timeout value is not empty;
    [ignoredFiles] is there when the ignore list is not empty, and holds
    its pieces between the colons; there is no other option. *)
Theorem config_flags_come_from_the_environment :
  isValid (validate slateEnv penv) = true ->
  exists f,
    _generateConfigFlags slateEnv penv = Ret f
    /\ f !! "password" = Some (FStr (fn_call (getPasswordValue slateEnv) penv))
    /\ f !! "themeid" = Some (FStr (fn_call (getThemeIdValue slateEnv) penv))
    /\ f !! "store" = Some (FStr (fn_call (getStoreValue slateEnv) penv))
    /\ f !! "env" = Some (FStr (fn_call (getEnvNameValue slateEnv) penv))
    /\ f !! "timeout"
       = (if truthy_string (fn_call (getTimeoutValue slateEnv) penv)
          then Some (FStr (fn_call (getTimeoutValue slateEnv) penv))
          else None)
    /\ f !! "ignoredFiles"
       = (if truthy_string (fn_call (getIgnoreFilesValue slateEnv) penv)
          then Some (FList (split_colon EmptyString
                              (fn_call (getIgnoreFilesValue slateEnv) penv)))
          else None)
    /\ forall k, is_Some (f !! k) ->
                 k ∈ ["password"; "themeid"; "store"; "env"; "timeout";
                      "ignoredFiles"].
Proof.
  intros Hv. destruct (valid_flags slateEnv penv Hv) as [f Hf].
  exists f. split; [exact Hf |].
  assert (Hdom := fun k => flags_domain f k Hf).
  revert Hf. unfold _generateConfigFlags, _validateEnvValues. rewrite Hv.
  simpl.
  destruct (truthy_string (fn_call (getTimeoutValue slateEnv) penv));
    destruct (truthy_string (fn_call (getIgnoreFilesValue slateEnv) penv));
    intros [= <-].
  all: repeat split; try exact Hdom.
  all: repeat (rewrite lookup_insert_ne by discriminate).
  all: try apply lookup_insert_eq.
  all: apply lookup_empty.
Qed.

(** X17.  The transfer command is the configure command plus three
    options: the file list it was given, [allow-live] set, and [noDelete],
    which is set for "upload" and absent for any other mode, "replace"
    included; both commands run in the same directory. *)
Theorem transfer_flags_extend_configure_flags (cmd : string) (files : list string) :
  isValid (validate slateEnv penv) = true ->
  exists f i,
    promiseThemekitConfig slateEnv penv theme_dist
    = Ret (Invocation "configure" f theme_dist)
    /\ promiseThemekitDeploy slateEnv penv theme_dist cmd files = Ret i
    /\ command i = "deploy" /\ cwd i = theme_dist
    /\ flags i !! "files" = Some (FList files)
    /\ flags i !! "allow-live" = Some (FBool true)
    /\ flags i !! "noDelete"
       = (if String.eqb cmd "upload" then Some (FBool true) else None)
    /\ f !! "files" = None /\ f !! "allow-live" = None /\ f !! "noDelete" = None
    /\ forall k, k <> "files" -> k <> "allow-live" -> k <> "noDelete" ->
                 flags i !! k = f !! k.
Proof.
  intros Hv. destruct (valid_flags slateEnv penv Hv) as [f Hf].
  destruct (valid_transfer slateEnv penv theme_dist Hv cmd files)
    as (i & Hi & Hc & Hfiles & Hlive).
  exists f, i. split.
  { unfold promiseThemekitConfig. rewrite Hf. reflexivity. }
  split; [exact Hi |]. split; [exact Hc |].
  split; [apply (transfer_ret _ _ _ _ _ _ Hi) |].
  split; [exact Hfiles |]. split; [exact Hlive |].
  split; [exact (transfer_mode _ _ _ Hi) |].
  assert (Hnot : forall k,
             k ∉ ["password"; "themeid"; "store"; "env"; "timeout";
                  "ignoredFiles"] -> f !! k = None).
  { intros k Hk. destruct (f !! k) eqn:Hl; [| reflexivity].
    destruct Hk. eapply flags_domain; [exact Hf | eauto]. }
  assert (Hthree : forall k, k = "files" \/ k = "allow-live" \/ k = "noDelete" ->
                             f !! k = None).
  { intros k Hk. apply Hnot. rewrite list_elem_of_In. simpl.
    intros Hin. destruct Hk as [-> | [-> | ->]];
      repeat (destruct Hin as [Hin | Hin]; [discriminate Hin |]); destruct Hin. }
  split; [apply Hthree; tauto |]. split; [apply Hthree; tauto |].
  split; [apply Hthree; tauto |].
  intros k H1 H2 H3. revert Hi. unfold promiseThemekitDeploy. rewrite Hf.
  intros [= <-]. simpl. rewrite lookup_insert_ne by congruence.
  destruct (String.eqb cmd "upload").
  - rewrite !lookup_insert_ne by congruence. reflexivity.
  - rewrite lookup_insert_ne by congruence. reflexivity.
Qed.

Lemma no_replace_transition s e s' r :
  no_replace e = true -> transition' s e s' r ->
  (forall id a, activations s !! id = Some a -> act_cmd a = "upload")
  /\ (forall i, i ∈ invocations s -> command i = "deploy" ->
                flags i !! "noDelete" = Some (FBool true)) ->
  (forall id a, activations s' !! id = Some a -> act_cmd a = "upload")
  /\ (forall i, i ∈ invocations s' -> command i = "deploy" ->
                flags i !! "noDelete" = Some (FBool true)).
Proof.
  intros Hq Ht [Hact Hinv].
  assert (HL : forall files s0 s2 r2,
             launched slateEnv penv theme_dist "upload" files s0 s2 r2 ->
             activations s0 = activations s -> invocations s0 = invocations s ->
             (forall id a, activations s2 !! id = Some a -> act_cmd a = "upload")
             /\ (forall i, i ∈ invocations s2 -> command i = "deploy" ->
                           flags i !! "noDelete" = Some (FBool true))).
  { intros files s0 s2 r2 HL Ha0 Hi0.
    apply launched_shape in HL as [(i & Hc & -> & _) | [-> _]]; simpl.
    - rewrite Ha0, Hi0. split.
      + intros id a Hl. apply lookup_insert_Some in Hl as [[_ <-] | [_ Hl]];
          [reflexivity | eapply Hact, Hl].
      + intros j Hj Hd. apply elem_of_app in Hj as [Hj | Hj];
          [apply Hinv; assumption |].
        apply list_elem_of_singleton in Hj. subst j. congruence.
    - rewrite Ha0, Hi0. split; assumption. }
  destruct Ht as [| files Hne Hd | files s2 r2 Hne Hd HL1 | Hd | Hd Hf
                  | s2 r2 Hd Hf HL1 | s2 r2 HL1 | s2 r2 HL1
                  | id a o i Ha Hp Hi | id a o c Ha Hp Hi | id a o Ha Hp];
    try discriminate Hq;
    try exact (conj Hact Hinv);
    try (eapply HL; [exact HL1 | reflexivity | reflexivity]).
  - pose proof (transfer_mode _ _ _ Hi) as Hmode.
    rewrite (Hact id a Ha) in Hmode. simpl in Hmode.
    split.
    + intros id0 a0 Hl.
      assert (Hl' : <[id := Activation (act_cmd a) (act_files a) AwaitTransfer]>
                      (activations s) !! id0 = Some a0)
        by (destruct o; exact Hl).
      apply lookup_insert_Some in Hl' as [[_ <-] | [_ Hl']];
        [exact (Hact id a Ha) | eapply Hact, Hl'].
    + intros j Hj Hd.
      assert (Hj' : j ∈ (invocations s ++ [i])%list) by (destruct o; exact Hj).
      apply elem_of_app in Hj' as [Hj' | Hj']; [apply Hinv; assumption |].
      apply list_elem_of_singleton in Hj'. subst j. exact Hmode.
  - destruct o; exact (conj Hact Hinv).
  - split; [| destruct o; exact Hinv].
    intros id0 a0 Hl.
    assert (Hl' : delete id (activations s) !! id0 = Some a0)
      by (destruct o; exact Hl).
    apply lookup_delete_Some in Hl' as [_ Hl']. eapply Hact, Hl'.
Qed.

(** X18.  Remote files are deleted only on request: along a run in which
    [replace] is never called, every transfer command handed to the tool
    has [noDelete] set. *)
Theorem no_delete_unless_replace (es : list event) (s : state) (i : invocation) :
  forallb no_replace es = true ->
  run' init es = Some s ->
  i ∈ invocations s -> command i = "deploy" ->
  flags i !! "noDelete" = Some (FBool true).
Proof.
  intros Hq Hrun.
  apply (run_invariant slateEnv penv theme_dist
           (fun s =>
              (forall id a, activations s !! id = Some a -> act_cmd a = "upload")
              /\ (forall i, i ∈ invocations s -> command i = "deploy" ->
                            flags i !! "noDelete" = Some (FBool true)))
           no_replace) with (es := es) (s := init);
    [| exact Hq | exact Hrun |].
  - intros s1 e s1' r Hq1 _ Ht. eapply no_replace_transition; eassumption.
  - split.
    + intros id a Hl. cbn [init activations] in Hl.
      rewrite lookup_empty in Hl. discriminate.
    + intros j Hj. apply elem_of_nil in Hj. destruct Hj.
Qed.

(** X19.  [replace()] and [upload()] go past the queue: in any running
    state and with a valid environment they start a deploy without
    touching [filesToDeploy], and once the configure command has settled,
    either way, the transfer command carries an empty file list, with
    [noDelete] set for [upload] and absent for [replace]. *)
Theorem forced_deploys_bypass_the_queue
  (s : state) (e : event) (o : outcome) :
  isValid (validate slateEnv penv) = true ->
  exit_code s = None -> forced_request e = true ->
  exists s1 s2 i,
    step' s e = Some (s1, Returned (PendingOn (next_id s)))
    /\ filesToDeploy s1 = filesToDeploy s
    /\ deploying s1 = true
    /\ step' s1 (Settle (next_id s) o) = Some (s2, Resumed)
    /\ invocations s2 = (invocations s1 ++ [i])%list
    /\ command i = "deploy"
    /\ flags i !! "files" = Some (FList [])
    /\ flags i !! "noDelete"
       = (if e is Replace then None else Some (FBool true))
    /\ filesToDeploy s2 = filesToDeploy s.
Proof.
  intros Hv Hx Hf.
  destruct (valid_configure slateEnv penv theme_dist Hv) as (ic & Hic & _).
  set (cmd := if e is Replace then "replace" else "upload").
  destruct (valid_transfer slateEnv penv theme_dist Hv cmd [])
    as (i & Hi & Hc & Hfiles & _).
  pose proof (transfer_mode _ _ _ Hi) as Hmode.
  exists (started cmd [] ic s).
  exists (set_activations
            (<[next_id s := Activation cmd [] AwaitTransfer]>
               (activations (started cmd [] ic s)))
            (push_invocation i (catch_and_log o (started cmd [] ic s)))).
  exists i. split.
  { apply step_transition. split; [exact Hx |].
    destruct e; try discriminate Hf.
    - apply forced_replace.
      exact (launched_started slateEnv penv theme_dist _ _ _ ic Hic).
    - apply forced_upload.
      exact (launched_started slateEnv penv theme_dist _ _ _ ic Hic). }
  split; [reflexivity |]. split; [reflexivity |]. split.
  { apply step_transition. split; [exact Hx |].
    apply (configure_settled slateEnv penv theme_dist (started cmd [] ic s)
             (next_id s) (Activation cmd [] AwaitConfigure) o i).
    - simpl. apply lookup_insert_eq.
    - reflexivity.
    - exact Hi. }
  split; [destruct o; reflexivity |]. split; [exact Hc |].
  split; [exact Hfiles |]. split; [| destruct o; reflexivity].
  rewrite Hmode. destruct e; try discriminate Hf; reflexivity.
Qed.

End Options.

(** ** Every outcome of the lookup *)

Section Outcomes.

Context {E : Type}.
Variable slateEnv : SlateEnv E.
Variable penv : E.
Variable JSON_parse : string -> option json.
Variable JSON_stringify : json -> string.

Local Abbreviation respond' := (respond JSON_stringify).
Local Abbreviation fetch' :=
  (fetchMainThemeId slateEnv penv JSON_parse JSON_stringify).
Local Abbreviation clean l :=
  (forallb (fun x => negb (is_null x) && negb (has_main_role x)) l = true).

Local Arguments get : simpl never.

(** [find] stops at the first main theme, finds none, or trips over a
    [null] that comes before any main theme. *)
Lemma find_main_cases items :
  (find_main items = Ok None /\ clean items)
  \/ (exists pre t post,
        items = (pre ++ t :: post)%list /\ clean pre
        /\ has_main_role t = true /\ find_main items = Ok (Some t))
  \/ (exists pre post,
        items = (pre ++ JNull :: post)%list /\ clean pre
        /\ find_main items = Throw TypeError).
Proof.
  induction items as [| x items IH]; [left; split; reflexivity |].
  destruct (is_null x) eqn:Hn.
  { right. right. exists [], items. destruct x; try discriminate Hn.
    repeat split. }
  destruct (has_main_role x) eqn:Hm.
  { right. left. exists [], x, items. repeat split; [exact Hm |].
    simpl. rewrite (get_field x p_role Hn). simpl.
    unfold has_main_role in Hm. rewrite Hm. reflexivity. }
  assert (Hstep : find_main (x :: items) = find_main items).
  { simpl. rewrite (get_field x p_role Hn). simpl.
    unfold has_main_role in Hm. rewrite Hm. reflexivity. }
  assert (Hx : negb (is_null x) && negb (has_main_role x) = true)
    by (rewrite Hn, Hm; reflexivity).
  rewrite Hstep.
  destruct IH as [[Hf Hc] | [(pre & t & post & -> & Hc & Ht & Hf)
                             | (pre & post & -> & Hc & Hf)]].
  - left. split; [exact Hf |]. simpl. rewrite Hx. exact Hc.
  - right. left. exists (x :: pre), t, post. repeat split; try assumption.
    simpl. rewrite Hx. exact Hc.
  - right. right. exists (x :: pre), post. repeat split; try assumption.
    simpl. rewrite Hx. exact Hc.
Qed.

Lemma respond_null : respond' JNull = Throw TypeError.
Proof. reflexivity. Qed.

Lemma respond_null_theme parsed pre post :
  truthy (field parsed p_errors) = false ->
  field parsed p_themes = Some (JArray (pre ++ JNull :: post)) ->
  find_main (pre ++ JNull :: post) = Throw TypeError ->
  respond' parsed = Throw TypeError.
Proof.
  intros He Hth Hfind. unfold respond.
  pose proof (array_field_not_null _ _ _ Hth) as Hn.
  rewrite (get_field parsed p_errors Hn). simpl. rewrite He.
  rewrite (get_field parsed p_themes Hn). simpl. rewrite Hth, Hfind.
  reflexivity.
Qed.

(** The five ways the listener can end, each with the responses that lead
    to it. *)
Lemma respond_cases parsed :
  (truthy (field parsed p_errors) = true
   /\ respond' parsed
      = Ok (Reject (ApiError (stringify JSON_stringify (field parsed p_errors)))))
  \/ (truthy (field parsed p_errors) = false /\ is_null parsed = false
      /\ is_array (field parsed p_themes) = false
      /\ respond' parsed
         = Ok (Reject (MalformedResponseError (JSON_stringify parsed))))
  \/ (truthy (field parsed p_errors) = false
      /\ exists items,
           field parsed p_themes = Some (JArray items) /\ clean items
           /\ respond' parsed
              = Ok (Reject (NoMainThemeError (JSON_stringify (JArray items)))))
  \/ (truthy (field parsed p_errors) = false
      /\ exists pre t post,
           field parsed p_themes = Some (JArray (pre ++ t :: post))
           /\ clean pre /\ has_main_role t = true
           /\ respond' parsed = Ok (Resolve (field t p_id)))
  \/ ((is_null parsed = true
       \/ (truthy (field parsed p_errors) = false
           /\ exists pre post,
                field parsed p_themes = Some (JArray (pre ++ JNull :: post))
                /\ clean pre))
      /\ respond' parsed = Throw TypeError).
Proof.
  destruct (is_null parsed) eqn:Hn.
  { right. right. right. right. destruct parsed; try discriminate Hn.
    split; [left; reflexivity | reflexivity]. }
  destruct (truthy (field parsed p_errors)) eqn:He.
  { left. split; [reflexivity | exact (respond_errors _ _ He)]. }
  right. destruct (is_array (field parsed p_themes)) eqn:Ha.
  2: { left. repeat split; try assumption.
       exact (respond_malformed _ _ Hn He Ha). }
  right. destruct (field parsed p_themes) as [[| | | | items |] |] eqn:Hth;
    try discriminate Ha.
  destruct (find_main_cases items)
    as [[Hf Hc] | [(pre & t & post & -> & Hc & Ht & Hf)
                   | (pre & post & -> & Hc & Hf)]].
  - left. split; [reflexivity |]. exists items. repeat split; try assumption.
    exact (respond_no_main _ _ _ He Hth Hc).
  - right. left. split; [reflexivity |]. exists pre, t, post.
    repeat split; try assumption.
    exact (respond_main _ _ _ _ _ He Hth Hc Ht).
  - right. right. split; [| eapply respond_null_theme; eassumption].
    right. split; [reflexivity |]. eauto.
Qed.

(** X21.  A resolved lookup always names a main theme: when the promise
    is resolved, the response had no truthy [errors], its [themes] array
    holds an element with role "main" before which there is neither a
    [null] nor another main element, and the value is the [id] field of
    that element ([undefined] when it has none). *)
Theorem resolved_id_is_of_the_first_main_theme
  (chunks : list string) (r : fetch_run) (v : jsval) :
  fetch' chunks = Ret r -> result r = ResolvedWith v ->
  uncaught r = None
  /\ exists parsed pre t post,
       JSON_parse (buffer chunks) = Some parsed
       /\ truthy (field parsed p_errors) = false
       /\ field parsed p_themes = Some (JArray (pre ++ t :: post))
       /\ clean pre /\ has_main_role t = true
       /\ v = field t p_id.
Proof.
  unfold fetchMainThemeId, _validateEnvValues.
  destruct (isValid (validate slateEnv penv)); [| discriminate]. simpl.
  unfold on_end, parse.
  destruct (JSON_parse (buffer chunks)) as [parsed |] eqn:Hp; simpl;
    [| intros [= <-]; discriminate].
  destruct (respond_cases parsed)
    as [[_ Hr] | [(_ & _ & _ & Hr) | [(_ & items & _ & _ & Hr)
        | [(He & pre & t & post & Hth & Hc & Ht & Hr) | [_ Hr]]]]];
    rewrite Hr; simpl; intros [= <-]; simpl; try discriminate.
  intros [= <-]. split; [reflexivity |]. exists parsed, pre, t, post.
  repeat split; assumption.
Qed.


(** X23.  For a response that is delivered to its end, so that the [end]
    listener runs: the listener leaves the promise pending exactly when an
    exception escapes it, and that happens in three cases only: the body
    is not JSON ([SyntaxError]); the body is the JSON [null]; or, there
    being no truthy [errors], the [themes] array holds a [null] before any
    main theme ([TypeError] in both).  A request that fails, or a response
    that is cut off before its end, never reaches the listener and is not
    covered: the source registers nothing for it. *)
Theorem ended_response_pending_exactly_when_the_listener_throws
  (chunks : list string) (r : fetch_run) :
  fetch' chunks = Ret r ->
  (result r = StillPending <-> is_Some (uncaught r))
  /\ (uncaught r = Some SyntaxError <-> JSON_parse (buffer chunks) = None)
  /\ (uncaught r = Some TypeError <->
      exists parsed,
        JSON_parse (buffer chunks) = Some parsed
        /\ (is_null parsed = true
            \/ (truthy (field parsed p_errors) = false
                /\ exists pre post,
                     field parsed p_themes
                     = Some (JArray (pre ++ JNull :: post))
                     /\ clean pre))).
Proof.
  unfold fetchMainThemeId, _validateEnvValues.
  destruct (isValid (validate slateEnv penv)); [| discriminate]. simpl.
  unfold on_end, parse.
  destruct (JSON_parse (buffer chunks)) as [parsed |] eqn:Hp; simpl.
  2: { intros [= <-]. simpl. split; [split; eauto |].
       split; [split; reflexivity |].
       split; [discriminate | intros (p & Hp' & _); discriminate]. }
  assert (Hex : forall pre post l,
             clean pre -> clean l -> l <> (pre ++ JNull :: post)%list).
  { intros pre post l Hpre Hl ->. rewrite forallb_app in Hl.
    apply andb_true_iff in Hl as [_ Hl]. discriminate Hl. }
  assert (Hex2 : forall pre post pre' t post',
             clean pre -> clean pre' -> has_main_role t = true ->
             (pre' ++ t :: post')%list <> (pre ++ JNull :: post)%list).
  { intros pre. induction pre as [| x pre IH];
      intros post pre' t post' Hpre Hpre' Ht Heq.
    - destruct pre' as [| y pre']; simpl in Heq.
      + injection Heq as -> _. discriminate Ht.
      + injection Heq as -> _. discriminate Hpre'.
    - simpl in Hpre. apply andb_true_iff in Hpre as [Hx Hpre].
      destruct pre' as [| y pre']; simpl in Heq.
      + injection Heq as -> _. rewrite Ht in Hx.
        rewrite andb_false_r in Hx. discriminate Hx.
      + injection Heq as -> Heq. simpl in Hpre'.
        apply andb_true_iff in Hpre' as [_ Hpre'].
        exact (IH _ _ _ _ Hpre Hpre' Ht Heq). }
  destruct (respond_cases parsed)
    as [[He Hr] | [(He & Hn & Ha & Hr) | [(He & items & Hth & Hc & Hr)
        | [(He & pre & t & post & Hth & Hc & Ht & Hr) | [Hwhy Hr]]]]];
    rewrite Hr; simpl; intros [= <-]; simpl.
  5: { split; [split; eauto |]. split; [split; discriminate |].
       split; [eauto | reflexivity]. }
  all: split; [split; [discriminate | intros [x Hx]; discriminate] |].
  all: split; [split; discriminate |].
  all: split; [discriminate |].
  all: intros (p & [= <-] & [Hnull | (He' & pre' & post' & Hth' & Hc')]);
    exfalso.
  all: try congruence.
  all: try (destruct parsed; discriminate).
  all: try (rewrite Hth' in Ha; discriminate Ha).
  all: rewrite Hth in Hth'; injection Hth' as Heq.
  - subst items. exact (Hex _ _ _ Hc' Hc eq_refl).
  - exact (Hex2 _ _ _ _ _ Hc' Hc Ht Heq).
Qed.

(** X24.  A response that is valid JSON but neither an object nor [null]
    (a number, a string, a boolean, an array) has no fields: it is
    rejected as malformed, quoting the response. *)
Theorem non_object_response_is_malformed
  (chunks : list string) (parsed : json) :
  isValid (validate slateEnv penv) = true ->
  JSON_parse (buffer chunks) = Some parsed ->
  is_null parsed = false ->
  (forall fields, parsed <> JObject fields) ->
  fetch' chunks
  = Ret (FetchRun (lookup_request slateEnv penv)
           (RejectedWith (MalformedResponseError (JSON_stringify parsed)))
           None).
Proof.
  intros Hv Hp Hn Hobj.
  rewrite (fetch_of_parsed _ _ _ _ _ _ Hv Hp).
  assert (Hf : forall p, field parsed p = None).
  { intros p. destruct parsed; try reflexivity. destruct (Hobj fields eq_refl). }
  rewrite (respond_malformed _ _ Hn); [reflexivity | |]; rewrite Hf; reflexivity.
Qed.

End Outcomes.

(** ** Configure first, transfer second *)

Section Order.

Context {E : Type}.
Variable slateEnv : SlateEnv E.
Variable penv : E.
Variable theme_dist : string.

Local Abbreviation run' := (run slateEnv penv theme_dist).
Local Abbreviation transition' := (transition slateEnv penv theme_dist).

Lemma transition_order s e s' r :
  transition' s e s' r -> bookkeeping s ->
  length (transfers s) + size (awaiting_configure s) = length (configures s) ->
  length (invocations s) = length (configures s) + length (transfers s) ->
  length (transfers s') + size (awaiting_configure s') = length (configures s')
  /\ length (invocations s') = length (configures s') + length (transfers s').
Proof.
  intros Ht (Hact & _) Hsum Hall.
  assert (HL : forall cmd files s0 s2 r2,
             launched slateEnv penv theme_dist cmd files s0 s2 r2 ->
             activations s0 = activations s -> invocations s0 = invocations s ->
             next_id s0 = next_id s ->
             length (transfers s2) + size (awaiting_configure s2)
             = length (configures s2)
             /\ length (invocations s2)
                = length (configures s2) + length (transfers s2)).
  { intros cmd files s0 s2 r2 HL Ha0 Hi0 Hn0.
    apply launched_shape in HL as [(i & Hc & -> & _) | [-> _]].
    - rewrite transfers_started by exact Hc.
      change (configures (started cmd files i s0))
        with (configures (push_invocation i s0)).
      rewrite configures_push_configure by exact Hc.
      rewrite (transfers_ext s0 s Hi0).
      unfold awaiting_configure, configures in *. simpl.
      rewrite Ha0, Hi0, Hn0, length_app. simpl.
      rewrite map_filter_insert_True by reflexivity.
      rewrite map_size_insert_None.
      + lia.
      + apply map_lookup_filter_None_2. left.
        destruct (activations s !! next_id s) eqn:Hl; [| reflexivity].
        assert (next_id s < next_id s) by (apply Hact; eauto). lia.
    - unfold awaiting_configure, configures, transfers in *. simpl.
      rewrite Ha0, Hi0. split; assumption. }
  destruct Ht as [| files Hne Hd | files s2 r2 Hne Hd HL1 | Hd | Hd Hf
                  | s2 r2 Hd Hf HL1 | s2 r2 HL1 | s2 r2 HL1
                  | id a o i Ha Hp Hi | id a o c Ha Hp Hi | id a o Ha Hp];
    try exact (conj Hsum Hall);
    try (eapply HL; [exact HL1 | reflexivity..]).
  - apply transfer_ret in Hi as (Hcmd & _).
    assert (Htr : transfers
                    (set_activations
                       (<[id := Activation (act_cmd a) (act_files a) AwaitTransfer]>
                          (activations s))
                       (push_invocation i (catch_and_log o s)))
                  = (transfers s ++ [flags i !! "files"])%list).
    { rewrite <- (transfers_push_deploy i s Hcmd).
      apply transfers_ext. destruct o; reflexivity. }
    assert (Hcf : configures
                    (set_activations
                       (<[id := Activation (act_cmd a) (act_files a) AwaitTransfer]>
                          (activations s))
                       (push_invocation i (catch_and_log o s)))
                  = configures s).
    { rewrite <- (configures_push_deploy i s Hcmd).
      unfold configures. destruct o; reflexivity. }
    assert (Haw : S (size (awaiting_configure
                    (set_activations
                       (<[id := Activation (act_cmd a) (act_files a) AwaitTransfer]>
                          (activations s))
                       (push_invocation i (catch_and_log o s)))))
                  = size (awaiting_configure s)).
    { unfold awaiting_configure.
      assert (Hm : activations
                     (set_activations
                        (<[id := Activation (act_cmd a) (act_files a) AwaitTransfer]>
                           (activations s))
                        (push_invocation i (catch_and_log o s)))
                   = <[id := Activation (act_cmd a) (act_files a) AwaitTransfer]>
                       (activations s)) by reflexivity.
      rewrite Hm, map_filter_insert_False by discriminate.
      rewrite map_filter_delete, map_size_delete_Some.
      - assert (Hpos : size (filter (fun ka => act_phase ka.2 = AwaitConfigure)
                               (activations s)) <> 0).
        { intros Hz. apply map_size_empty_inv in Hz.
          eapply map_filter_empty_not_lookup in Hz; [exact (Hz Ha) | exact Hp]. }
        lia.
      - exists a. apply map_lookup_filter_Some_2; assumption. }
    assert (Hlen : length (invocations
                     (set_activations
                        (<[id := Activation (act_cmd a) (act_files a) AwaitTransfer]>
                           (activations s))
                        (push_invocation i (catch_and_log o s))))
                   = S (length (invocations s))).
    { destruct o; simpl; rewrite length_app; simpl; lia. }
    rewrite Htr, Hcf, Hlen, length_app. simpl. lia.
  - destruct o; exact (conj Hsum Hall).
  - assert (Haw : awaiting_configure
                    (set_settled (<[id := Fulfilled VMaybeDeploy]> (settled s))
                       (set_activations (delete id (activations s))
                          (set_deploying false (catch_and_log o s))))
                  = awaiting_configure s).
    { unfold awaiting_configure.
      assert (Hm : activations
                     (set_settled (<[id := Fulfilled VMaybeDeploy]> (settled s))
                        (set_activations (delete id (activations s))
                           (set_deploying false (catch_and_log o s))))
                   = delete id (activations s)) by reflexivity.
      rewrite Hm. apply map_filter_delete_not.
      intros y Hy. rewrite Ha in Hy. injection Hy as <-. simpl. congruence. }
    rewrite Haw.
    assert (Hinv : invocations
                     (set_settled (<[id := Fulfilled VMaybeDeploy]> (settled s))
                        (set_activations (delete id (activations s))
                           (set_deploying false (catch_and_log o s))))
                   = invocations s) by (destruct o; reflexivity).
    unfold configures, transfers. rewrite Hinv. exact (conj Hsum Hall).
Qed.

(** X25.  The tool is configured before it transfers: along every run
    the log holds configure and transfer commands only, and the configure
    commands are as many as the transfer commands and the deploys whose
    configure command has not settled yet, taken together. *)
Theorem every_transfer_was_configured (es : list event) (s : state) :
  run' init es = Some s ->
  length (transfers s) + size (awaiting_configure s) = length (configures s)
  /\ length (invocations s) = length (configures s) + length (transfers s)
  /\ length (transfers s) <= length (configures s).
Proof.
  intros Hrun.
  assert (H : bookkeeping s
              /\ length (transfers s) + size (awaiting_configure s)
                 = length (configures s)
              /\ length (invocations s)
                 = length (configures s) + length (transfers s)).
  { apply (run_invariant slateEnv penv theme_dist
             (fun s => bookkeeping s
                       /\ length (transfers s) + size (awaiting_configure s)
                          = length (configures s)
                       /\ length (invocations s)
                          = length (configures s) + length (transfers s))
             any_event) with (es := es) (s := init);
      [| apply forallb_any_event | exact Hrun |].
    - intros s1 e s1' r _ _ Ht (Hb & Hsum & Hall).
      split; [eapply transition_bookkeeping; eassumption |].
      eapply transition_order; eassumption.
    - split; [| split; reflexivity].
      unfold bookkeeping. simpl. repeat split.
      + intros id [a Ha]. rewrite lookup_empty in Ha. discriminate.
      + destruct H as [r Hr]. rewrite lookup_empty in Hr. discriminate.
      + intros id r. rewrite lookup_empty. discriminate. }
  destruct H as (_ & Hsum & Hall). split; [exact Hsum |].
  split; [exact Hall | lia].
Qed.

End Order.

(** ** The further properties on the sample system *)

Lemma sample_trace_runs :
  sample_run init sample_trace = Some (sample_after sample_trace).
Proof. vm_compute. reflexivity. Qed.

Lemma sample_is_valid : isValid (validate sample_slateEnv sample_penv) = true.
Proof. vm_compute. reflexivity. Qed.

(** X3 on an ignore list of two patterns. *)
Lemma split_colon_round_trip_witness :
  has_colon "config/settings_data.json" = false
  /\ split_colon EmptyString "config/settings_data.json:locales/*"
     = ["config/settings_data.json"; "locales/*"]
  /\ split_colon EmptyString "config/settings_data.json"
     = ["config/settings_data.json"].
Proof.
  split; [reflexivity |]. split; [reflexivity |].
  exact (proj2 (proj2 (proj2 (split_colon_round_trip
                                "config/settings_data.json"))) eq_refl).
Defined.

(** X10 on the sample run. *)
Lemma deploys_are_numbered_and_settle_once_witness :
  sample_run init sample_trace = Some (sample_after sample_trace)
  /\ bookkeeping (sample_after sample_trace)
  /\ next_id (sample_after sample_trace) = 3.
Proof.
  split; [exact sample_trace_runs |].
  split; [| vm_compute; reflexivity].
  exact (proj1 (deploys_are_numbered_and_settle_once sample_slateEnv
                  sample_penv sample_dist _ _ sample_trace_runs)).
Defined.

(** X11 on the sample run. *)
Lemma files_are_never_listed_twice_witness :
  sample_run init sample_trace = Some (sample_after sample_trace)
  /\ duplicate_free (sample_after sample_trace).
Proof.
  split; [exact sample_trace_runs |].
  exact (files_are_never_listed_twice sample_slateEnv sample_penv sample_dist
           _ _ sample_trace_runs).
Defined.

Lemma sample_trace_carries_b :
  carried (sample_after sample_trace) "b.liquid".
Proof.
  right. left. exists 2, (Activation "upload" ["b.liquid"; "a.liquid"; "c.liquid"]
                                     AwaitConfigure).
  split; [vm_compute; reflexivity |]. simpl. apply list_elem_of_In. simpl. tauto.
Qed.

(** X12 on the sample run: [b.liquid], now with a deploy in flight, was
    handed to [sync]. *)
Lemma only_submitted_files_are_deployed_witness :
  sample_run init sample_trace = Some (sample_after sample_trace)
  /\ carried (sample_after sample_trace) "b.liquid"
  /\ "b.liquid" ∈ submitted sample_trace.
Proof.
  split; [exact sample_trace_runs |]. split; [exact sample_trace_carries_b |].
  exact (only_submitted_files_are_deployed sample_slateEnv sample_penv
           sample_dist _ _ _ sample_trace_runs sample_trace_carries_b).
Defined.

(** X13 on the sample run: [c.liquid], handed to the last [sync], is
    accounted for. *)
Lemma submitted_files_are_never_lost_witness :
  isValid (validate sample_slateEnv sample_penv) = true
  /\ sample_run init sample_trace = Some (sample_after sample_trace)
  /\ "c.liquid" ∈ submitted sample_trace
  /\ carried (sample_after sample_trace) "c.liquid".
Proof.
  assert (Hin : "c.liquid" ∈ submitted sample_trace).
  { apply list_elem_of_In. simpl. tauto. }
  split; [exact sample_is_valid |]. split; [exact sample_trace_runs |].
  split; [exact Hin |].
  exact (submitted_files_are_never_lost sample_slateEnv sample_penv sample_dist
           sample_is_valid _ _ _ sample_trace_runs Hin).
Defined.

(** X14 on the sample system: the deploy started by [sync] completes while
    the one started by [upload] is in flight. *)
Lemma completion_clears_the_flag_for_all_witness :
  activations (sample_after [Sync ["a.liquid"]; Upload; Settle 0 Succeeded]) !! 0
  = Some (Activation "upload" ["a.liquid"] AwaitTransfer)
  /\ activations (sample_after [Sync ["a.liquid"]; Upload; Settle 0 Succeeded]) !! 1
     = Some (Activation "upload" [] AwaitConfigure)
  /\ exists s',
       sample_step (sample_after [Sync ["a.liquid"]; Upload; Settle 0 Succeeded])
         (Settle 0 Succeeded) = Some (s', Resumed)
       /\ deploying s' = false
       /\ activations s' !! 1 = Some (Activation "upload" [] AwaitConfigure).
Proof.
  assert (H0 : activations
                 (sample_after [Sync ["a.liquid"]; Upload; Settle 0 Succeeded])
               !! 0 = Some (Activation "upload" ["a.liquid"] AwaitTransfer))
    by (vm_compute; reflexivity).
  assert (H1 : activations
                 (sample_after [Sync ["a.liquid"]; Upload; Settle 0 Succeeded])
               !! 1 = Some (Activation "upload" [] AwaitConfigure))
    by (vm_compute; reflexivity).
  split; [exact H0 |]. split; [exact H1 |].
  assert (Hx : exit_code
                 (sample_after [Sync ["a.liquid"]; Upload; Settle 0 Succeeded])
               = None) by (vm_compute; reflexivity).
  assert (Hlt : 1 < next_id
                      (sample_after [Sync ["a.liquid"]; Upload;
                                     Settle 0 Succeeded]))
    by (vm_compute; lia).
  assert (Hne : 1 <> 0) by discriminate.
  destruct (completion_clears_the_flag_for_all sample_slateEnv sample_penv
              sample_dist _ 0 1 _ _ Succeeded Hx H0 eq_refl Hne H1 Hlt)
    as (s' & Hs & Hd & Ha & _).
  exists s'. split; [exact Hs |]. split; [exact Hd | exact Ha].
Defined.

(** X15 on a run through the queue. *)
Lemma queue_flag_is_exact_witness :
  isValid (validate sample_slateEnv sample_penv) = true
  /\ forallb queue_event queue_trace = true
  /\ sample_run init queue_trace = Some (sample_after queue_trace)
  /\ (deploying (sample_after queue_trace) = true
      <-> size (activations (sample_after queue_trace)) = 1).
Proof.
  assert (Hr : sample_run init queue_trace = Some (sample_after queue_trace))
    by (vm_compute; reflexivity).
  split; [exact sample_is_valid |]. split; [reflexivity |].
  split; [exact Hr |].
  exact (proj1 (queue_flag_is_exact sample_slateEnv sample_penv sample_dist
                  sample_is_valid queue_trace _ eq_refl Hr)).
Defined.

(** X16 on the sample environment, which sets an ignore list and no
    timeout. *)
Lemma config_flags_come_from_the_environment_witness :
  isValid (validate sample_slateEnv sample_penv) = true
  /\ exists f,
       _generateConfigFlags sample_slateEnv sample_penv = Ret f
       /\ f !! "password" = Some (FStr "0123456789abcdef")
       /\ f !! "timeout" = None
       /\ f !! "ignoredFiles"
          = Some (FList ["config/settings_data.json"; "locales/*"]).
Proof.
  split; [exact sample_is_valid |].
  destruct (config_flags_come_from_the_environment sample_slateEnv sample_penv
              sample_is_valid)
    as (f & Hf & Hp & _ & _ & _ & Ht & Hi & _).
  exists f. split; [exact Hf |]. split; [exact Hp |].
  split; [exact Ht | exact Hi].
Defined.

(** X17 on the sample environment, for a replace. *)
Lemma transfer_flags_extend_configure_flags_witness :
  isValid (validate sample_slateEnv sample_penv) = true
  /\ exists i,
       promiseThemekitDeploy sample_slateEnv sample_penv sample_dist
         "replace" ["a.liquid"] = Ret i
       /\ flags i !! "files" = Some (FList ["a.liquid"])
       /\ flags i !! "noDelete" = None.
Proof.
  split; [exact sample_is_valid |].
  destruct (transfer_flags_extend_configure_flags sample_slateEnv sample_penv
              sample_dist "replace" ["a.liquid"] sample_is_valid)
    as (f & i & _ & Hi & _ & _ & Hfiles & _ & Hnd & _).
  exists i. split; [exact Hi |]. split; [exact Hfiles | exact Hnd].
Defined.

(** X18 on the sample run, which never calls [replace]. *)
Lemma no_delete_unless_replace_witness :
  forallb no_replace sample_trace = true
  /\ sample_run init sample_trace = Some (sample_after sample_trace)
  /\ length (invocations (sample_after sample_trace)) = 5
  /\ forall i, i ∈ invocations (sample_after sample_trace) ->
               command i = "deploy" ->
               flags i !! "noDelete" = Some (FBool true).
Proof.
  split; [reflexivity |]. split; [exact sample_trace_runs |].
  split; [vm_compute; reflexivity |].
  intros i. exact (no_delete_unless_replace sample_slateEnv sample_penv
                     sample_dist sample_trace _ i eq_refl sample_trace_runs).
Defined.

(** X19 on the sample system: [replace()] while [b.liquid] is pending. *)
Lemma forced_deploys_bypass_the_queue_witness :
  isValid (validate sample_slateEnv sample_penv) = true
  /\ exit_code (sample_after queue_trace) = None
  /\ exists s1 s2 i,
       sample_step (sample_after queue_trace) Replace
       = Some (s1, Returned (PendingOn 1))
       /\ sample_step s1 (Settle 1 Succeeded) = Some (s2, Resumed)
       /\ invocations s2 = (invocations s1 ++ [i])%list
       /\ flags i !! "files" = Some (FList [])
       /\ flags i !! "noDelete" = None
       /\ filesToDeploy s2 = ["b.liquid"].
Proof.
  assert (Hx : exit_code (sample_after queue_trace) = None)
    by (vm_compute; reflexivity).
  split; [exact sample_is_valid |]. split; [exact Hx |].
  destruct (forced_deploys_bypass_the_queue sample_slateEnv sample_penv
              sample_dist (sample_after queue_trace) Replace Succeeded
              sample_is_valid Hx eq_refl)
    as (s1 & s2 & i & H1 & _ & _ & H2 & Hinv & _ & Hfiles & Hnd & Hq).
  exists s1, s2, i. repeat split; assumption.
Defined.

(** X21 on the response with an unpublished theme 1 and the main theme 2. *)
Lemma resolved_id_is_of_the_first_main_theme_witness :
  sample_fetch [two_themes_body]
  = Ret (FetchRun (lookup_request sample_slateEnv sample_penv)
                  (ResolvedWith (Some (JNumber 2%float))) None)
  /\ exists parsed pre t post,
       sample_parse (buffer [two_themes_body]) = Some parsed
       /\ field parsed p_themes = Some (JArray (pre ++ t :: post))
       /\ has_main_role t = true
       /\ Some (JNumber 2%float) = field t p_id.
Proof.
  assert (H : sample_fetch [two_themes_body]
              = Ret (FetchRun (lookup_request sample_slateEnv sample_penv)
                              (ResolvedWith (Some (JNumber 2%float))) None))
    by (vm_compute; reflexivity).
  split; [exact H |].
  destruct (resolved_id_is_of_the_first_main_theme sample_slateEnv sample_penv
              sample_parse sample_stringify [two_themes_body] _ _ H eq_refl)
    as (_ & parsed & pre & t & post & Hp & _ & Hth & _ & Ht & Hv).
  exists parsed, pre, t, post. repeat split; assumption.
Defined.


(** X23 on the response [null], delivered to its end. *)
Lemma ended_response_pending_exactly_when_the_listener_throws_witness :
  sample_fetch ["null"]
  = Ret (FetchRun (lookup_request sample_slateEnv sample_penv)
                  StillPending (Some TypeError))
  /\ exists parsed,
       sample_parse (buffer ["null"]) = Some parsed
       /\ (is_null parsed = true
           \/ (truthy (field parsed p_errors) = false
               /\ exists pre post,
                    field parsed p_themes
                    = Some (JArray (pre ++ JNull :: post))
                    /\ forallb (fun x => negb (is_null x)
                                         && negb (has_main_role x)) pre
                       = true)).
Proof.
  assert (H : sample_fetch ["null"]
              = Ret (FetchRun (lookup_request sample_slateEnv sample_penv)
                              StillPending (Some TypeError)))
    by (vm_compute; reflexivity).
  split; [exact H |].
  exact (proj1 (proj2 (proj2 (ended_response_pending_exactly_when_the_listener_throws
                                sample_slateEnv sample_penv sample_parse
                                sample_stringify ["null"] _ H))) eq_refl).
Defined.

(** X24 on a response that is an array. *)
Lemma non_object_response_is_malformed_witness :
  isValid (validate sample_slateEnv sample_penv) = true
  /\ array_parse (buffer ["[1,"; "2]"]) = Some array_response
  /\ fetchMainThemeId sample_slateEnv sample_penv array_parse sample_stringify
       ["[1,"; "2]"]
     = Ret (FetchRun (lookup_request sample_slateEnv sample_penv)
              (RejectedWith (MalformedResponseError "[...]")) None).
Proof.
  assert (Hp : array_parse (buffer ["[1,"; "2]"]) = Some array_response)
    by (vm_compute; reflexivity).
  split; [exact sample_is_valid |]. split; [exact Hp |].
  exact (non_object_response_is_malformed sample_slateEnv sample_penv
           array_parse sample_stringify _ _ sample_is_valid Hp eq_refl
           ltac:(discriminate)).
Defined.

(** X25 on the sample run. *)
Lemma every_transfer_was_configured_witness :
  sample_run init sample_trace = Some (sample_after sample_trace)
  /\ length (transfers (sample_after sample_trace)) = 2
  /\ length (configures (sample_after sample_trace)) = 3
  /\ length (transfers (sample_after sample_trace))
     + size (awaiting_configure (sample_after sample_trace))
     = length (configures (sample_after sample_trace)).
Proof.
  split; [exact sample_trace_runs |].
  split; [vm_compute; reflexivity |]. split; [vm_compute; reflexivity |].
  exact (proj1 (every_transfer_was_configured sample_slateEnv sample_penv
                  sample_dist _ _ sample_trace_runs)).
Defined.

(** X4 on the sample system: [b.liquid] and again [a.liquid] arrive while
    [a.liquid] is being deployed. *)
Lemma sync_while_busy_accumulates_witness :
  exit_code (sample_after [Sync ["a.liquid"]]) = None
  /\ deploying (sample_after [Sync ["a.liquid"]]) = true
  /\ exists s',
       sample_step (sample_after [Sync ["a.liquid"]])
         (Sync ["b.liquid"; "a.liquid"]) = Some (s', in_progress)
       /\ (forall f, f ∈ filesToDeploy s'
                     <-> f ∈ filesToDeploy (sample_after [Sync ["a.liquid"]])
                         \/ f ∈ ["b.liquid"; "a.liquid"])
       /\ NoDup (filesToDeploy s').
Proof.
  assert (Hx : exit_code (sample_after [Sync ["a.liquid"]]) = None)
    by (vm_compute; reflexivity).
  assert (Hd : deploying (sample_after [Sync ["a.liquid"]]) = true)
    by (vm_compute; reflexivity).
  split; [exact Hx |]. split; [exact Hd |].
  destruct (sync_while_busy_accumulates sample_slateEnv sample_penv sample_dist
              (sample_after [Sync ["a.liquid"]]) ["b.liquid"; "a.liquid"]
              Hx Hd ltac:(discriminate))
    as (s' & Hs & Hin & Hnd & _).
  exists s'. split; [exact Hs |]. split; [exact Hin | exact Hnd].
Defined.

(** X5 on the sample system: [c.liquid] arrives after the deploy of
    [a.liquid], during which [b.liquid] was enqueued, has completed. *)
Lemma sync_when_idle_deploys_everything_witness :
  isValid (validate sample_slateEnv sample_penv) = true
  /\ deploying (sample_after [Sync ["a.liquid"]; Sync ["b.liquid"];
                              Settle 0 Succeeded; Settle 0 Succeeded]) = false
  /\ exists s',
       sample_step (sample_after [Sync ["a.liquid"]; Sync ["b.liquid"];
                                  Settle 0 Succeeded; Settle 0 Succeeded])
         (Sync ["c.liquid"]) = Some (s', Returned (PendingOn 1))
       /\ activations s' !! 1
          = Some (Activation "upload" ["b.liquid"; "c.liquid"] AwaitConfigure)
       /\ filesToDeploy s' = [].
Proof.
  assert (Hv : isValid (validate sample_slateEnv sample_penv) = true)
    by (vm_compute; reflexivity).
  assert (Hd : deploying (sample_after [Sync ["a.liquid"]; Sync ["b.liquid"];
                                        Settle 0 Succeeded; Settle 0 Succeeded])
               = false) by (vm_compute; reflexivity).
  split; [exact Hv |]. split; [exact Hd |].
  destruct (sync_when_idle_deploys_everything sample_slateEnv sample_penv
              sample_dist
              (sample_after [Sync ["a.liquid"]; Sync ["b.liquid"];
                             Settle 0 Succeeded; Settle 0 Succeeded])
              ["c.liquid"] Hv ltac:(vm_compute; reflexivity) Hd
              ltac:(discriminate))
    as (s' & i & Hs & Ha & Hf & _).
  exists s'. split; [exact Hs |]. split; [| exact Hf].
  rewrite Ha. vm_compute. reflexivity.
Defined.

(** X6 on the sample system: [upload()] from the initial state. *)
Lemma answers_of_the_module_witness :
  sample_step init Upload = Some (sample_after [Upload], Returned (PendingOn 0))
  /\ next_id (sample_after [Upload]) = 1
  /\ deploying (sample_after [Upload]) = true.
Proof.
  assert (H : sample_step init Upload
              = Some (sample_after [Upload], Returned (PendingOn 0)))
    by (vm_compute; reflexivity).
  split; [exact H |].
  destruct (answers_of_the_module sample_slateEnv sample_penv sample_dist
              _ _ _ _ H) as (_ & Hn & Hd & _).
  split; [exact Hn | exact Hd].
Defined.

(** X7 on the sample system: the configure command succeeds, the transfer
    fails. *)
Lemma failures_are_logged_witness :
  sample_run init [Upload; Settle 0 Succeeded;
                   Settle 0 (Failed (Error "transfer failed"))]
  = Some (sample_after [Upload; Settle 0 Succeeded;
                        Settle 0 (Failed (Error "transfer failed"))])
  /\ stderr (sample_after [Upload; Settle 0 Succeeded;
                           Settle 0 (Failed (Error "transfer failed"))])
     = [Error "transfer failed"].
Proof.
  assert (H : sample_run init [Upload; Settle 0 Succeeded;
                               Settle 0 (Failed (Error "transfer failed"))]
              = Some (sample_after
                        [Upload; Settle 0 Succeeded;
                         Settle 0 (Failed (Error "transfer failed"))]))
    by (vm_compute; reflexivity).
  split; [exact H |].
  exact (failures_are_logged sample_slateEnv sample_penv sample_dist _ _ _ H).
Defined.

(** X8 on the sample system. *)
Lemma valid_environment_keeps_running_witness :
  isValid (validate sample_slateEnv sample_penv) = true
  /\ sample_run init [Sync ["a.liquid"]; Upload]
     = Some (sample_after [Sync ["a.liquid"]; Upload])
  /\ exit_code (sample_after [Sync ["a.liquid"]; Upload]) = None.
Proof.
  assert (Hv : isValid (validate sample_slateEnv sample_penv) = true)
    by (vm_compute; reflexivity).
  assert (H : sample_run init [Sync ["a.liquid"]; Upload]
              = Some (sample_after [Sync ["a.liquid"]; Upload]))
    by (vm_compute; reflexivity).
  split; [exact Hv |]. split; [exact H |].
  exact (proj1 (valid_environment_keeps_running sample_slateEnv sample_penv
                  sample_dist _ _ Hv H)).
Defined.

(** X9 on the sample environment without its password. *)
Lemma invalid_environment_never_invokes_witness :
  isValid (validate sample_slateEnv broken_penv) = false
  /\ run sample_slateEnv broken_penv sample_dist init
       [Sync []; MaybeDeploy; Sync ["a.liquid"]]
     = Some (State true [] ∅ [] ∅ [] 0 (Some 1%Z))
  /\ invocations (State true [] ∅ [] ∅ [] 0 (Some 1%Z)) = [].
Proof.
  assert (Hv : isValid (validate sample_slateEnv broken_penv) = false)
    by (vm_compute; reflexivity).
  assert (H : run sample_slateEnv broken_penv sample_dist init
                [Sync []; MaybeDeploy; Sync ["a.liquid"]]
              = Some (State true [] ∅ [] ∅ [] 0 (Some 1%Z)))
    by (vm_compute; reflexivity).
  split; [exact Hv |]. split; [exact H |].
  exact (proj1 (invalid_environment_never_invokes sample_slateEnv broken_penv
                  sample_dist sample_parse sample_stringify _ _ Hv H)).
Defined.
